(** * state_capitol_verifier.py: a shallow embedding and its verified claims

    The script is a linear batch pipeline: [load_json] the input file, call
    [geocode] once per record, mutate matched records in place, write the
    records back with [json.dumps], re-load the written file and check the
    coordinate pairs with [unique_latlon].

    The embedding keeps the script's four functions ([load_json], [geocode],
    [unique_latlon], [main]) under their own names.  Python values that come
    out of [json.load] are the inductive type [value]; a Python [str] is the
    list of its code points; a Python [float] is a binary64 number
    ([spec_float] at precision 53); a [dict] is an association list in
    insertion order; exceptions are the [Raise] branch of [result]; the file
    system, the network and the console are fields of [World], threaded
    through the [IO] monad. *)

From Stdlib Require Import ZArith NArith List Bool Lia String Ascii.
From Stdlib Require Import Floats.SpecFloat.
From stdpp Require Import base option list gmap.

Set Default Proof Using "Type".
Local Open Scope Z_scope.

(* ===================================================================== *)
(** * Python data                                                         *)
(* ===================================================================== *)

(** ** Text: a [str] is a sequence of Unicode code points *)

Definition char := N.
Definition text := list N.

Fixpoint lit (s : string) : text :=
  match s with
  | EmptyString => []
  | String a s' => N_of_ascii a :: lit s'
  end.

(** ** Exceptions the script can meet, by class *)

Inductive exn :=
  | OSError                 (* open / write_text on a missing or unwritable path *)
  | JSONDecodeError         (* json.load on malformed text *)
  | ValueError (msg : text) (* raise ValueError("...") and the builtins' own *)
  | TypeError
  | KeyError
  | IndexError
  | AttributeError
  | OverflowError
  | UnicodeEncodeError
  | RequestException        (* requests.get: transport failure, timeout *)
  | HTTPError.              (* Response.raise_for_status on an error status *)

Inductive result (A : Type) :=
  | Ok (a : A)
  | Raise (e : exn).
Arguments Ok {A} a.
Arguments Raise {A} e.

Definition rbind {A B} (r : result A) (k : A -> result B) : result B :=
  match r with
  | Ok a => k a
  | Raise e => Raise e
  end.

(** The spec's two error families. *)
Definition FormatError (e : exn) : Prop := exists msg, e = ValueError msg.
Definition NetworkError (e : exn) : Prop := e = RequestException \/ e = HTTPError.

(** ** Values produced by a JSON decoder *)

Definition float := spec_float.

Unset Elimination Schemes.
Inductive value :=
  | JNull
  | JBool (b : bool)
  | JInt (n : Z)
  | JFloat (f : float)
  | JStr (s : text)
  | JArr (items : list value)
  | JObj (fields : list (text * value)).
Set Elimination Schemes.

Section value_induction.
Variable P : value -> Prop.
Hypothesis Hnull : P JNull.
Hypothesis Hbool : forall b, P (JBool b).
Hypothesis Hint : forall n, P (JInt n).
Hypothesis Hfloat : forall f, P (JFloat f).
Hypothesis Hstr : forall s, P (JStr s).
Hypothesis Harr : forall items, Forall P items -> P (JArr items).
Hypothesis Hobj : forall fields, Forall (fun kv => P (snd kv)) fields -> P (JObj fields).

Fixpoint value_ind (v : value) : P v :=
  match v with
  | JNull => Hnull
  | JBool b => Hbool b
  | JInt n => Hint n
  | JFloat f => Hfloat f
  | JStr s => Hstr s
  | JArr items =>
      Harr items
        ((fix go (l : list value) : Forall P l :=
            match l with
            | [] => Forall_nil_2 P
            | x :: l' => Forall_cons_2 P x l' (value_ind x) (go l')
            end) items)
  | JObj fields =>
      Hobj fields
        ((fix go (l : list (text * value)) : Forall (fun kv => P (snd kv)) l :=
            match l with
            | [] => Forall_nil_2 _
            | kv :: l' => Forall_cons_2 _ kv l' (value_ind (snd kv)) (go l')
            end) fields)
  end.
End value_induction.

(** ** dict: insertion-ordered, one entry per key *)

Definition dict := list (text * value).

Fixpoint dict_lookup (k : text) (d : dict) : option value :=
  match d with
  | [] => None
  | (k', v) :: d' => if decide (k' = k) then Some v else dict_lookup k d'
  end.

(** [d[k] = v]: an existing key keeps its position, a new key goes last. *)
Fixpoint dict_set (k : text) (v : value) (d : dict) : dict :=
  match d with
  | [] => [(k, v)]
  | (k', v') :: d' =>
      if decide (k' = k) then (k', v) :: d' else (k', v') :: dict_set k v d'
  end.

(** ** The operations the script applies to values *)

(** [x[key]] with a [str] key. *)
Definition getitem (x : value) (key : text) : result value :=
  match x with
  | JObj d => match dict_lookup key d with
              | Some v => Ok v
              | None => Raise KeyError
              end
  | _ => Raise TypeError
  end.

(** [x[key] = v] with a [str] key. *)
Definition setitem (x : value) (key : text) (v : value) : result value :=
  match x with
  | JObj d => Ok (JObj (dict_set key v d))
  | JArr _ => Raise TypeError
  | _ => Raise TypeError
  end.

(** [x[0]]. *)
Definition getitem0 (x : value) : result value :=
  match x with
  | JArr (v :: _) => Ok v
  | JArr [] => Raise IndexError
  | JStr (c :: _) => Ok (JStr [c])
  | JStr [] => Raise IndexError
  | JObj _ => Raise KeyError
  | _ => Raise TypeError
  end.

(** [x.get(key, default)]: only a dict has the method. *)
Definition py_get (x : value) (key : text) (default : value) : result value :=
  match x with
  | JObj d => Ok (match dict_lookup key d with Some v => v | None => default end)
  | _ => Raise AttributeError
  end.

(** [bool(x)], as the test [if not matches] applies it. *)
Definition truthy (x : value) : bool :=
  match x with
  | JNull => false
  | JBool b => b
  | JInt n => negb (n =? 0)
  | JFloat (S754_zero _) => false
  | JFloat _ => true
  | JStr s => negb (bool_decide (s = []))
  | JArr l => negb (bool_decide (l = []))
  | JObj d => negb (bool_decide (d = []))
  end.

(* ===================================================================== *)
(** * Floats: binary64                                                    *)
(* ===================================================================== *)

Definition prec : Z := 53.
Definition emax : Z := 1024.

(** [float(n)] for an [int]: round to nearest, ties to even; an [int] beyond
    the range raises. *)
Definition float_of_int (n : Z) : result float :=
  match binary_normalize prec emax n 0 false with
  | S754_infinity _ => Raise OverflowError
  | f => Ok f
  end.

(** The nearest binary64 number to the fraction [num / den]. *)
Definition float_of_ratio (s : bool) (num den : positive) : float :=
  SFdiv prec emax (S754_finite s num 0) (S754_finite false den 0).

(** [a / b] rounded to the nearest integer, ties to even ([0 <= a], [0 < b]). *)
Definition div_half_even (a b : Z) : Z :=
  let (q, r) := Z.div_eucl a b in
  match 2 * r ?= b with
  | Lt => q
  | Gt => q + 1
  | Eq => if Z.even q then q else q + 1
  end.

(** [round(x, ndigits)] for a float and [0 <= ndigits]: the exact value of
    [x] is rounded half-even to [ndigits] decimals, and the decimal obtained
    is converted back to the nearest float.  Zeros, infinities and NaN are
    returned as they are; the sign is kept when the result is zero. *)
Definition py_round (x : float) (ndigits : Z) : float :=
  match x with
  | S754_finite s m e =>
      let p := 10 ^ ndigits in
      let n := if 0 <=? e then Zpos m * 2 ^ e * p
               else div_half_even (Zpos m * p) (2 ^ (- e)) in
      match n with
      | Zpos k => float_of_ratio s k (Z.to_pos p)
      | _ => S754_zero s
      end
  | _ => x
  end.

(** ** Equality of hashable values, as [set] and [==] see it

    Numbers compare by their exact value across [bool], [int] and [float]
    ([True == 1 == 1.0], [0.0 == -0.0]); NaN equals nothing.  A set takes
    an object for equal to itself before it compares, so that one NaN
    object met twice, as the NaN that [json] hands out for every [NaN] it
    reads, is one element; values have no identity here, and what is
    stated of the set of pairs leaves NaN out where that matters. *)

Inductive exact :=
  | Dyadic (m e : Z)     (* m * 2^e *)
  | PosInf
  | NegInf
  | NotANumber.

Definition exact_of_float (f : float) : exact :=
  match f with
  | S754_zero _ => Dyadic 0 0
  | S754_finite s m e => Dyadic (cond_Zopp s (Zpos m)) e
  | S754_infinity false => PosInf
  | S754_infinity true => NegInf
  | S754_nan => NotANumber
  end.

Definition exact_eqb (a b : exact) : bool :=
  match a, b with
  | Dyadic m1 e1, Dyadic m2 e2 =>
      let e := Z.min e1 e2 in
      m1 * 2 ^ (e1 - e) =? m2 * 2 ^ (e2 - e)
  | PosInf, PosInf => true
  | NegInf, NegInf => true
  | _, _ => false
  end.

Definition as_number (v : value) : option exact :=
  match v with
  | JBool b => Some (Dyadic (if b then 1 else 0) 0)
  | JInt n => Some (Dyadic n 0)
  | JFloat f => Some (exact_of_float f)
  | _ => None
  end.

Definition py_eq (a b : value) : bool :=
  match as_number a, as_number b with
  | Some x, Some y => exact_eqb x y
  | None, None =>
      match a, b with
      | JNull, JNull => true
      | JStr s, JStr t => bool_decide (s = t)
      | _, _ => false
      end
  | _, _ => false
  end.

(** [hash(x)] succeeds on everything but lists and dicts. *)
Definition hashable (v : value) : bool :=
  match v with
  | JArr _ | JObj _ => false
  | _ => true
  end.

(* ===================================================================== *)
(** * urllib.parse.quote_plus and the request URL                         *)
(* ===================================================================== *)

Local Open Scope N_scope.

(** [c.encode("utf-8")]: a surrogate cannot be encoded. *)
Definition utf8_encode_char (c : N) : result (list N) :=
  if c <? 0x80 then Ok [c]
  else if c <? 0x800 then Ok [0xC0 + c / 64; 0x80 + c mod 64]
  else if (0xD800 <=? c) && (c <=? 0xDFFF) then Raise UnicodeEncodeError
  else if c <? 0x10000 then
    Ok [0xE0 + c / 4096; 0x80 + (c / 64) mod 64; 0x80 + c mod 64]
  else
    Ok [0xF0 + c / 262144; 0x80 + (c / 4096) mod 64;
        0x80 + (c / 64) mod 64; 0x80 + c mod 64].

Fixpoint utf8_encode (s : text) : result (list N) :=
  match s with
  | [] => Ok []
  | c :: s' =>
      rbind (utf8_encode_char c) (fun bs =>
      rbind (utf8_encode s') (fun rest => Ok (bs ++ rest)))
  end.

Definition hex_digit (n : N) : N := if n <? 10 then 48 + n else 55 + n.

(** Letters, digits and [_.-~] are never quoted. *)
Definition always_safe (b : N) : bool :=
  ((65 <=? b) && (b <=? 90)) || ((97 <=? b) && (b <=? 122))
  || ((48 <=? b) && (b <=? 57))
  || (b =? 95) || (b =? 46) || (b =? 45) || (b =? 126).

Definition quote_byte (b : N) : text :=
  if always_safe b then [b]
  else if b =? 32 then [43]
  else [37; hex_digit (b / 16); hex_digit (b mod 16)].

(** [urllib.parse.quote_plus(x)]: anything but a [str] is a [TypeError]. *)
Definition quote_plus (x : value) : result text :=
  match x with
  | JStr s => rbind (utf8_encode s) (fun bs => Ok (concat (map quote_byte bs)))
  | _ => Raise TypeError
  end.

Local Close Scope N_scope.

(** [CENSUS_URL.format(addr=q)]. *)
Definition CENSUS_URL (addr : text) : text :=
  lit "https://geocoding.geo.census.gov/geocoder/locations/onelineaddress"
  ++ lit "?address=" ++ addr ++ lit "&benchmark=2020&format=json".

(** [DEFAULT_PAUSE = 0.4], the nearest float to 2/5. *)
Definition DEFAULT_PAUSE : float := float_of_ratio false 2 5.

(* ===================================================================== *)
(** * The json module: decoding                                           *)
(* ===================================================================== *)

(** The decoder follows [json.decoder] and [json.scanner]: whitespace is
    space, tab, newline and carriage return; strings are scanned in strict
    mode; a number is the longest match of an optional
    minus sign, an integer part without leading zero, an optional fraction
    (a dot and one or more digits) and an optional exponent ([e] or [E], an
    optional sign, one or more digits), an [int] without fraction and
    exponent and a [float] otherwise; [NaN], [Infinity] and
    [-Infinity] are accepted; an object keeps the last value of a repeated
    key, at the key's first position.  The limits of the interpreter (the
    length of an integer literal, the depth of the recursion) are left
    out. *)

Local Open Scope N_scope.

Definition is_ws (c : N) : bool :=
  (c =? 32) || (c =? 9) || (c =? 10) || (c =? 13).

Fixpoint skip_ws (s : text) : text :=
  match s with
  | c :: s' => if is_ws c then skip_ws s' else s
  | [] => []
  end.

Definition is_digit (c : N) : bool := (48 <=? c) && (c <=? 57).

Fixpoint span_digits (s : text) : text * text :=
  match s with
  | c :: s' =>
      if is_digit c then let (ds, r) := span_digits s' in (c :: ds, r)
      else ([], s)
  | [] => ([], [])
  end.

Definition number_of_digits (ds : text) : N :=
  fold_left (fun acc d => 10 * acc + (d - 48)) ds 0.

Definition hex_value (c : N) : option N :=
  if is_digit c then Some (c - 48)
  else if (97 <=? c) && (c <=? 102) then Some (c - 87)
  else if (65 <=? c) && (c <=? 70) then Some (c - 55)
  else None.

Definition hex4 (a b c d : N) : option N :=
  match hex_value a, hex_value b, hex_value c, hex_value d with
  | Some x, Some y, Some z, Some w => Some (((x * 16 + y) * 16 + z) * 16 + w)
  | _, _, _, _ => None
  end.

Definition is_high_surrogate (c : N) : bool := (0xD800 <=? c) && (c <=? 0xDBFF).
Definition is_low_surrogate (c : N) : bool := (0xDC00 <=? c) && (c <=? 0xDFFF).

Definition join_surrogates (hi lo : N) : N :=
  0x10000 + ((hi - 0xD800) * 1024 + (lo - 0xDC00)).

(** The character after a backslash: quote, backslash, slash, b, f, n, r, t. *)
Definition unescape (e : N) : option N :=
  if e =? 34 then Some 34
  else if e =? 92 then Some 92
  else if e =? 47 then Some 47
  else if e =? 98 then Some 8
  else if e =? 102 then Some 12
  else if e =? 110 then Some 10
  else if e =? 114 then Some 13
  else if e =? 116 then Some 9
  else None.

Definition cons_char (c : N) (r : option (text * text)) : option (text * text) :=
  match r with
  | Some (t, rest) => Some (c :: t, rest)
  | None => None
  end.

(** [scanstring]: the input starts just after the opening quote; the result
    is the decoded string and what follows the closing quote. *)
Fixpoint scanstring (s : text) : option (text * text) :=
  match s with
  | [] => None
  | c :: s1 =>
      if c =? 34 then Some ([], s1)
      else if c =? 92 then
        match s1 with
        | [] => None
        | e :: s2 =>
            if e =? 117 then
              match s2 with
              | h1 :: h2 :: h3 :: h4 :: s3 =>
                  match hex4 h1 h2 h3 h4 with
                  | None => None
                  | Some uni =>
                      if is_high_surrogate uni then
                        match s3 with
                        | 92 :: 117 :: s4 =>
                            match s4 with
                            | l1 :: l2 :: l3 :: l4 :: s5 =>
                                match hex4 l1 l2 l3 l4 with
                                | None => None
                                | Some uni2 =>
                                    if is_low_surrogate uni2
                                    then cons_char (join_surrogates uni uni2) (scanstring s5)
                                    else cons_char uni (scanstring s3)
                                end
                            | _ => None
                            end
                        | _ => cons_char uni (scanstring s3)
                        end
                      else cons_char uni (scanstring s3)
                  end
              | _ => None
              end
            else
              match unescape e with
              | Some c' => cons_char c' (scanstring s2)
              | None => None
              end
        end
      else if c <? 32 then None
      else cons_char c (scanstring s1)
  end.

(** [float(text)] for the text of a JSON number: the digits [ds] scaled by
    [10^e10], rounded to the nearest float. *)
Definition float_of_decimal (neg : bool) (d : N) (e10 : Z) : float :=
  match d with
  | N0 => S754_zero neg
  | Npos p =>
      if (0 <=? e10)%Z
      then binary_normalize prec emax (cond_Zopp neg (Zpos p * 10 ^ e10)%Z) 0 false
      else float_of_ratio neg p (Z.to_pos (10 ^ (- e10)))
  end.

Definition scan_frac (s : text) : option (text * text) :=
  match s with
  | c :: s' =>
      if c =? 46 then
        match span_digits s' with
        | ([], _) => None
        | (fs, r) => Some (fs, r)
        end
      else None
  | [] => None
  end.

Definition scan_sign (s : text) : bool * text :=
  match s with
  | c :: t => if c =? 43 then (false, t) else if c =? 45 then (true, t) else (false, s)
  | [] => (false, s)
  end.

Definition scan_exp (s : text) : option (Z * text) :=
  match s with
  | c :: s' =>
      if (c =? 101) || (c =? 69) then
        let '(neg, s'') := scan_sign s' in
        match span_digits s'' with
        | ([], _) => None
        | (es, r) => Some (cond_Zopp neg (Z.of_N (number_of_digits es)), r)
        end
      else None
  | [] => None
  end.

Definition scan_minus (s : text) : bool * text :=
  match s with
  | c :: s' => if c =? 45 then (true, s') else (false, s)
  | [] => (false, s)
  end.

(** The fraction and the exponent after the integer digits [ints], and the
    number they make. *)
Definition number_tail (neg : bool) (ints r1 : text) : value * text :=
  let '(frac, r2) := match scan_frac r1 with
                     | Some (fs, r) => (Some fs, r)
                     | None => (None, r1)
                     end in
  let '(ex, r3) := match scan_exp r2 with
                   | Some (e, r) => (Some e, r)
                   | None => (None, r2)
                   end in
  match frac, ex with
  | None, None =>
      (JInt (cond_Zopp neg (Z.of_N (number_of_digits ints))), r3)
  | _, _ =>
      let fs := match frac with Some fs => fs | None => [] end in
      let e := match ex with Some e => e | None => 0%Z end in
      (JFloat (float_of_decimal neg (number_of_digits (ints ++ fs))
                 (e - Z.of_nat (length fs))%Z), r3)
  end.

Definition scan_number (s : text) : option (value * text) :=
  let '(neg, s1) := scan_minus s in
  match s1 with
  | d :: s2 =>
      if is_digit d then
        let '(ints, r1) := if d =? 48 then ([d], s2) else span_digits s1 in
        Some (number_tail neg ints r1)
      else None
  | [] => None
  end.

Fixpoint strip_prefix (p s : text) : option text :=
  match p, s with
  | [], _ => Some s
  | a :: p', b :: s' => if a =? b then strip_prefix p' s' else None
  | _ :: _, [] => None
  end.

Definition scan_atom (s : text) : option (value * text) :=
  match strip_prefix (lit "null") s with Some r => Some (JNull, r) | None =>
  match strip_prefix (lit "true") s with Some r => Some (JBool true, r) | None =>
  match strip_prefix (lit "false") s with Some r => Some (JBool false, r) | None =>
  match scan_number s with Some vr => Some vr | None =>
  match strip_prefix (lit "NaN") s with Some r => Some (JFloat S754_nan, r) | None =>
  match strip_prefix (lit "Infinity") s with
  | Some r => Some (JFloat (S754_infinity false), r) | None =>
  match strip_prefix (lit "-Infinity") s with
  | Some r => Some (JFloat (S754_infinity true), r) | None => None
  end end end end end end end.

(** [dict(pairs)]. *)
Definition dict_of_pairs (pairs : list (text * value)) : dict :=
  fold_left (fun d kv => dict_set (fst kv) (snd kv) d) pairs [].

(** [scan_once] with [JSONArray] and [JSONObject]; [fuel] bounds the number
    of nested calls.  [parse_elements] starts at an array element,
    [parse_members] just after the opening quote of a key. *)
Fixpoint parse_value (fuel : nat) (s : text) {struct fuel} : option (value * text) :=
  match fuel with
  | O => None
  | S n =>
      match s with
      | [] => None
      | c :: s1 =>
          if c =? 34 then
            match scanstring s1 with
            | Some (t, r) => Some (JStr t, r)
            | None => None
            end
          else if c =? 123 then
            match skip_ws s1 with
            | d :: r =>
                if d =? 125 then Some (JObj [], r)
                else if d =? 34 then
                  match parse_members n r with
                  | Some (kvs, r') => Some (JObj (dict_of_pairs kvs), r')
                  | None => None
                  end
                else None
            | [] => None
            end
          else if c =? 91 then
            match skip_ws s1 with
            | d :: r =>
                if d =? 93 then Some (JArr [], r)
                else
                  match parse_elements n (d :: r) with
                  | Some (vs, r') => Some (JArr vs, r')
                  | None => None
                  end
            | [] => None
            end
          else scan_atom s
      end
  end
with parse_elements (fuel : nat) (s : text) {struct fuel}
  : option (list value * text) :=
  match fuel with
  | O => None
  | S n =>
      match parse_value n s with
      | None => None
      | Some (v, r) =>
          match skip_ws r with
          | d :: r' =>
              if d =? 93 then Some ([v], r')
              else if d =? 44 then
                match parse_elements n (skip_ws r') with
                | Some (vs, r'') => Some (v :: vs, r'')
                | None => None
                end
              else None
          | [] => None
          end
      end
  end
with parse_members (fuel : nat) (s : text) {struct fuel}
  : option (list (text * value) * text) :=
  match fuel with
  | O => None
  | S n =>
      match scanstring s with
      | None => None
      | Some (k, r) =>
          match skip_ws r with
          | c :: r1 =>
              if c =? 58 then
                match parse_value n (skip_ws r1) with
                | None => None
                | Some (v, r2) =>
                    match skip_ws r2 with
                    | d :: r3 =>
                        if d =? 125 then Some ([(k, v)], r3)
                        else if d =? 44 then
                          match skip_ws r3 with
                          | q :: r4 =>
                              if q =? 34 then
                                match parse_members n r4 with
                                | Some (kvs, r5) => Some ((k, v) :: kvs, r5)
                                | None => None
                                end
                              else None
                          | [] => None
                          end
                        else None
                    | [] => None
                    end
                end
              else None
          | [] => None
          end
      end
  end.

(** [json.loads(s)]: one value, surrounded by whitespace only. *)
Definition json_loads (s : text) : result value :=
  match parse_value (S (length s)) (skip_ws s) with
  | Some (v, r) =>
      match skip_ws r with
      | [] => Ok v
      | _ => Raise JSONDecodeError
      end
  | None => Raise JSONDecodeError
  end.

Local Close Scope N_scope.

(* ===================================================================== *)
(** * The json module: encoding with [indent=2]                           *)
(* ===================================================================== *)

Local Open Scope N_scope.

(** ** [int.__repr__] *)

Fixpoint digits_fuel (fuel : nat) (n : N) : text :=
  match fuel with
  | O => []
  | S fuel' =>
      if n <? 10 then [48 + n]
      else digits_fuel fuel' (n / 10) ++ [48 + n mod 10]
  end.

Definition digits (n : N) : text := digits_fuel (S (N.to_nat (N.log2 n))) n.

Definition int_repr (z : Z) : text :=
  match z with
  | Zneg p => 45 :: digits (Npos p)
  | _ => digits (Z.to_N z)
  end.

(** ** [float.__repr__]: the shortest decimal that reads back as the float *)

Definition float_eqb (a b : float) : bool :=
  match a, b with
  | S754_zero s, S754_zero t => eqb s t
  | S754_infinity s, S754_infinity t => eqb s t
  | S754_nan, S754_nan => true
  | S754_finite s m e, S754_finite t n f => eqb s t && Pos.eqb m n && Z.eqb e f
  | _, _ => false
  end.

Local Open Scope Z_scope.

(** [m * 2^e < 10^k]. *)
Definition lt_pow10 (m : positive) (e k : Z) : bool :=
  Zpos m * 2 ^ Z.max e 0 * 10 ^ Z.max (- k) 0
  <? 10 ^ Z.max k 0 * 2 ^ Z.max (- e) 0.

Fixpoint find_decpt (fuel : nat) (m : positive) (e k : Z) : Z :=
  match fuel with
  | O => k
  | S n => if lt_pow10 m e k then k else find_decpt n m e (k + 1)
  end.

(** The position of the decimal point: the least [k] with [m * 2^e < 10^k]. *)
Definition decpt_of (m : positive) (e : Z) : Z :=
  find_decpt 6 m e (((Zpos (digits2_pos m) + e) * 30103) / 100000 - 2).

(** The two [n]-digit decimals around [m * 2^e], as integers scaled by
    [10^(k-n)], nearest first. *)
Definition candidates (m : positive) (e k n : Z) : Z * Z :=
  let num := Zpos m * 2 ^ Z.max e 0 * 10 ^ Z.max (n - k) 0 in
  let den := 2 ^ Z.max (- e) 0 * 10 ^ Z.max (k - n) 0 in
  let near := div_half_even num den in
  let lo := num / den in
  (near, if near =? lo then lo + 1 else lo).

Fixpoint strip_zeros (rev_ds : text) : text :=
  match rev_ds with
  | 48%N :: r => strip_zeros r
  | _ => rev_ds
  end.

Definition exponent_repr (x : Z) : text :=
  (if x <? 0 then 45%N else 43%N)
  :: (if Z.abs x <? 10 then [48%N] else []) ++ digits (Z.to_N (Z.abs x)).

(** [repr] writes an exponent when the point falls outside the digits by
    more than a few places. *)
Definition format_repr (ds : text) (decpt : Z) : text :=
  let n := Z.of_nat (length ds) in
  if (decpt <=? -4) || (16 <? decpt) then
    match ds with
    | d :: [] => d :: 101%N :: exponent_repr (decpt - 1)
    | d :: tl => d :: 46%N :: tl ++ 101%N :: exponent_repr (decpt - 1)
    | [] => []
    end
  else if decpt <=? 0 then
    lit "0." ++ repeat 48%N (Z.to_nat (- decpt)) ++ ds
  else if n <=? decpt then
    ds ++ repeat 48%N (Z.to_nat (decpt - n)) ++ lit ".0"
  else
    take (Z.to_nat decpt) ds ++ 46%N :: drop (Z.to_nat decpt) ds.

(** A text reads back as [f]: it starts like a number, and the scanner of
    the decoder makes [f] of the whole of it. *)
Definition reads_back (f : float) (t : text) : bool :=
  match t with
  | c :: _ => is_digit c || (c =? 45)%N
  | [] => false
  end
  && match scan_number t with
     | Some (JFloat g, []) => float_eqb f g
     | _ => false
     end.

Definition sign_text (s : bool) : text := if s then [45%N] else [].

(** The decimal [c * 10^e10] as [repr] writes it: no trailing zero among
    the digits. *)
Definition candidate_text (s : bool) (c e10 : Z) : text :=
  let ds := digits (Z.to_N c) in
  sign_text s
  ++ format_repr (rev (strip_zeros (rev ds))) (e10 + Z.of_nat (length ds)).

(** The first text that reads back, with [n], [n+1], ... digits. *)
Fixpoint shortest_from (fuel : nat) (s : bool) (m : positive) (e k n : Z)
  : option text :=
  match fuel with
  | O => None
  | S fuel' =>
      let '(near, other) := candidates m e k n in
      let t1 := candidate_text s near (k - n) in
      let t2 := candidate_text s other (k - n) in
      if reads_back (S754_finite s m e) t1 then Some t1
      else if reads_back (S754_finite s m e) t2 then Some t2
      else shortest_from fuel' s m e k (n + 1)
  end.

(** The exact decimal expansion of [m * 2^e], with an exponent. *)
Definition exact_text (s : bool) (m : positive) (e : Z) : text :=
  if 0 <=? e
  then sign_text s ++ digits (Z.to_N (Zpos m * 2 ^ e)) ++ lit "e0"
  else sign_text s ++ digits (Z.to_N (Zpos m * 5 ^ (- e)))
       ++ lit "e-" ++ digits (Z.to_N (- e)).

(** [repr(f)] is the shortest decimal that reads back as [f].  Seventeen
    digits are known to suffice for a binary64 number; the exact expansion
    makes the definition total without that fact. *)
Definition float_repr (f : float) : text :=
  match f with
  | S754_zero s => sign_text s ++ lit "0.0"
  | S754_infinity s => sign_text s ++ lit "inf"
  | S754_nan => lit "nan"
  | S754_finite s m e =>
      match shortest_from 17 s m e (decpt_of m e) 1 with
      | Some t => t
      | None => exact_text s m e
      end
  end.

(** [json.encoder]'s [floatstr]. *)
Definition floatstr (f : float) : text :=
  match f with
  | S754_nan => lit "NaN"
  | S754_infinity false => lit "Infinity"
  | S754_infinity true => lit "-Infinity"
  | _ => float_repr f
  end.

Local Open Scope N_scope.

(** ** [encode_basestring_ascii] *)

Definition hex_lower (n : N) : N := if n <? 10 then 48 + n else 87 + n.

Definition u_escape (c : N) : text :=
  [92; 117; hex_lower (c / 4096); hex_lower ((c / 256) mod 16);
   hex_lower ((c / 16) mod 16); hex_lower (c mod 16)].

Definition escape_char (c : N) : text :=
  if c =? 34 then [92; 34]
  else if c =? 92 then [92; 92]
  else if c =? 10 then [92; 110]
  else if c =? 13 then [92; 114]
  else if c =? 9 then [92; 116]
  else if c =? 8 then [92; 98]
  else if c =? 12 then [92; 102]
  else if (32 <=? c) && (c <=? 126) then [c]
  else if c <? 0x10000 then u_escape c
  else
    let v := c - 0x10000 in
    u_escape (0xD800 + v / 1024) ++ u_escape (0xDC00 + v mod 1024).

Definition encode_string (s : text) : text :=
  34 :: concat (map escape_char s) ++ [34].

(** ** The indented encoder *)

Definition newline_indent (lvl : nat) : text := 10 :: repeat 32 (2 * lvl).

Fixpoint encode (lvl : nat) (v : value) : text :=
  match v with
  | JNull => lit "null"
  | JBool true => lit "true"
  | JBool false => lit "false"
  | JInt n => int_repr n
  | JFloat f => floatstr f
  | JStr s => encode_string s
  | JArr [] => lit "[]"
  | JArr (x :: xs) =>
      91 :: newline_indent (S lvl) ++ encode (S lvl) x
      ++ (fix more (l : list value) : text :=
            match l with
            | [] => []
            | y :: l' =>
                44 :: newline_indent (S lvl) ++ encode (S lvl) y ++ more l'
            end) xs
      ++ newline_indent lvl ++ [93]
  | JObj [] => lit "{}"
  | JObj ((k, x) :: kvs) =>
      123 :: newline_indent (S lvl)
      ++ encode_string k ++ lit ": " ++ encode (S lvl) x
      ++ (fix more (l : list (text * value)) : text :=
            match l with
            | [] => []
            | (k', y) :: l' =>
                44 :: newline_indent (S lvl)
                ++ encode_string k' ++ lit ": " ++ encode (S lvl) y ++ more l'
            end) kvs
      ++ newline_indent lvl ++ [125]
  end.

(** [json.dumps(v, indent=2)]. *)
Definition json_dumps (v : value) : text := encode 0 v.

Local Close Scope N_scope.

(* ===================================================================== *)
(** * The world the script runs in                                        *)
(* ===================================================================== *)

(** A [requests.Response], seen through what the script uses of it: the
    status code, which [raise_for_status] tests, and the decoded body. *)
Record Response := {
  status_code : Z;
  json : result value               (* the decoded body *)
}.

(** [Response.raise_for_status()]: an [HTTPError] for a client error
    ([400 <= status_code < 500]) or a server error
    ([500 <= status_code < 600]), and nothing for any other status. *)
Definition raise_for_status (r : Response) : result unit :=
  if (400 <=? status_code r) && (status_code r <? 600)
  then Raise HTTPError else Ok tt.

(** [files]: the text files by path.  [writable]: the paths [write_text] can
    write.  [service]: what [requests.get] meets on its [n]-th call for a
    URL, an exception or a response.  [sent], [stdout] and [naps] log the
    requests issued, the lines printed and the pauses slept. *)
Record World := {
  files : gmap text text;
  writable : text -> bool;
  service : nat -> text -> result Response;
  sent : list text;
  stdout : list text;
  naps : list float
}.

Definition IO (A : Type) : Type := World -> result A * World.

Definition ret {A} (a : A) : IO A := fun w => (Ok a, w).

Definition raise {A} (e : exn) : IO A := fun w => (Raise e, w).

Definition bind {A B} (c : IO A) (k : A -> IO B) : IO B :=
  fun w =>
    match c w with
    | (Ok a, w') => k a w'
    | (Raise e, w') => (Raise e, w')
    end.

Definition lift {A} (r : result A) : IO A := fun w => (r, w).

Declare Scope io_scope.
Delimit Scope io_scope with io.
Notation "'let*' x ':=' c 'in' k" := (bind c (fun x => k))
  (at level 10, x pattern, c at level 100, k at level 200) : io_scope.
Notation "c '>>' k" := (bind c (fun _ => k))
  (at level 100, k at level 200, right associativity) : io_scope.
Local Open Scope io_scope.

(** [with path.open(encoding="utf-8") as f: json.load(f)]. *)
Definition json_load (path : text) : IO value :=
  fun w =>
    match files w !! path with
    | Some t => (json_loads t, w)
    | None => (Raise OSError, w)
    end.

(** [path.write_text(t, encoding="utf-8")]: the file is replaced.
    [writable] tells whether the path can be opened for writing; a
    failure in the middle of the writing, which would leave a part of the
    text, is not modelled. *)
Definition write_text (path t : text) : IO unit :=
  fun w =>
    if writable w path then
      (Ok tt, {| files := <[path := t]> (files w); writable := writable w;
                 service := service w; sent := sent w;
                 stdout := stdout w; naps := naps w |})
    else (Raise OSError, w).

(** [print(t)], on a stdout that takes every text; one that encodes in
    UTF-8 refuses a text with a surrogate ([text_ok] tells them apart). *)
Definition print (t : text) : IO unit :=
  fun w =>
    (Ok tt, {| files := files w; writable := writable w;
               service := service w; sent := sent w;
               stdout := stdout w ++ [t]; naps := naps w |}).

(** [requests.get(url, timeout=15)]. *)
Definition requests_get (url : text) : IO Response :=
  fun w =>
    (service w (length (sent w)) url,
     {| files := files w; writable := writable w;
        service := service w; sent := sent w ++ [url];
        stdout := stdout w; naps := naps w |}).

(** [time.sleep(secs)], as CPython 3.11 checks its argument on x86-64
    Linux.  NaN is a [ValueError].  The length is turned into
    nanoseconds, [secs * 1e9] in doubles, then rounded away from zero to
    an integer; a magnitude beyond [2^63] is an [OverflowError], which
    comes before the test of the sign.  A negative length is a
    [ValueError], and so is [2^63] itself, which the conversion to 64 bits
    turns into [-2^63].  A length of [9223372036] seconds or more makes a
    deadline that the kernel refuses, an [OSError]; a shorter one it
    refuses only where the monotonic clock is as far on as that, which is
    left out here. *)
Definition billion : float := binary_normalize prec emax (10 ^ 9) 0 false.

Definition sleep_check (secs : float) : result unit :=
  match secs with
  | S754_nan => Raise (ValueError (lit "Invalid value NaN (not a number)"))
  | _ =>
      match SFmul prec emax secs billion with
      | S754_zero _ => Ok tt
      | S754_finite s m e =>
          let num := Zpos m * 2 ^ Z.max e 0 in
          let den := 2 ^ Z.max (- e) 0 in
          if 2 ^ 63 * den <? num then Raise OverflowError
          else if s || (num =? 2 ^ 63 * den)
          then Raise (ValueError (lit "sleep length must be non-negative"))
          else if (9223372036 * 10 ^ 9 - 1) * den <? num then Raise OSError
          else Ok tt
      | _ => Raise OverflowError
      end
  end.

Definition time_sleep (secs : float) : IO unit :=
  fun w =>
    match sleep_check secs with
    | Ok _ =>
        (Ok tt, {| files := files w; writable := writable w;
                   service := service w; sent := sent w;
                   stdout := stdout w; naps := naps w ++ [secs] |})
    | Raise e => (Raise e, w)
    end.

(** The command line after [argparse] and [Path(...).expanduser()]. *)
Record Args := {
  input : text;
  output : text;
  pause : float
}.

Definition default_args : Args :=
  {| input := lit "us_state_capitals.json";
     output := lit "us_state_capitals_verified.json";
     pause := DEFAULT_PAUSE |}.

(* ===================================================================== *)
(** * The script                                                          *)
(* ===================================================================== *)

Section Script.

(** Two builtins are taken as they come: [float(s)] for a [str] [s], and
    [str(x)] for an [x] that is not a [str] (what an f-string prints for
    it). *)
Variable float_of_str : text -> result float.
Variable str_of : value -> text.

(** [float(x)]. *)
Definition py_float (x : value) : result float :=
  match x with
  | JFloat f => Ok f
  | JInt n => float_of_int n
  | JBool b => float_of_int (if b then 1 else 0)
  | JStr s => float_of_str s
  | _ => Raise TypeError
  end.

(** [format(x)] with an empty format spec, the text an f-string inserts for [{x}]. *)
Definition py_format (x : value) : text :=
  match x with
  | JStr s => s
  | _ => str_of x
  end.

(** ** helpers *)

Definition load_json (path : text) : IO (list value) :=
  let* data := json_load path in
  match data with
  | JArr l => ret l
  | _ => raise (ValueError (lit "Root element must be a JSON array"))
  end.

Definition geocode (address : value) : IO (option (value * float * float)) :=
  let* q := lift (quote_plus address) in
  let url := CENSUS_URL q in
  let* r := requests_get url in
  let* _ := lift (raise_for_status r) in
  let* body := lift (json r) in
  let* result := lift (py_get body (lit "result") (JObj [])) in
  let* matches := lift (py_get result (lit "addressMatches") (JArr [])) in
  if negb (truthy matches) then ret None
  else
    let* best := lift (getitem0 matches) in
    let* coords := lift (getitem best (lit "coordinates")) in
    let* std_addr := lift (getitem best (lit "matchedAddress")) in
    let* y := lift (getitem coords (lit "y")) in
    let* lat := lift (py_float y) in
    let* x := lift (getitem coords (lit "x")) in
    let* lon := lift (py_float x) in
    ret (Some (std_addr, lat, lon)).

(** The set comprehension of [unique_latlon]: one pair per record, added
    to the set unless an equal pair is there. *)
Definition pair_eq (p q : value * value) : bool :=
  py_eq (fst p) (fst q) && py_eq (snd p) (snd q).

Definition set_add (p : value * value) (s : list (value * value)) :=
  if existsb (pair_eq p) s then s else s ++ [p].

Definition latlon (r : value) : result (value * value) :=
  rbind (getitem r (lit "latitude")) (fun lat =>
  rbind (getitem r (lit "longitude")) (fun lon =>
  if hashable lat && hashable lon then Ok (lat, lon) else Raise TypeError)).

Fixpoint latlon_set (records : list value) (s : list (value * value))
  : result (list (value * value)) :=
  match records with
  | [] => Ok s
  | r :: rest => rbind (latlon r) (fun p => latlon_set rest (set_add p s))
  end.

Definition unique_latlon (records : list value) : result bool :=
  rbind (latlon_set records []) (fun s =>
  Ok (Nat.eqb (length s) (length records))).

(** ** main pipeline *)

(** The body of [for rec in records]. *)
Definition loop_body (pause : float) (rec : value) (failures : list text)
  : IO (value * list text) :=
  let* address := lift (getitem rec (lit "address")) in
  let* result := geocode address in
  let* out :=
    match result with
    | None =>
        let* st := lift (getitem rec (lit "state")) in
        let* ad := lift (getitem rec (lit "address")) in
        ret (rec, failures ++ [py_format st ++ lit " | " ++ py_format ad])
    | Some (std_addr, lat, lon) =>
        let* rec1 := lift (setitem rec (lit "address") std_addr) in
        let* rec2 := lift (setitem rec1 (lit "latitude") (JFloat (py_round lat 6))) in
        let* rec3 := lift (setitem rec2 (lit "longitude") (JFloat (py_round lon 6))) in
        ret (rec3, failures)
    end in
  let* _ := time_sleep pause in
  ret out.

(** Step 3: geocode and correct addresses.  The records are mutated in
    place; the result is the list as it stands after the loop. *)
Fixpoint geocode_records (pause : float) (records : list value)
  (failures : list text) : IO (list value * list text) :=
  match records with
  | [] => ret ([], failures)
  | rec :: rest =>
      let* (rec', failures') := loop_body pause rec failures in
      let* (rest', failures'') := geocode_records pause rest failures' in
      ret (rec' :: rest', failures'')
  end.

(** Step 4: write the verified file. *)
Definition write_verified (outp : text) (records : list value) : IO unit :=
  let* _ := write_text outp (json_dumps (JArr records)) in
  print ([0x2713%N] ++ lit " Verified data written " ++ [0x279C%N; 32%N] ++ outp).

(** Step 5: re-parse and uniqueness check. *)
Definition reparse_and_check (outp : text) (records : list value) : IO unit :=
  let* _ := load_json outp in
  let* unique := lift (unique_latlon records) in
  if unique : bool
  then print ([0x2713%N] ++ lit " All latitude/longitude pairs are unique")
  else print ([0x26A0%N; 0xFE0F%N] ++ lit "  Duplicate coordinates detected!").

Fixpoint print_each (failures : list text) : IO unit :=
  match failures with
  | [] => ret tt
  | bad :: rest =>
      let* _ := print (lit " " ++ [0x2022%N; 32%N] ++ bad) in print_each rest
  end.

(** Report failures. *)
Definition report (failures : list text) : IO unit :=
  match failures with
  | [] =>
      print ([10%N; 0x2713%N] ++ lit " Every address matched the Census Geocoder API")
  | _ =>
      let* _ := print (10%N :: lit "Addresses NOT found by Census Geocoder:") in
      print_each failures
  end.

(** The f-string of the first line printed. *)
Definition parsed_line (n : nat) : text :=
  [0x2713%N] ++ lit " Parsed " ++ digits (N.of_nat n)
  ++ lit " records " ++ [0x2013%N] ++ lit " JSON syntax OK".

Definition main (args : Args) : IO unit :=
  let inp := input args in
  let outp := output args in
  let* records := load_json inp in
  let* _ := print (parsed_line (length records)) in
  let* (records, failures) := geocode_records (pause args) records [] in
  let* _ := write_verified outp records in
  let* _ := reparse_and_check outp records in
  report failures.

(* =================================================================== *)
(** * What the loop computes, stated apart from the world               *)
(* =================================================================== *)

(** Lines 35 to 42 of [geocode], on the response it received. *)
Definition decode_response (r : Response)
  : result (option (value * float * float)) :=
  rbind (raise_for_status r) (fun _ =>
  rbind (json r) (fun body =>
  rbind (py_get body (lit "result") (JObj [])) (fun res =>
  rbind (py_get res (lit "addressMatches") (JArr [])) (fun matches =>
  if negb (truthy matches) then Ok None
  else
    rbind (getitem0 matches) (fun best =>
    rbind (getitem best (lit "coordinates")) (fun coords =>
    rbind (getitem best (lit "matchedAddress")) (fun std_addr =>
    rbind (getitem coords (lit "y")) (fun y =>
    rbind (py_float y) (fun lat =>
    rbind (getitem coords (lit "x")) (fun x =>
    rbind (py_float x) (fun lon =>
    Ok (Some (std_addr, lat, lon))))))))))))).

(** What [geocode(rec["address"])] returns when it issues request number
    [n] to the service [svc]. *)
Definition call (svc : nat -> text -> result Response) (n : nat) (rec : value)
  : result (option (value * float * float)) :=
  rbind (getitem rec (lit "address")) (fun a =>
  rbind (quote_plus a) (fun q =>
  rbind (svc n (CENSUS_URL q)) decode_response)).

(** The line a record leaves in [failures]. *)
Definition failure_line (rec : value) : text :=
  match getitem rec (lit "state"), getitem rec (lit "address") with
  | Ok st, Ok ad => py_format st ++ lit " | " ++ py_format ad
  | _, _ => []
  end.

(** A record after a match. *)
Definition corrected (rec std_addr : value) (lat lon : float) : value :=
  match rec with
  | JObj d =>
      JObj (dict_set (lit "longitude") (JFloat (py_round lon 6))
             (dict_set (lit "latitude") (JFloat (py_round lat 6))
               (dict_set (lit "address") std_addr d)))
  | _ => rec
  end.

Definition record_after (svc : nat -> text -> result Response) (n : nat)
  (rec : value) : value :=
  match call svc n rec with
  | Ok (Some (std_addr, lat, lon)) => corrected rec std_addr lat lon
  | _ => rec
  end.

Definition failures_of (svc : nat -> text -> result Response) (n : nat)
  (rec : value) : list text :=
  match call svc n rec with
  | Ok None => [failure_line rec]
  | _ => []
  end.

Fixpoint records_after (svc : nat -> text -> result Response) (n : nat)
  (records : list value) : list value :=
  match records with
  | [] => []
  | rec :: rest => record_after svc n rec :: records_after svc (S n) rest
  end.

Fixpoint failures_after (svc : nat -> text -> result Response) (n : nat)
  (records : list value) : list text :=
  match records with
  | [] => []
  | rec :: rest => failures_of svc n rec ++ failures_after svc (S n) rest
  end.

(** A record the loop can process whatever the geocoder answers: an
    object with a [state] and an [address]. *)
Definition is_record (rec : value) : Prop :=
  exists d st ad, rec = JObj d
    /\ dict_lookup (lit "state") d = Some st
    /\ dict_lookup (lit "address") d = Some ad.

(** Two worlds that differ by requests sent and pauses slept only. *)
Definition same_files (w w' : World) : Prop :=
  files w' = files w /\ writable w' = writable w
  /\ service w' = service w /\ stdout w' = stdout w.

(** The world after one more request. *)
Definition log_request (url : text) (w : World) : World :=
  {| files := files w; writable := writable w; service := service w;
     sent := sent w ++ [url]; stdout := stdout w; naps := naps w |}.

(** The world after one more printed line. *)
Definition log_print (t : text) (w : World) : World :=
  {| files := files w; writable := writable w; service := service w;
     sent := sent w; stdout := stdout w ++ [t]; naps := naps w |}.

(** The call for [rec] fails in the network: [requests.get] raises [e],
    or the response comes with an error status, 4xx or 5xx, and [e] is the
    [HTTPError] of [raise_for_status]. *)
Definition call_fails (svc : nat -> text -> result Response) (n : nat)
  (rec : value) (e : exn) : Prop :=
  exists address q,
    getitem rec (lit "address") = Ok address
    /\ quote_plus address = Ok q
    /\ (svc n (CENSUS_URL q) = Raise e
        \/ exists r, svc n (CENSUS_URL q) = Ok r
                     /\ 400 <= status_code r < 600 /\ e = HTTPError).

(** The set of distinct pairs, as the comprehension builds it. *)
Definition add_all (s pairs : list (value * value)) : list (value * value) :=
  fold_left (fun s p => set_add p s) pairs s.



(** The line the uniqueness check prints. *)
Definition uniqueness_line (unique : bool) : text :=
  if unique
  then [0x2713%N] ++ lit " All latitude/longitude pairs are unique"
  else [0x26A0%N; 0xFE0F%N] ++ lit "  Duplicate coordinates detected!".

(** A record with the integer coordinates [(lat, lon)]. *)
Definition record_at (lat lon : Z) : value :=
  JObj [(lit "latitude", JInt lat); (lit "longitude", JInt lon)].

(* =================================================================== *)
(** * Worlds to run the script in                                       *)
(* =================================================================== *)

(** Stand-ins for the two builtins: [float] of a decimal literal, and
    [str] of [None], a [bool] or a number. *)
Definition decimal_float_of_str (s : text) : result float :=
  match scan_number s with
  | Some (JFloat f, []) => Ok f
  | Some (JInt n, []) => float_of_int n
  | _ => Raise (ValueError (lit "could not convert string to float"))
  end.

Definition scalar_str_of (v : value) : text :=
  match v with
  | JNull => lit "None"
  | JBool true => lit "True"
  | JBool false => lit "False"
  | JInt n => int_repr n
  | JFloat f => float_repr f
  | _ => json_dumps v
  end.

(** A response with the given status and body, and one with status 200. *)
Definition answer_with (status : Z) (body : text) : Response :=
  {| status_code := status; json := json_loads body |}.

Definition answer (body : text) : Response := answer_with 200 body.

(** A world with one input file, everything writable, nothing logged. *)
Definition world_with (path content : text)
  (svc : nat -> text -> result Response) : World :=
  {| files := {[ path := content ]}; writable := fun _ => true;
     service := svc; sent := []; stdout := []; naps := [] |}.

(** JSON text, written with an apostrophe where the text has a double
    quote. *)
Definition json_lit (s : string) : text :=
  map (fun c => if (c =? 39)%N then 34%N else c) (lit s).

Definition no_match_body : text :=
  json_lit "{'result': {'addressMatches': []}}".

(** The match of the end-to-end scenario, and one with a seventh decimal. *)
Definition columbus_body : text :=
  json_lit "{'result': {'addressMatches': [{'matchedAddress': 'COLUMBUS, OH', 'coordinates': {'x': -82.998794, 'y': 39.961332}}]}}".

Definition columbus_body_7 : text :=
  json_lit "{'result': {'addressMatches': [{'matchedAddress': 'COLUMBUS, OH', 'coordinates': {'x': -82.9987942, 'y': 39.9613321}}]}}".

Definition null_result_body : text := json_lit "{'result': null}".

Definition ohio_input : text :=
  json_lit "[{'state':'Ohio','address':'Columbus, OH','latitude':0,'longitude':0}]".

Definition ohio : value :=
  JObj [(lit "state", JStr (lit "Ohio")); (lit "address", JStr (lit "Columbus, OH"));
        (lit "latitude", JInt 0); (lit "longitude", JInt 0)].

Definition two_states_input : text :=
  json_lit "[{'state':'Ohio','address':'Columbus, OH','latitude':0,'longitude':0}, {'state':'Utah','address':'Salt Lake City, UT','latitude':0,'longitude':0}]".

Definition utah : value :=
  JObj [(lit "state", JStr (lit "Utah")); (lit "address", JStr (lit "Salt Lake City, UT"));
        (lit "latitude", JInt 0); (lit "longitude", JInt 0)].

(** Services: one that always answers with [body], and one whose second
    call fails in transport. *)
Definition always (body : text) : nat -> text -> result Response :=
  fun _ _ => Ok (answer body).

Definition second_call_fails : nat -> text -> result Response :=
  fun n _ => match n with
             | 1%nat => Raise RequestException
             | _ => Ok (answer no_match_body)
             end.


(** A service whose second answer is [503 Service Unavailable]. *)
Definition second_call_unavailable : nat -> text -> result Response :=
  fun n _ => match n with
             | 1%nat => Ok (answer_with 503 no_match_body)
             | _ => Ok (answer no_match_body)
             end.

(* =================================================================== *)
(** * Values that the encoder writes and the decoder reads back         *)
(* =================================================================== *)

(** A code point of text proper: below 0x110000 and not a surrogate. *)
Definition is_scalar (c : N) : bool :=
  ((c <? 0xD800) || ((0xDFFF <? c) && (c <? 0x110000)))%N.

Definition text_ok (s : text) : bool := forallb is_scalar s.

Fixpoint keys_distinct (d : list (text * value)) : bool :=
  match d with
  | [] => true
  | (k, _) :: d' =>
      negb (existsb (fun kv => bool_decide (fst kv = k)) d') && keys_distinct d'
  end.

Fixpoint value_ok (v : value) : bool :=
  match v with
  | JFloat f => valid_binary prec emax f
  | JStr s => text_ok s
  | JArr l => forallb value_ok l
  | JObj d =>
      keys_distinct d
      && forallb (fun kv => text_ok (fst kv) && value_ok (snd kv)) d
  | _ => true
  end.

(** The encoder's two loops, on their own. *)
Fixpoint encode_items (lvl : nat) (l : list value) : text :=
  match l with
  | [] => []
  | y :: l' => 44%N :: newline_indent lvl ++ encode lvl y ++ encode_items lvl l'
  end.

Fixpoint encode_members (lvl : nat) (l : list (text * value)) : text :=
  match l with
  | [] => []
  | (k, y) :: l' =>
      44%N :: newline_indent lvl ++ encode_string k ++ lit ": "
      ++ encode lvl y ++ encode_members lvl l'
  end.

(** Nested calls the decoder makes on the text of a value. *)
Fixpoint vsize (v : value) : nat :=
  match v with
  | JArr l => S (list_sum (map (fun x => S (vsize x)) l))
  | JObj d => S (list_sum (map (fun kv => S (vsize (snd kv))) d))
  | _ => 1
  end.

(** What may follow a value in the encoder's text: nothing, a comma or a
    newline. *)
Definition delimited (rest : text) : bool :=
  match rest with
  | [] => true
  | c :: _ => ((c =? 44) || (c =? 10))%N
  end.

(** ** The worlds a run goes through *)

(** The URL [geocode] requests for a record. *)
Definition request_url (rec : value) : text :=
  match rbind (getitem rec (lit "address")) quote_plus with
  | Ok q => CENSUS_URL q
  | Raise _ => []
  end.

(** The world after the loop has gone through [records]: one request and
    one pause for each, in their order. *)
Definition after_loop (pause : float) (records : list value) (w : World) : World :=
  {| files := files w; writable := writable w; service := service w;
     sent := sent w ++ map request_url records; stdout := stdout w;
     naps := naps w ++ repeat pause (length records) |}.

(** The world after [path.write_text(t)]. *)
Definition store (path t : text) (w : World) : World :=
  {| files := <[path := t]> (files w); writable := writable w;
     service := service w; sent := sent w; stdout := stdout w; naps := naps w |}.

Definition log_prints (lines : list text) (w : World) : World :=
  fold_left (fun w t => log_print t w) lines w.

(** The line printed after step 4, and the lines of the report. *)
Definition written_line (outp : text) : text :=
  [0x2713%N] ++ lit " Verified data written " ++ [0x279C%N; 32%N] ++ outp.

Definition bullet (bad : text) : text := lit " " ++ [0x2022%N; 32%N] ++ bad.

Definition report_lines (failures : list text) : list text :=
  match failures with
  | [] => [[10%N; 0x2713%N] ++ lit " Every address matched the Census Geocoder API"]
  | _ => (10%N :: lit "Addresses NOT found by Census Geocoder:") :: map bullet failures
  end.

(** A surrogate code point, which UTF-8 cannot encode. *)
Definition is_surrogate (c : N) : bool := ((0xD800 <=? c) && (c <=? 0xDFFF))%N.

(** The characters [quote_plus] writes: letters, digits, [_.-~], [+] and [%]. *)
Definition url_char (c : N) : bool :=
  (always_safe c || (c =? 43) || (c =? 37))%N.

(** No two pairs at different places are equal. *)
Definition pairwise_distinct (pairs : list (value * value)) : Prop :=
  forall i j p q, i <> j -> pairs !! i = Some p -> pairs !! j = Some q ->
    pair_eq p q = false.

(** The fields of a record, in their order. *)
Definition keys (d : dict) : list text := map fst d.

(** Every code point of every string of [v], keys included, is one a
    [str] can hold. *)
Fixpoint in_unicode (v : value) : bool :=
  match v with
  | JStr s => forallb (fun c => c <? 0x110000)%N s
  | JArr l => forallb in_unicode l
  | JObj d =>
      forallb (fun kv => forallb (fun c => c <? 0x110000)%N (fst kv)
                         && in_unicode (snd kv)) d
  | _ => true
  end.

Definition ascii_text (t : text) : Prop := Forall (fun c => (c < 128)%N) t.

(** ** What a run leaves alone *)

(** From [w] to [w'] no file but [outp] has changed, the service and the
    permissions are the same, and what was sent and printed has only
    grown, the requests by URLs of the geocoder. *)
Definition frame (outp : text) (w w' : World) : Prop :=
  (forall p, p <> outp -> files w' !! p = files w !! p)
  /\ writable w' = writable w
  /\ service w' = service w
  /\ (exists urls, sent w' = sent w ++ urls
                   /\ Forall (fun u => exists q, u = CENSUS_URL q) urls)
  /\ (exists lines, stdout w' = stdout w ++ lines).

Definition keeps {A} (outp : text) (c : IO A) : Prop :=
  forall w, frame outp w (snd (c w)).

(** From [w] to [w'], [n] requests have been sent and the pause has been
    slept [k] times. *)
Definition paced (pause : float) (n k : nat) (w w' : World) : Prop :=
  length (sent w') = (length (sent w) + n)%nat
  /\ naps w' = naps w ++ repeat pause k.

(** A computation that neither sends nor sleeps. *)
Definition quiet {A} (c : IO A) : Prop :=
  forall w, sent (snd (c w)) = sent w /\ naps (snd (c w)) = naps w.

(** ** Rounding to decimals, in the words of the specification *)

(** [k] is the integer nearest to the fraction [num / den], and the even
    one where two integers are as near. *)
Definition nearest_even (num den k : Z) : Prop :=
  Z.abs (2 * num - 2 * k * den) <= den
  /\ (Z.abs (2 * num - 2 * k * den) = den -> Z.even k = true).

(** The float nearest to the decimal [k / 10^d], with the sign [s]. *)
Definition decimal_float (s : bool) (k d : Z) : float :=
  match k with
  | Zpos p => float_of_ratio s p (Z.to_pos (10 ^ d))
  | _ => S754_zero s
  end.

(** [y] is [x] rounded to [d] decimal places: the magnitude of [x], which
    is [m * 2^e], is taken to the nearest multiple [k / 10^d] of
    [10^-d], and [y] is the float nearest to that decimal, with the sign
    of [x].  A zero, an infinity and NaN are their own roundings. *)
Definition rounded_to (d : Z) (x y : float) : Prop :=
  match x with
  | S754_finite s m e =>
      exists k,
        nearest_even (Zpos m * 2 ^ Z.max e 0 * 10 ^ d) (2 ^ Z.max (- e) 0) k
        /\ y = decimal_float s k d
  | _ => y = x
  end.

(* =================================================================== *)
(** * Verified properties                                               *)
(* =================================================================== *)

Local Open Scope N_scope.

(** ** The json module: the decoder reads back what the encoder wrote *)

Lemma skip_ws_start c s : is_ws c = false -> skip_ws (c :: s) = c :: s.
Proof. intros H. cbn. rewrite H. reflexivity. Qed.

Lemma skip_ws_spaces n s : skip_ws (repeat 32 n ++ s) = skip_ws s.
Proof. induction n as [|n IH]; [reflexivity|exact IH]. Qed.

Lemma skip_ws_newline_indent lvl s :
  skip_ws (newline_indent lvl ++ s) = skip_ws s.
Proof. unfold newline_indent. cbn. apply skip_ws_spaces. Qed.

Lemma hex_value_lower d : d < 16 -> hex_value (hex_lower d) = Some d.
Proof.
  intros Hd. unfold hex_value, hex_lower, is_digit.
  destruct (d <? 10) eqn:E.
  - apply N.ltb_lt in E.
    replace (48 <=? 48 + d) with true by (symmetry; apply N.leb_le; lia).
    replace (48 + d <=? 57) with true by (symmetry; apply N.leb_le; lia).
    cbn. f_equal. lia.
  - apply N.ltb_ge in E.
    replace (87 + d <=? 57) with false by (symmetry; apply N.leb_gt; lia).
    rewrite andb_false_r.
    replace (97 <=? 87 + d) with true by (symmetry; apply N.leb_le; lia).
    replace (87 + d <=? 102) with true by (symmetry; apply N.leb_le; lia).
    cbn. f_equal. lia.
Qed.

Lemma hex4_u_escape c t :
  c < 0x10000 ->
  exists h1 h2 h3 h4,
    u_escape c ++ t = 92 :: 117 :: h1 :: h2 :: h3 :: h4 :: t
    /\ hex4 h1 h2 h3 h4 = Some c.
Proof.
  intros Hc. unfold u_escape. do 4 eexists. split; [reflexivity|].
  unfold hex4.
  assert (c / 4096 < 16) by (apply N.Div0.div_lt_upper_bound; lia).
  rewrite !hex_value_lower by (try assumption; apply N.mod_lt; lia).
  f_equal.
  pose proof (N.div_mod c 16). pose proof (N.div_mod (c / 16) 16).
  pose proof (N.div_mod (c / 16 / 16) 16).
  rewrite !N.Div0.div_div in *. 
  replace (c / 256 mod 16) with ((c / (16 * 16)) mod 16) by reflexivity.
  replace (c / 4096) with (c / (16 * 16 * 16)) by reflexivity.
  assert (c / (16 * 16 * 16) mod 16 = c / (16 * 16 * 16)) by (apply N.mod_small; assumption).
  lia.
Qed.

Lemma scanstring_plain c t :
  c <> 34 -> c <> 92 -> 32 <= c ->
  scanstring (c :: t) = cons_char c (scanstring t).
Proof.
  intros H1 H2 H3. cbn [scanstring].
  rewrite (proj2 (N.eqb_neq c 34) H1), (proj2 (N.eqb_neq c 92) H2).
  rewrite (proj2 (N.ltb_ge c 32) H3). reflexivity.
Qed.

Lemma scanstring_u h1 h2 h3 h4 uni t :
  hex4 h1 h2 h3 h4 = Some uni ->
  is_high_surrogate uni = false ->
  scanstring (92 :: 117 :: h1 :: h2 :: h3 :: h4 :: t) = cons_char uni (scanstring t).
Proof.
  intros Hh Hs. cbn [scanstring]. cbn [N.eqb Pos.eqb]. rewrite Hh, Hs. reflexivity.
Qed.

Lemma scanstring_pair h1 h2 h3 h4 l1 l2 l3 l4 hi lo t :
  hex4 h1 h2 h3 h4 = Some hi -> is_high_surrogate hi = true ->
  hex4 l1 l2 l3 l4 = Some lo -> is_low_surrogate lo = true ->
  scanstring (92 :: 117 :: h1 :: h2 :: h3 :: h4
              :: 92 :: 117 :: l1 :: l2 :: l3 :: l4 :: t)
  = cons_char (join_surrogates hi lo) (scanstring t).
Proof.
  intros Hh Hhi Hl Hlo. cbn [scanstring]. cbn [N.eqb Pos.eqb].
  rewrite Hh, Hhi, Hl, Hlo. reflexivity.
Qed.

Lemma scanstring_escape_char c t :
  is_scalar c = true ->
  scanstring (escape_char c ++ t) = cons_char c (scanstring t).
Proof.
  intros Hc. unfold escape_char.
  destruct (N.eqb_spec c 34) as [->|H34]; [reflexivity|].
  destruct (N.eqb_spec c 92) as [->|H92]; [reflexivity|].
  destruct (N.eqb_spec c 10) as [->|H10]; [reflexivity|].
  destruct (N.eqb_spec c 13) as [->|H13]; [reflexivity|].
  destruct (N.eqb_spec c 9) as [->|H9]; [reflexivity|].
  destruct (N.eqb_spec c 8) as [->|H8]; [reflexivity|].
  destruct (N.eqb_spec c 12) as [->|H12]; [reflexivity|].
  destruct ((32 <=? c) && (c <=? 126)) eqn:Hp.
  - apply andb_true_iff in Hp as [Hlo _]. apply N.leb_le in Hlo.
    apply scanstring_plain; assumption.
  - unfold is_scalar in Hc.
    destruct (N.ltb_spec c 0x10000) as [Hbmp|Hastral].
    + destruct (hex4_u_escape c t Hbmp) as (h1 & h2 & h3 & h4 & -> & Hh).
      apply scanstring_u; [exact Hh|].
      unfold is_high_surrogate.
      apply orb_true_iff in Hc as [Hc|Hc].
      * apply N.ltb_lt in Hc. apply andb_false_iff. left. apply N.leb_gt. exact Hc.
      * apply andb_true_iff in Hc as [Hc _]. apply N.ltb_lt in Hc.
        apply andb_false_iff. right. apply N.leb_gt. lia.
    + assert (Hmax : c < 0x110000).
      { apply orb_true_iff in Hc as [Hc|Hc].
        - apply N.ltb_lt in Hc. lia.
        - apply andb_true_iff in Hc as [_ Hc]. apply N.ltb_lt in Hc. exact Hc. }
      cbv zeta. set (v := c - 0x10000).
      assert (Hv : v < 0x100000) by (unfold v; lia).
      assert (Hvc : c = 0x10000 + v) by (unfold v; lia).
      clearbody v.
      assert (Hq : v / 1024 < 1024) by (apply N.Div0.div_lt_upper_bound; lia).
      assert (Hr : v mod 1024 < 1024) by (apply N.mod_lt; lia).
      destruct (hex4_u_escape (0xD800 + v / 1024)
                  (u_escape (0xDC00 + v mod 1024) ++ t))
        as (h1 & h2 & h3 & h4 & E1 & Hh); [lia|].
      destruct (hex4_u_escape (0xDC00 + v mod 1024) t)
        as (l1 & l2 & l3 & l4 & E2 & Hl); [lia|].
      rewrite <- app_assoc, E1, E2.
      rewrite (scanstring_pair h1 h2 h3 h4 l1 l2 l3 l4
                 (0xD800 + v / 1024) (0xDC00 + v mod 1024) t Hh).
      * f_equal. unfold join_surrogates.
        pose proof (N.Div0.div_mod v 1024) as Hdm.
        clear Hq Hr.
        generalize dependent (v / 1024). generalize dependent (v mod 1024).
        intros. lia.
      * unfold is_high_surrogate. apply andb_true_iff.
        clear - Hq. generalize dependent (v / 1024). intros.
        split; apply N.leb_le; lia.
      * exact Hl.
      * unfold is_low_surrogate. apply andb_true_iff.
        clear - Hr. generalize dependent (v mod 1024). intros.
        split; apply N.leb_le; lia.
Qed.

Lemma scanstring_encoded s : forall rest,
  text_ok s = true ->
  scanstring (concat (map escape_char s) ++ 34 :: rest) = Some (s, rest).
Proof.
  induction s as [|c s IH]; intros rest Hs; [reflexivity|].
  cbn [text_ok forallb] in Hs. apply andb_true_iff in Hs as [Hc Hs].
  cbn [map concat]. rewrite <- app_assoc, scanstring_escape_char by exact Hc.
  rewrite (IH rest Hs). reflexivity.
Qed.

Lemma encode_string_app s rest :
  encode_string s ++ rest = 34 :: concat (map escape_char s) ++ 34 :: rest.
Proof. unfold encode_string. cbn. rewrite <- app_assoc. reflexivity. Qed.

(** *** Numbers *)

Lemma delimited_head c rest :
  delimited (c :: rest) = true -> c = 44 \/ c = 10.
Proof.
  cbn. intros H. apply orb_true_iff in H as [H|H]; apply N.eqb_eq in H; auto.
Qed.

Lemma span_digits_all ds rest :
  Forall (fun c => is_digit c = true) ds ->
  delimited rest = true ->
  span_digits (ds ++ rest) = (ds, rest).
Proof.
  intros Hds Hrest. induction Hds as [|c ds Hc _ IH]; cbn [app span_digits].
  - destruct rest as [|c rest]; [reflexivity|].
    destruct (delimited_head c rest Hrest) as [-> | ->]; reflexivity.
  - rewrite Hc, IH. reflexivity.
Qed.

Lemma span_digits_app s : forall ds r rest,
  delimited rest = true ->
  span_digits s = (ds, r) ->
  span_digits (s ++ rest) = (ds, r ++ rest).
Proof.
  induction s as [|c s IH]; intros ds r rest Hrest Hs; cbn [app span_digits] in *.
  - injection Hs as <- <-. destruct rest as [|c rest]; [reflexivity|].
    destruct (delimited_head c rest Hrest) as [-> | ->]; reflexivity.
  - destruct (is_digit c).
    + destruct (span_digits s) as [ds' r'] eqn:E. injection Hs as <- <-.
      rewrite (IH ds' r' rest Hrest eq_refl). reflexivity.
    + injection Hs as <- <-. reflexivity.
Qed.

Lemma number_of_digits_snoc ds d :
  number_of_digits (ds ++ [d]) = 10 * number_of_digits ds + (d - 48).
Proof. unfold number_of_digits. rewrite fold_left_app. reflexivity. Qed.

Lemma is_digit_char d : d < 10 -> is_digit (48 + d) = true.
Proof.
  intros Hd. unfold is_digit. apply andb_true_iff. split; apply N.leb_le; lia.
Qed.

Lemma digits_fuel_S fuel n :
  digits_fuel (S fuel) n
  = if n <? 10 then [48 + n] else digits_fuel fuel (n / 10) ++ [48 + n mod 10].
Proof. reflexivity. Qed.

Lemma digits_fuel_spec fuel : forall n,
  n < 10 ^ N.of_nat (S fuel) ->
  exists c t,
    digits_fuel (S fuel) n = c :: t
    /\ Forall (fun c => is_digit c = true) (c :: t)
    /\ (0 < n -> c <> 48)
    /\ number_of_digits (c :: t) = n.
Proof.
  induction fuel as [|fuel IH]; intros n Hn; rewrite digits_fuel_S.
  - replace (10 ^ N.of_nat 1) with 10 in Hn by reflexivity.
    rewrite (proj2 (N.ltb_lt n 10) Hn).
    exists (48 + n), []. split; [reflexivity|]. split; [|split].
    + constructor; [|constructor]. apply is_digit_char. exact Hn.
    + lia.
    + unfold number_of_digits. cbn [fold_left]. lia.
  - destruct (N.ltb_spec n 10) as [Hsmall|Hbig].
    + exists (48 + n), []. split; [reflexivity|]. split; [|split].
      * constructor; [|constructor]. apply is_digit_char. exact Hsmall.
      * lia.
      * unfold number_of_digits. cbn [fold_left]. lia.
    + assert (Hq : n / 10 < 10 ^ N.of_nat (S fuel)).
      { apply N.Div0.div_lt_upper_bound.
        replace (N.of_nat (S (S fuel))) with (N.succ (N.of_nat (S fuel))) in Hn by lia.
        rewrite N.pow_succ_r' in Hn. exact Hn. }
      destruct (IH (n / 10) Hq) as (c & t & E & Hall & Hnz & Hval).
      rewrite E. exists c, (t ++ [48 + n mod 10]).
      split; [reflexivity|]. split; [|split].
      * change (c :: t ++ [48 + n mod 10]) with ((c :: t) ++ [48 + n mod 10]).
        apply Forall_app. split; [exact Hall|].
        constructor; [|constructor]. apply is_digit_char.
        apply N.mod_lt. discriminate.
      * intros _. apply Hnz. apply N.div_str_pos. lia.
      * change (c :: t ++ [48 + n mod 10]) with ((c :: t) ++ [48 + n mod 10]).
        rewrite number_of_digits_snoc, Hval.
        pose proof (N.Div0.div_mod n 10) as Hdm. clear - Hdm.
        generalize dependent (n / 10). generalize dependent (n mod 10).
        intros. lia.
Qed.

Lemma digits_spec n :
  exists c t,
    digits n = c :: t
    /\ Forall (fun c => is_digit c = true) (c :: t)
    /\ (0 < n -> c <> 48)
    /\ number_of_digits (c :: t) = n.
Proof.
  apply digits_fuel_spec.
  destruct (N.eq_dec n 0) as [->|Hn]; [reflexivity|].
  destruct (N.log2_spec n) as [_ Hlt]; [lia|].
  eapply N.lt_le_trans; [exact Hlt|].
  replace (N.of_nat (S (N.to_nat (N.log2 n)))) with (N.succ (N.log2 n)) by lia.
  apply N.pow_le_mono_l. lia.
Qed.

Lemma scan_frac_delimited rest : delimited rest = true -> scan_frac rest = None.
Proof.
  destruct rest as [|c rest]; [reflexivity|]. intros H.
  destruct (delimited_head c rest H) as [-> | ->]; reflexivity.
Qed.

Lemma scan_exp_delimited rest : delimited rest = true -> scan_exp rest = None.
Proof.
  destruct rest as [|c rest]; [reflexivity|]. intros H.
  destruct (delimited_head c rest H) as [-> | ->]; reflexivity.
Qed.

Lemma scan_sign_delimited rest : delimited rest = true -> scan_sign rest = (false, rest).
Proof.
  destruct rest as [|c rest]; [reflexivity|]. intros H.
  destruct (delimited_head c rest H) as [-> | ->]; reflexivity.
Qed.

Lemma scan_frac_app s rest :
  delimited rest = true ->
  scan_frac (s ++ rest)
  = match scan_frac s with
    | Some (fs, r) => Some (fs, r ++ rest)
    | None => None
    end.
Proof.
  intros Hrest. destruct s as [|c s]; [exact (scan_frac_delimited rest Hrest)|].
  cbn [app scan_frac]. destruct (c =? 46); [|reflexivity].
  destruct (span_digits s) as [ds r] eqn:E.
  rewrite (span_digits_app s ds r rest Hrest E). destruct ds; reflexivity.
Qed.

Lemma scan_sign_app s rest :
  delimited rest = true ->
  scan_sign (s ++ rest) = (fst (scan_sign s), snd (scan_sign s) ++ rest).
Proof.
  intros Hrest. destruct s as [|c s]; [exact (scan_sign_delimited rest Hrest)|].
  cbn [app scan_sign]. destruct (c =? 43); [reflexivity|].
  destruct (c =? 45); reflexivity.
Qed.

Lemma scan_exp_app s rest :
  delimited rest = true ->
  scan_exp (s ++ rest)
  = match scan_exp s with
    | Some (e, r) => Some (e, r ++ rest)
    | None => None
    end.
Proof.
  intros Hrest. destruct s as [|c s]; [exact (scan_exp_delimited rest Hrest)|].
  cbn [app scan_exp]. destruct ((c =? 101) || (c =? 69)); [|reflexivity].
  rewrite (scan_sign_app s rest Hrest).
  destruct (scan_sign s) as [neg s'']. cbn [fst snd].
  destruct (span_digits s'') as [ds r] eqn:E.
  rewrite (span_digits_app s'' ds r rest Hrest E). destruct ds; reflexivity.
Qed.

Lemma number_tail_app neg ints r1 rest :
  delimited rest = true ->
  number_tail neg ints (r1 ++ rest)
  = (fst (number_tail neg ints r1), snd (number_tail neg ints r1) ++ rest).
Proof.
  intros Hrest. unfold number_tail.
  rewrite (scan_frac_app r1 rest Hrest).
  destruct (scan_frac r1) as [[fs r]|].
  - rewrite (scan_exp_app r rest Hrest).
    destruct (scan_exp r) as [[e r']|]; reflexivity.
  - rewrite (scan_exp_app r1 rest Hrest).
    destruct (scan_exp r1) as [[e r']|]; reflexivity.
Qed.

Lemma scan_number_app s v r rest :
  delimited rest = true ->
  scan_number s = Some (v, r) ->
  scan_number (s ++ rest) = Some (v, r ++ rest).
Proof.
  intros Hrest. unfold scan_number.
  assert (Hminus : s <> [] ->
            scan_minus (s ++ rest) = (fst (scan_minus s), snd (scan_minus s) ++ rest)).
  { destruct s as [|c s]; [congruence|]. intros _. cbn [app scan_minus].
    destruct (c =? 45); reflexivity. }
  destruct s as [|c s]; [discriminate|].
  rewrite Hminus by discriminate.
  destruct (scan_minus (c :: s)) as [neg s1]. cbn [fst snd].
  destruct s1 as [|d s2]; [discriminate|]. cbn [app].
  destruct (is_digit d); [|discriminate].
  destruct (d =? 48).
  - rewrite (number_tail_app neg [d] s2 rest Hrest).
    destruct (number_tail neg [d] s2) as [v' r']. intros [= <- <-]. reflexivity.
  - change (d :: s2 ++ rest) with ((d :: s2) ++ rest).
    destruct (span_digits (d :: s2)) as [ints r1] eqn:E.
    rewrite (span_digits_app (d :: s2) ints r1 rest Hrest E).
    rewrite (number_tail_app neg ints r1 rest Hrest).
    destruct (number_tail neg ints r1) as [v' r']. intros [= <- <-]. reflexivity.
Qed.

Lemma is_digit_bounds c : is_digit c = true -> 48 <= c <= 57.
Proof.
  unfold is_digit. intros H. apply andb_true_iff in H as [H1 H2].
  apply N.leb_le in H1, H2. lia.
Qed.

Lemma scan_number_int z rest :
  delimited rest = true ->
  scan_number (int_repr z ++ rest) = Some (JInt z, rest).
Proof.
  intros Hrest.
  assert (Hpos : forall neg n, 0 < n ->
            scan_number ((if neg : bool then [45] else []) ++ digits n ++ rest)
            = Some (JInt (cond_Zopp neg (Z.of_N n)), rest)).
  { intros neg n Hn. destruct (digits_spec n) as (c & t & -> & Hall & Hnz & Hval).
    pose proof (is_digit_bounds c (Forall_inv Hall)) as Hc.
    specialize (Hnz Hn).
    assert (E : scan_number ((c :: t) ++ rest)
                = Some (JInt (Z.of_N n), rest) /\
                scan_minus ((c :: t) ++ rest) = (false, (c :: t) ++ rest)).
    { unfold scan_number. cbn [app scan_minus].
      replace (c =? 45) with false by (symmetry; apply N.eqb_neq; lia).
      rewrite (Forall_inv Hall).
      replace (c =? 48) with false by (symmetry; apply N.eqb_neq; exact Hnz).
      change (c :: t ++ rest) with ((c :: t) ++ rest).
      rewrite (span_digits_all (c :: t) rest Hall Hrest).
      unfold number_tail.
      rewrite (scan_frac_delimited rest Hrest), (scan_exp_delimited rest Hrest), Hval.
      auto. }
    destruct neg; [|exact (proj1 E)].
    unfold scan_number in *. cbn [app scan_minus N.eqb Pos.eqb].
    destruct E as [E Em]. rewrite Em in E.
    cbn [app] in E |- *. destruct (is_digit c); [|discriminate].
    destruct (c =? 48).
    - injection E as E. f_equal. unfold number_tail in *.
      destruct (scan_frac (t ++ rest)) as [[fs r]|];
        destruct (scan_exp _) as [[e r']|]; try discriminate;
        injection E as E1 E2; subst; rewrite ?E1; try reflexivity.
      all: cbn [cond_Zopp] in *; congruence.
    - destruct (span_digits (c :: t ++ rest)) as [ints r1].
      injection E as E. f_equal. unfold number_tail in *.
      destruct (scan_frac r1) as [[fs r]|];
        destruct (scan_exp _) as [[e r']|]; try discriminate;
        injection E as E1 E2; subst; try reflexivity.
      cbn [cond_Zopp] in *. congruence. }
  destruct z as [|p|p].
  - cbn [int_repr Z.to_N]. change (digits 0) with [48].
    unfold scan_number. cbn [app scan_minus N.eqb Pos.eqb is_digit].
    cbn. unfold number_tail.
    rewrite (scan_frac_delimited rest Hrest), (scan_exp_delimited rest Hrest).
    reflexivity.
  - exact (Hpos false (Npos p) eq_refl).
  - exact (Hpos true (Npos p) eq_refl).
Qed.

(** *** Atoms *)

Lemma parse_value_atom n c s :
  c <> 34 -> c <> 123 -> c <> 91 ->
  parse_value (S n) (c :: s) = scan_atom (c :: s).
Proof.
  intros H1 H2 H3. cbn [parse_value].
  rewrite (proj2 (N.eqb_neq c 34) H1), (proj2 (N.eqb_neq c 123) H2).
  rewrite (proj2 (N.eqb_neq c 91) H3). reflexivity.
Qed.

Lemma strip_prefix_head_ne a p c s :
  a <> c -> strip_prefix (a :: p) (c :: s) = None.
Proof. intros H. cbn. rewrite (proj2 (N.eqb_neq a c) H). reflexivity. Qed.

Lemma scan_atom_number c s vr :
  is_digit c = true \/ c = 45 ->
  scan_number (c :: s) = Some vr ->
  scan_atom (c :: s) = Some vr.
Proof.
  intros Hc Hnum.
  assert (Hrange : c <= 57).
  { destruct Hc as [Hc| ->]; [apply is_digit_bounds in Hc|]; lia. }
  unfold scan_atom.
  change (lit "null") with (110 :: lit "ull").
  change (lit "true") with (116 :: lit "rue").
  change (lit "false") with (102 :: lit "alse").
  rewrite !strip_prefix_head_ne by lia.
  rewrite Hnum. reflexivity.
Qed.

Lemma float_eqb_eq f g : float_eqb f g = true -> f = g.
Proof.
  destruct f, g; cbn; try discriminate; intros H.
  - apply eqb_prop in H. congruence.
  - apply eqb_prop in H. congruence.
  - reflexivity.
  - apply andb_true_iff in H as [H He]. apply andb_true_iff in H as [Hs Hm].
    apply eqb_prop in Hs. apply Pos.eqb_eq in Hm. apply Z.eqb_eq in He. congruence.
Qed.

Lemma int_repr_head z :
  exists c t, int_repr z = c :: t /\ (is_digit c = true \/ c = 45).
Proof.
  destruct z as [|p|p].
  - exists 48, []. split; [reflexivity|left; reflexivity].
  - cbn [int_repr Z.to_N]. destruct (digits_spec (Npos p)) as (c & t & -> & Hall & _).
    exists c, t. split; [reflexivity|left; exact (Forall_inv Hall)].
  - cbn [int_repr]. eexists 45, _. split; [reflexivity|right; reflexivity].
Qed.

Local Close Scope N_scope.

(** ** Floats: a decimal that is a float exactly reads as that float *)

Lemma iter_pos_nat {A} (f : A -> A) p : forall x,
  SpecFloat.iter_pos f p x = Nat.iter (Pos.to_nat p) f x.
Proof.
  induction p as [p IH|p IH|]; intros x; cbn [SpecFloat.iter_pos].
  - rewrite !IH, Pos2Nat.inj_xI.
    replace (S (2 * Pos.to_nat p)) with (Pos.to_nat p + (Pos.to_nat p + 1))%nat by lia.
    rewrite !Nat.iter_add. reflexivity.
  - rewrite !IH, Pos2Nat.inj_xO.
    replace (2 * Pos.to_nat p)%nat with (Pos.to_nat p + Pos.to_nat p)%nat by lia.
    rewrite Nat.iter_add. reflexivity.
  - reflexivity.
Qed.

Lemma shr_1_double q :
  shr_1 {| shr_m := Zpos q~0; shr_r := false; shr_s := false |}
  = {| shr_m := Zpos q; shr_r := false; shr_s := false |}.
Proof. reflexivity. Qed.

Lemma iter_xO_pow n : forall m,
  Zpos (Nat.iter n xO m) = Zpos m * 2 ^ Z.of_nat n.
Proof.
  induction n as [|n IH]; intros m.
  - cbn. lia.
  - change (Nat.iter (S n) xO m) with (xO (Nat.iter n xO m)).
    rewrite Pos2Z.inj_xO, IH, Nat2Z.inj_succ, Z.pow_succ_r by lia. lia.
Qed.

Lemma iter_shr_1_exact n : forall m,
  Nat.iter n shr_1 {| shr_m := Zpos (Nat.iter n xO m); shr_r := false; shr_s := false |}
  = {| shr_m := Zpos m; shr_r := false; shr_s := false |}.
Proof.
  induction n as [|n IH]; intros m; [reflexivity|].
  rewrite Nat.iter_succ_r.
  change (Nat.iter (S n) xO m) with (xO (Nat.iter n xO m)).
  rewrite shr_1_double. apply IH.
Qed.

(** Shifting an exact multiple of [2^n] right by [n] places. *)
Lemma shr_exact m n e :
  0 <= n ->
  shr {| shr_m := Zpos m * 2 ^ n; shr_r := false; shr_s := false |} e n
  = ({| shr_m := Zpos m; shr_r := false; shr_s := false |}, e + n).
Proof.
  intros Hn. destruct n as [|p|p]; [| |lia].
  - cbn [shr]. rewrite Z.pow_0_r, Z.mul_1_r, Z.add_0_r. reflexivity.
  - cbn [shr]. rewrite iter_pos_nat.
    rewrite <- (positive_nat_Z p), <- iter_xO_pow, iter_shr_1_exact.
    reflexivity.
Qed.

Lemma digits2_log2 p : Zpos (digits2_pos p) = Z.log2 (Zpos p) + 1.
Proof.
  assert (Hsize : forall q, digits2_pos q = Pos.size q).
  { induction q as [q IH|q IH|]; cbn; rewrite ?IH; reflexivity. }
  rewrite Hsize. destruct p as [p|p|]; cbn [Z.log2 Pos.size]; lia.
Qed.

Lemma Zdigits2_mul_pow2 m n :
  0 <= n -> Zdigits2 (Zpos m * 2 ^ n) = Zpos (digits2_pos m) + n.
Proof.
  intros Hn.
  assert (Hpos : 0 < Zpos m * 2 ^ n) by (apply Z.mul_pos_pos; [lia|apply Z.pow_pos_nonneg; lia]).
  destruct (Zpos m * 2 ^ n) as [|q|q] eqn:E; try lia.
  cbn [Zdigits2]. rewrite !digits2_log2, <- E, Z.log2_mul_pow2 by lia. lia.
Qed.

Lemma bounded_canonical m e :
  bounded prec emax m e = true ->
  fexp prec emax (Zpos (digits2_pos m) + e) = e /\ e <= emax - prec.
Proof.
  unfold bounded, canonical_mantissa. intros H.
  apply andb_true_iff in H as [H1 H2].
  apply Z.eqb_eq in H1. apply Z.leb_le in H2. auto.
Qed.

(** Rounding a mantissa that is [m] shifted left by [n] places gives back
    the float [(m, e)]. *)
Lemma binary_round_aux_exact s m e n :
  bounded prec emax m e = true ->
  0 <= n ->
  binary_round_aux prec emax s (Zpos m * 2 ^ n) (e - n) loc_Exact
  = S754_finite s m e.
Proof.
  intros Hb Hn. destruct (bounded_canonical m e Hb) as [Hcan Hmax].
  unfold binary_round_aux, shr_fexp.
  rewrite (Zdigits2_mul_pow2 m n Hn).
  replace (Zpos (digits2_pos m) + n + (e - n)) with (Zpos (digits2_pos m) + e) by lia.
  rewrite Hcan. replace (e - (e - n)) with n by lia.
  cbn [shr_record_of_loc]. rewrite (shr_exact m n (e - n) Hn).
  cbn [shr_m loc_of_shr_record round_nearest_even Zdigits2].
  replace (e - n + n) with e by lia.
  rewrite Hcan, Z.sub_diag. cbn [shr shr_m].
  rewrite (proj2 (Z.leb_le e (emax - prec)) Hmax). reflexivity.
Qed.

Lemma float_of_decimal_exact_int s m e p :
  bounded prec emax m e = true ->
  0 <= e ->
  Zpos p = Zpos m * 2 ^ e ->
  float_of_decimal s (Npos p) 0 = S754_finite s m e.
Proof.
  intros Hb He Hp. destruct (bounded_canonical m e Hb) as [Hcan _].
  unfold float_of_decimal. cbn [Z.leb Z.compare Z.pow]. rewrite Z.mul_1_r.
  assert (Hround : forall sx, binary_round prec emax sx p 0 = S754_finite sx m e).
  { intros sx. unfold binary_round.
    assert (Hd : Zpos (digits2_pos p) = Zpos (digits2_pos m) + e).
    { pose proof (Zdigits2_mul_pow2 m e He) as H. rewrite <- Hp in H. exact H. }
    rewrite Hd, Z.add_0_r, Hcan. unfold shl_align.
    destruct (e - 0) as [|q|q] eqn:E; try lia;
      rewrite Hp; replace 0 with (e - e) at 1 by lia;
      apply binary_round_aux_exact; assumption. }
  destruct s; cbn [cond_Zopp Z.opp binary_normalize]; apply Hround.
Qed.

Lemma new_location_zero n : new_location n 0 = loc_Exact.
Proof.
  unfold new_location, new_location_even, new_location_odd.
  destruct (Z.even n); reflexivity.
Qed.

Lemma Zdigits2_log2 z : 0 < z -> Zdigits2 z = Z.log2 z + 1.
Proof.
  destruct z as [|t|t]; try lia. intros _. cbn [Zdigits2]. apply digits2_log2.
Qed.

Lemma float_of_decimal_exact_frac s m e p :
  bounded prec emax m e = true ->
  e < 0 ->
  Zpos p = Zpos m * 5 ^ (- e) ->
  float_of_decimal s (Npos p) e = S754_finite s m e.
Proof.
  intros Hb He Hp. destruct (bounded_canonical m e Hb) as [Hcan Hmax].
  unfold float_of_decimal. rewrite (proj2 (Z.leb_gt 0 e) He).
  set (k := - e). assert (Hk : 0 < k) by (unfold k; lia).
  assert (Hten : Zpos (Z.to_pos (10 ^ k)) = 10 ^ k).
  { apply Z2Pos.id. apply Z.pow_pos_nonneg; lia. }
  assert (Hsplit : 10 ^ k = 5 ^ k * 2 ^ k).
  { replace 10 with (5 * 2) by reflexivity. apply Z.pow_mul_l. }
  assert (H5 : 0 < 5 ^ k) by (apply Z.pow_pos_nonneg; lia).
  unfold float_of_ratio, SFdiv, SFdiv_core_binary.
  rewrite Hten. rewrite !Z.add_0_r, Z.sub_diag.
  change (Zdigits2 (Zpos p)) with (Zpos (digits2_pos p)).
  (* the digit counts *)
  assert (Hd : Zpos (digits2_pos p) - Zdigits2 (10 ^ k)
               <= Zpos (digits2_pos m) + e).
  { assert (H10 : 0 < 10 ^ k) by lia.
    rewrite (Zdigits2_log2 (10 ^ k) H10).
    rewrite digits2_log2, Hp, Hsplit.
    rewrite Z.log2_mul_pow2 by lia.
    pose proof (Z.log2_mul_above (Zpos m) (5 ^ k)) as Habove.
    rewrite (digits2_log2 m). unfold k in *. lia. }
  set (e' := Z.min (fexp prec emax (Zpos (digits2_pos p) - Zdigits2 (10 ^ k))) 0).
  assert (He' : e' <= e).
  { unfold e'. unfold fexp in *. lia. }
  set (j := e - e'). assert (Hj : 0 <= j) by (unfold j; lia).
  replace (0 - e') with (k + j) by (unfold j, k; lia).
  assert (Hshift : Z.shiftl (Zpos p) (k + j) = (Zpos m * 2 ^ j) * 10 ^ k).
  { rewrite Z.shiftl_mul_pow2 by lia. rewrite Hp, Hsplit, Z.pow_add_r by lia.
    fold k. ring. }
  revert Hshift. destruct (k + j) as [|q|q] eqn:Ekj; try lia. intros Hshift.
  rewrite Hshift.
  assert (Hdiv : Z.div_eucl (Zpos m * 2 ^ j * 10 ^ k) (10 ^ k) = (Zpos m * 2 ^ j, 0)).
  { assert (Hnz : 10 ^ k <> 0) by lia.
    pose proof (Z.div_mul (Zpos m * 2 ^ j) (10 ^ k) Hnz) as Hq.
    pose proof (Z.mod_mul (Zpos m * 2 ^ j) (10 ^ k) Hnz) as Hr.
    unfold Z.div, Z.modulo in Hq, Hr.
    destruct (Z.div_eucl (Zpos m * 2 ^ j * 10 ^ k) (10 ^ k)) as [q0 r0].
    congruence. }
  change IntDef.Z.div_eucl with Z.div_eucl.
  rewrite Hdiv, new_location_zero, xorb_false_r.
  replace e' with (e - j) by (unfold j; lia).
  apply binary_round_aux_exact; assumption.
Qed.

(** *** The exact decimal reads back *)

Lemma span_digits_stop ds c rest :
  Forall (fun c => is_digit c = true) ds ->
  is_digit c = false ->
  span_digits (ds ++ c :: rest) = (ds, c :: rest).
Proof.
  intros Hds Hc. induction Hds as [|d ds Hd _ IH]; cbn [app span_digits].
  - rewrite Hc. reflexivity.
  - rewrite Hd, IH. reflexivity.
Qed.

Lemma span_digits_end ds :
  Forall (fun c => is_digit c = true) ds -> span_digits ds = (ds, []).
Proof.
  intros Hds. induction Hds as [|d ds Hd _ IH]; cbn [span_digits]; [reflexivity|].
  rewrite Hd, IH. reflexivity.
Qed.

Lemma scan_number_scientific s d r e10 :
  (0 < d)%N ->
  scan_exp (101%N :: r) = Some (e10, []) ->
  scan_number (sign_text s ++ digits d ++ 101%N :: r)
  = Some (JFloat (float_of_decimal s d e10), []).
Proof.
  intros Hd Hexp.
  destruct (digits_spec d) as (c & t & E & Hall & Hnz & Hval).
  specialize (Hnz Hd). rewrite E.
  pose proof (is_digit_bounds c (Forall_inv Hall)) as Hc.
  assert (Hminus : scan_minus (sign_text s ++ (c :: t) ++ 101%N :: r)
                   = (s, (c :: t) ++ 101%N :: r)).
  { destruct s; cbn [sign_text app scan_minus]; [reflexivity|].
    rewrite (proj2 (N.eqb_neq c 45)) by lia. reflexivity. }
  unfold scan_number. rewrite Hminus. cbn [app].
  rewrite (Forall_inv Hall), (proj2 (N.eqb_neq c 48) Hnz).
  change (c :: t ++ 101%N :: r) with ((c :: t) ++ 101%N :: r).
  rewrite (span_digits_stop (c :: t) 101%N r Hall eq_refl).
  unfold number_tail. cbn [scan_frac N.eqb Pos.eqb]. rewrite Hexp.
  rewrite app_nil_r, Hval. cbn [length Z.of_nat]. rewrite Z.sub_0_r. reflexivity.
Qed.

Lemma scientific_head s d r :
  exists c t, sign_text s ++ digits d ++ r = c :: t
    /\ is_digit c || (c =? 45)%N = true.
Proof.
  destruct s; cbn [sign_text app].
  - eexists _, _. split; reflexivity.
  - destruct (digits_spec d) as (c & t & E & Hall & _). rewrite E.
    eexists _, _. split; [reflexivity|]. rewrite (Forall_inv Hall). reflexivity.
Qed.

Lemma float_eqb_refl f : float_eqb f f = true.
Proof.
  destruct f as [s|s| |s m e]; cbn; try reflexivity; try apply eqb_reflx.
  rewrite eqb_reflx, Pos.eqb_refl, Z.eqb_refl. reflexivity.
Qed.

Lemma reads_back_intro f t c t' :
  t = c :: t' ->
  is_digit c || (c =? 45)%N = true ->
  scan_number t = Some (JFloat f, []) ->
  reads_back f t = true.
Proof.
  intros Ht Hh Hs. unfold reads_back. rewrite Hs, float_eqb_refl.
  rewrite Ht, Hh. reflexivity.
Qed.

Lemma scan_exp_negative k :
  (0 < k)%N ->
  scan_exp (101%N :: 45%N :: digits k) = Some (- Z.of_N k, []).
Proof.
  intros Hk. destruct (digits_spec k) as (c & t & E & Hall & _ & Hval).
  cbn [scan_exp N.eqb Pos.eqb orb scan_sign]. rewrite E.
  rewrite (span_digits_end (c :: t) Hall), Hval. reflexivity.
Qed.

Lemma exact_text_reads_back s m e :
  bounded prec emax m e = true ->
  reads_back (S754_finite s m e) (exact_text s m e) = true.
Proof.
  intros Hb. unfold exact_text.
  destruct (Z.leb_spec 0 e) as [He|He].
  - assert (Hpos : 0 < Zpos m * 2 ^ e) by (apply Z.mul_pos_pos; lia).
    destruct (Zpos m * 2 ^ e) as [|p|p] eqn:Ep; try lia.
    change (Z.to_N (Zpos p)) with (Npos p).
    change (lit "e0") with [101%N; 48%N].
    destruct (scientific_head s (Npos p) [101%N; 48%N]) as (c & t & Et & Hh).
    apply (reads_back_intro _ _ c t Et Hh).
    rewrite (scan_number_scientific s (Npos p) [48%N] 0); [|reflexivity|reflexivity].
    rewrite (float_of_decimal_exact_int s m e p Hb He); [reflexivity|].
    symmetry. exact Ep.
  - assert (Hpos : 0 < Zpos m * 5 ^ (- e)) by (apply Z.mul_pos_pos; lia).
    destruct (Zpos m * 5 ^ (- e)) as [|p|p] eqn:Ep; try lia.
    change (Z.to_N (Zpos p)) with (Npos p).
    change (lit "e-") with [101%N; 45%N]. cbn [app].
    destruct (scientific_head s (Npos p) (101%N :: 45%N :: digits (Z.to_N (- e))))
      as (c & t & Et & Hh).
    apply (reads_back_intro _ _ c t Et Hh).
    rewrite (scan_number_scientific s (Npos p) (45%N :: digits (Z.to_N (- e))) e).
    + rewrite (float_of_decimal_exact_frac s m e p Hb He); [reflexivity|].
      symmetry. exact Ep.
    + reflexivity.
    + rewrite scan_exp_negative by lia. f_equal. f_equal. lia.
Qed.

Lemma shortest_from_reads_back fuel s m e k : forall n t,
  shortest_from fuel s m e k n = Some t ->
  reads_back (S754_finite s m e) t = true.
Proof.
  induction fuel as [|fuel IH]; intros n t; cbn [shortest_from]; [discriminate|].
  destruct (candidates m e k n) as [near other].
  destruct (reads_back _ (candidate_text s near (k - n))) eqn:E1.
  { intros [= <-]. exact E1. }
  destruct (reads_back _ (candidate_text s other (k - n))) eqn:E2.
  { intros [= <-]. exact E2. }
  apply IH.
Qed.

(** [repr] of a finite float reads back as that float. *)
Lemma float_repr_reads_back s m e :
  bounded prec emax m e = true ->
  reads_back (S754_finite s m e) (float_repr (S754_finite s m e)) = true.
Proof.
  intros Hb. cbn [float_repr].
  destruct (shortest_from 17 s m e (decpt_of m e) 1) as [t|] eqn:E.
  - exact (shortest_from_reads_back _ _ _ _ _ _ _ E).
  - exact (exact_text_reads_back s m e Hb).
Qed.

Local Open Scope N_scope.

Lemma floatstr_head f :
  valid_binary prec emax f = true ->
  exists c t, floatstr f = c :: t
    /\ (is_digit c = true \/ c = 45 \/ c = 78 \/ c = 73).
Proof.
  destruct f as [s|s| |s m e]; intros Hok.
  - destruct s; eexists _, _; (split; [reflexivity|]); cbn; auto.
  - destruct s; eexists _, _; (split; [reflexivity|]); cbn; auto.
  - eexists _, _; (split; [reflexivity|]); cbn; auto.
  - apply (float_repr_reads_back s m e) in Hok.
    unfold reads_back in Hok. apply andb_true_iff in Hok as [Hhead _].
    change (floatstr (S754_finite s m e)) with (float_repr (S754_finite s m e)).
    destruct (float_repr (S754_finite s m e)) as [|c t]; [discriminate|].
    exists c, t. split; [reflexivity|].
    apply orb_true_iff in Hhead as [H|H]; [auto|].
    apply N.eqb_eq in H. auto.
Qed.

Lemma parse_float n f rest :
  valid_binary prec emax f = true ->
  delimited rest = true ->
  parse_value (S n) (floatstr f ++ rest) = Some (JFloat f, rest).
Proof.
  intros Hok Hrest.
  destruct f as [s|s| |s m e].
  - assert (E : scan_number (floatstr (S754_zero s)) = Some (JFloat (S754_zero s), []))
      by (destruct s; reflexivity).
    apply (scan_number_app _ _ _ rest Hrest) in E.
    destruct s; cbn [floatstr float_repr sign_text app lit] in *;
      (rewrite parse_value_atom by discriminate);
      apply scan_atom_number; auto; exact E.
  - destruct s; reflexivity.
  - reflexivity.
  - apply (float_repr_reads_back s m e) in Hok.
    unfold reads_back in Hok. apply andb_true_iff in Hok as [Hhead Hscan].
    change (floatstr (S754_finite s m e)) with (float_repr (S754_finite s m e)).
    destruct (scan_number (float_repr (S754_finite s m e)))
      as [[[| | |g| | |] [|]]|] eqn:E; try discriminate.
    apply float_eqb_eq in Hscan. subst g.
    apply (scan_number_app _ _ _ rest Hrest) in E.
    destruct (float_repr (S754_finite s m e)) as [|c t]; [discriminate|].
    cbn [app] in *.
    assert (Hc : is_digit c = true \/ c = 45).
    { apply orb_true_iff in Hhead as [H|H]; [auto|]. apply N.eqb_eq in H. auto. }
    assert (45 <= c <= 57).
    { destruct Hc as [Hc| ->]; [apply is_digit_bounds in Hc|]; lia. }
    rewrite parse_value_atom by lia.
    apply scan_atom_number; assumption.
Qed.

Lemma parse_int n z rest :
  delimited rest = true ->
  parse_value (S n) (int_repr z ++ rest) = Some (JInt z, rest).
Proof.
  intros Hrest. pose proof (scan_number_int z rest Hrest) as E.
  destruct (int_repr_head z) as (c & t & Hz & Hc). rewrite Hz in *. cbn [app] in *.
  assert (45 <= c <= 57).
  { destruct Hc as [Hc| ->]; [apply is_digit_bounds in Hc|]; lia. }
  rewrite parse_value_atom by lia.
  apply scan_atom_number; assumption.
Qed.

Lemma parse_string n s rest :
  text_ok s = true ->
  parse_value (S n) (encode_string s ++ rest) = Some (JStr s, rest).
Proof.
  intros Hs. rewrite encode_string_app. cbn [parse_value N.eqb Pos.eqb].
  rewrite (scanstring_encoded s rest Hs). reflexivity.
Qed.

(** *** Arrays and objects *)

Lemma encode_arr lvl x xs :
  encode lvl (JArr (x :: xs))
  = 91 :: newline_indent (S lvl) ++ encode (S lvl) x
    ++ encode_items (S lvl) xs ++ newline_indent lvl ++ [93].
Proof.
  cbn [encode]. do 4 f_equal.
  induction xs as [|y ys IH]; [reflexivity|].
  cbn [encode_items]. rewrite IH. reflexivity.
Qed.

Lemma encode_obj lvl k x kvs :
  encode lvl (JObj ((k, x) :: kvs))
  = 123 :: newline_indent (S lvl) ++ encode_string k ++ lit ": "
    ++ encode (S lvl) x ++ encode_members (S lvl) kvs
    ++ newline_indent lvl ++ [125].
Proof.
  cbn [encode]. do 6 f_equal.
  induction kvs as [|[k' y] ys IH]; [reflexivity|].
  cbn [encode_members]. rewrite IH. reflexivity.
Qed.

Lemma is_ws_false c : 33 <= c -> is_ws c = false.
Proof.
  intros H. unfold is_ws.
  rewrite !orb_false_iff. repeat split; apply N.eqb_neq; lia.
Qed.

Lemma encode_head v lvl :
  value_ok v = true ->
  exists c t, encode lvl v = c :: t /\ 33 <= c /\ c <> 93.
Proof.
  intros Hok. destruct v as [|b|z|f|s|items|fields].
  - exists 110, (lit "ull"). split; [reflexivity|lia].
  - destruct b; [exists 116, (lit "rue")|exists 102, (lit "alse")];
      (split; [reflexivity|lia]).
  - destruct (int_repr_head z) as (c & t & E & Hc). exists c, t.
    split; [exact E|]. destruct Hc as [Hc| ->]; [apply is_digit_bounds in Hc|]; lia.
  - destruct (floatstr_head f Hok) as (c & t & E & Hc). exists c, t.
    split; [exact E|].
    destruct Hc as [Hc|[->|[->| ->]]]; [apply is_digit_bounds in Hc| | |]; lia.
  - exists 34, (concat (map escape_char s) ++ [34]). split; [reflexivity|lia].
  - destruct items as [|x xs].
    + exists 91, [93]. split; [reflexivity|lia].
    + rewrite encode_arr. eexists 91, _. split; [reflexivity|lia].
  - destruct fields as [|[k x] kvs].
    + exists 123, [125]. split; [reflexivity|lia].
    + rewrite encode_obj. eexists 123, _. split; [reflexivity|lia].
Qed.

Lemma skip_ws_encode v lvl rest :
  value_ok v = true ->
  skip_ws (encode lvl v ++ rest) = encode lvl v ++ rest.
Proof.
  intros Hok. destruct (encode_head v lvl Hok) as (c & t & -> & Hc & _).
  apply skip_ws_start, is_ws_false, Hc.
Qed.

Lemma delimited_items lvl xs lvl' s :
  delimited (encode_items lvl xs ++ newline_indent lvl' ++ s) = true.
Proof. destruct xs; reflexivity. Qed.

Lemma delimited_members lvl kvs lvl' s :
  delimited (encode_members lvl kvs ++ newline_indent lvl' ++ s) = true.
Proof. destruct kvs as [|[k y] kvs]; reflexivity. Qed.

Lemma parse_elements_encoded lvl lvl' xs : forall x rest fuel,
  Forall (fun v => forall lvl rest fuel,
            value_ok v = true -> delimited rest = true ->
            (vsize v <= fuel)%nat ->
            parse_value fuel (encode lvl v ++ rest) = Some (v, rest)) (x :: xs) ->
  forallb value_ok (x :: xs) = true ->
  (list_sum (map (fun v => S (vsize v)) (x :: xs)) <= fuel)%nat ->
  parse_elements fuel
    (encode lvl x ++ encode_items lvl xs ++ newline_indent lvl' ++ 93 :: rest)
  = Some (x :: xs, rest).
Proof.
  induction xs as [|y ys IH]; intros x rest fuel Hall Hok Hfuel;
    cbn [map list_sum fold_right] in Hfuel; (destruct fuel as [|n]; [lia|]);
    cbn [forallb] in Hok; apply andb_true_iff in Hok as [Hx Hok];
    cbn [parse_elements];
    rewrite (Forall_inv Hall lvl _ n Hx (delimited_items lvl _ lvl' _)) by lia.
  - cbn [encode_items app]. rewrite skip_ws_newline_indent.
    rewrite skip_ws_start by reflexivity. reflexivity.
  - cbn [encode_items app]. rewrite skip_ws_start by reflexivity.
    cbn [N.eqb Pos.eqb]. rewrite <- !app_assoc. rewrite skip_ws_newline_indent.
    apply andb_true_iff in Hok as [Hy Hok'].
    rewrite skip_ws_encode by exact Hy.
    rewrite (IH y rest n).
    + reflexivity.
    + exact (Forall_inv_tail Hall).
    + cbn [forallb]. rewrite Hy, Hok'. reflexivity.
    + cbn [map list_sum fold_right] in *. lia.
Qed.

Lemma parse_members_encoded lvl lvl' kvs : forall k x rest fuel,
  Forall (fun kv => forall lvl rest fuel,
            value_ok (snd kv) = true -> delimited rest = true ->
            (vsize (snd kv) <= fuel)%nat ->
            parse_value fuel (encode lvl (snd kv) ++ rest) = Some (snd kv, rest))
    ((k, x) :: kvs) ->
  forallb (fun kv => text_ok (fst kv) && value_ok (snd kv)) ((k, x) :: kvs) = true ->
  (list_sum (map (fun kv => S (vsize (snd kv))) ((k, x) :: kvs)) <= fuel)%nat ->
  parse_members fuel
    (concat (map escape_char k) ++ 34 :: lit ": " ++ encode lvl x
     ++ encode_members lvl kvs ++ newline_indent lvl' ++ 125 :: rest)
  = Some ((k, x) :: kvs, rest).
Proof.
  induction kvs as [|[k' y] ys IH]; intros k x rest fuel Hall Hok Hfuel;
    cbn [map list_sum fold_right snd] in Hfuel; (destruct fuel as [|n]; [lia|]);
    cbn [forallb fst snd] in Hok; apply andb_true_iff in Hok as [Hkx Hok];
    apply andb_true_iff in Hkx as [Hk Hx];
    cbn [parse_members];
    rewrite (scanstring_encoded k _ Hk);
    change (lit ": ") with [58; 32]; cbn [app];
    rewrite (skip_ws_start 58) by reflexivity; cbn [N.eqb Pos.eqb];
    change (skip_ws (32 :: ?s)) with (skip_ws s);
    rewrite skip_ws_encode by exact Hx;
    pose proof (Forall_inv Hall) as Hhead; cbn [snd] in Hhead;
    rewrite (Hhead lvl _ n Hx (delimited_members lvl _ lvl' _)) by lia.
  - cbn [encode_members app]. rewrite skip_ws_newline_indent.
    rewrite skip_ws_start by reflexivity. reflexivity.
  - cbn [encode_members app]. rewrite skip_ws_start by reflexivity.
    cbn [N.eqb Pos.eqb]. rewrite <- !app_assoc. rewrite skip_ws_newline_indent.
    cbn [forallb fst snd] in Hok.
    rewrite encode_string_app.
    rewrite skip_ws_start by reflexivity. cbn [N.eqb Pos.eqb].
    rewrite (IH k' y rest n).
    + reflexivity.
    + exact (Forall_inv_tail Hall).
    + exact Hok.
    + cbn [map list_sum fold_right snd] in *. lia.
Qed.

Lemma dict_set_fresh k v acc :
  (forall kv, kv ∈ acc -> fst kv <> k) ->
  dict_set k v acc = acc ++ [(k, v)].
Proof.
  induction acc as [|[k' v'] acc IH]; intros Hfresh; cbn; [reflexivity|].
  destruct (decide (k' = k)) as [E|_].
  - destruct (Hfresh (k', v')); [left|exact E].
  - rewrite IH; [reflexivity|]. intros kv Hkv. apply Hfresh. right. exact Hkv.
Qed.

Lemma dict_of_pairs_distinct d : forall acc,
  keys_distinct d = true ->
  (forall kv kv', kv ∈ acc -> kv' ∈ d -> fst kv <> fst kv') ->
  fold_left (fun d kv => dict_set (fst kv) (snd kv) d) d acc = acc ++ d.
Proof.
  induction d as [|[k v] d IH]; intros acc Hd Hacc; cbn [fold_left fst snd].
  - rewrite app_nil_r. reflexivity.
  - cbn [keys_distinct] in Hd. apply andb_true_iff in Hd as [Hk Hd].
    apply negb_true_iff in Hk.
    rewrite dict_set_fresh.
    + rewrite IH; [rewrite <- app_assoc; reflexivity|exact Hd|].
      intros kv kv' Hkv Hkv'. apply elem_of_app in Hkv as [Hkv|Hkv].
      * apply Hacc; [exact Hkv|right; exact Hkv'].
      * apply list_elem_of_singleton in Hkv as ->. cbn [fst]. intros E.
        assert (existsb (fun kv => bool_decide (fst kv = k)) d = true); [|congruence].
        apply existsb_exists. exists kv'. split; [apply list_elem_of_In, Hkv'|].
        apply bool_decide_eq_true. congruence.
    + intros kv Hkv. apply (Hacc kv (k, v) Hkv). left.
Qed.

Lemma dict_of_pairs_id d : keys_distinct d = true -> dict_of_pairs d = d.
Proof.
  intros Hd. unfold dict_of_pairs. rewrite (dict_of_pairs_distinct d [] Hd); [reflexivity|].
  intros kv kv' Hkv. inversion Hkv.
Qed.

(** The decoder reads a value back from the encoder's text, whatever the
    indentation and whatever delimiter follows. *)
Lemma parse_encoded v : forall lvl rest fuel,
  value_ok v = true ->
  delimited rest = true ->
  (vsize v <= fuel)%nat ->
  parse_value fuel (encode lvl v ++ rest) = Some (v, rest).
Proof.
  induction v as [|b|z|f|s|items IH|fields IH] using value_ind;
    intros lvl rest fuel Hok Hrest Hfuel;
    (destruct fuel as [|n]; [cbn in Hfuel; lia|]).
  - reflexivity.
  - destruct b; reflexivity.
  - apply parse_int. exact Hrest.
  - apply parse_float; assumption.
  - apply parse_string. exact Hok.
  - destruct items as [|x xs]; [reflexivity|].
    rewrite encode_arr. cbn [app parse_value N.eqb Pos.eqb].
    rewrite <- !app_assoc. rewrite skip_ws_newline_indent.
    cbn [value_ok] in Hok. pose proof Hok as Hx. cbn [forallb] in Hx.
    apply andb_true_iff in Hx as [Hx _].
    rewrite skip_ws_encode by exact Hx.
    destruct (encode_head x (S lvl) Hx) as (c & t & E & _ & Hc). rewrite E.
    cbn [app]. rewrite (proj2 (N.eqb_neq c 93) Hc).
    change (c :: t ++ ?s) with ((c :: t) ++ s). rewrite <- E.
    cbn [app].
    rewrite (parse_elements_encoded (S lvl) lvl xs x rest n IH Hok).
    + reflexivity.
    + cbn [vsize] in Hfuel. lia.
  - destruct fields as [|[k x] kvs]; [reflexivity|].
    rewrite encode_obj. cbn [app parse_value N.eqb Pos.eqb].
    rewrite <- !app_assoc. rewrite skip_ws_newline_indent.
    rewrite encode_string_app. rewrite skip_ws_start by reflexivity.
    cbn [N.eqb Pos.eqb].
    cbn [value_ok] in Hok. apply andb_true_iff in Hok as [Hkeys Hok].
    change ([125] ++ rest) with (125 :: rest).
    rewrite (parse_members_encoded (S lvl) lvl kvs k x rest n IH Hok).
    + rewrite (dict_of_pairs_id _ Hkeys). reflexivity.
    + cbn [vsize] in Hfuel. lia.
Qed.

Lemma encode_items_length lvl xs :
  Forall (fun v => forall lvl, value_ok v = true ->
            (vsize v <= length (encode lvl v))%nat) xs ->
  forallb value_ok xs = true ->
  (list_sum (map (fun v => S (vsize v)) xs) <= length (encode_items lvl xs))%nat.
Proof.
  induction 1 as [|y ys Hy _ IH]; intros Hok; [cbn; lia|].
  cbn [forallb] in Hok. apply andb_true_iff in Hok as [Hoky Hok].
  cbn [map list_sum fold_right encode_items length]. rewrite !length_app.
  specialize (Hy lvl Hoky). specialize (IH Hok). unfold list_sum in IH. lia.
Qed.

Lemma encode_members_length lvl kvs :
  Forall (fun kv => forall lvl, value_ok (snd kv) = true ->
            (vsize (snd kv) <= length (encode lvl (snd kv)))%nat) kvs ->
  forallb (fun kv => text_ok (fst kv) && value_ok (snd kv)) kvs = true ->
  (list_sum (map (fun kv => S (vsize (snd kv))) kvs)
   <= length (encode_members lvl kvs))%nat.
Proof.
  induction 1 as [|[k y] ys Hy _ IH]; intros Hok; [cbn; lia|].
  cbn [forallb fst snd] in Hok. apply andb_true_iff in Hok as [Hoky Hok].
  apply andb_true_iff in Hoky as [_ Hoky].
  cbn [map list_sum fold_right encode_members length snd]. rewrite !length_app.
  cbn [snd] in Hy. specialize (Hy lvl Hoky). specialize (IH Hok).
  unfold list_sum in IH. lia.
Qed.

Lemma vsize_le_length v : forall lvl,
  value_ok v = true -> (vsize v <= length (encode lvl v))%nat.
Proof.
  induction v as [|b|z|f|s|items IH|fields IH] using value_ind; intros lvl Hok;
    try (destruct (encode_head _ lvl Hok) as (c & t & -> & _); cbn; lia).
  - destruct items as [|x xs]; [vm_compute; lia|].
    rewrite encode_arr.
    change (vsize (JArr (x :: xs)))
      with (S (list_sum (map (fun v => S (vsize v)) (x :: xs)))).
    cbn [length]. rewrite !length_app.
    cbn [value_ok] in Hok.
    pose proof (encode_items_length (S lvl) (x :: xs) IH Hok) as H.
    cbn [encode_items length] in H. rewrite !length_app in H.
    cbn [length]. lia.
  - destruct fields as [|[k x] kvs]; [vm_compute; lia|].
    rewrite encode_obj.
    change (vsize (JObj ((k, x) :: kvs)))
      with (S (list_sum (map (fun kv => S (vsize (snd kv))) ((k, x) :: kvs)))).
    cbn [length]. rewrite !length_app.
    cbn [value_ok] in Hok. apply andb_true_iff in Hok as [_ Hok].
    pose proof (encode_members_length (S lvl) ((k, x) :: kvs) IH Hok) as H.
    cbn [encode_members length] in H. rewrite !length_app in H.
    cbn [length]. lia.
Qed.

Lemma json_loads_dumps v : value_ok v = true -> json_loads (json_dumps v) = Ok v.
Proof.
  intros Hok. unfold json_loads, json_dumps.
  pose proof (skip_ws_encode v 0 [] Hok) as Hskip. rewrite app_nil_r in Hskip.
  rewrite Hskip.
  pose proof (parse_encoded v 0 [] (S (length (encode 0 v))) Hok eq_refl) as Hparse.
  rewrite app_nil_r in Hparse. rewrite Hparse; [reflexivity|].
  pose proof (vsize_le_length v 0 Hok). lia.
Qed.

Local Close Scope N_scope.

(** ** Running [geocode] *)

Lemma geocode_run address w :
  geocode address w =
  match quote_plus address with
  | Raise e => (Raise e, w)
  | Ok q =>
      (rbind (service w (length (sent w)) (CENSUS_URL q)) decode_response,
       log_request (CENSUS_URL q) w)
  end.
Proof.
  unfold geocode, bind, lift, requests_get, decode_response, log_request.
  destruct (quote_plus address) as [q|e]; [|reflexivity].
  destruct (service w (length (sent w)) (CENSUS_URL q)) as [r|e]; [|reflexivity].
  cbn [rbind].
  destruct (raise_for_status r); [|reflexivity]. cbn [rbind].
  destruct (json r) as [body|]; [|reflexivity]. cbn [rbind].
  destruct (py_get body _ _) as [res|]; [|reflexivity]. cbn [rbind].
  destruct (py_get res _ _) as [ms|]; [|reflexivity]. cbn [rbind].
  destruct (negb (truthy ms)); [reflexivity|].
  destruct (getitem0 ms) as [best|]; [|reflexivity]. cbn [rbind].
  destruct (getitem best _) as [coords|]; [|reflexivity]. cbn [rbind].
  destruct (getitem best _) as [std|]; [|reflexivity]. cbn [rbind].
  destruct (getitem coords _) as [y|]; [|reflexivity]. cbn [rbind].
  destruct (py_float y) as [lat|]; [|reflexivity]. cbn [rbind].
  destruct (getitem coords _) as [x|]; [|reflexivity]. cbn [rbind].
  destruct (py_float x) as [lon|]; reflexivity.
Qed.

(** ** One turn of the loop, and the whole loop *)

Lemma loop_body_run pause rec failures w o :
  sleep_check pause = Ok tt ->
  is_record rec ->
  call (service w) (length (sent w)) rec = Ok o ->
  exists w',
    loop_body pause rec failures w =
      (Ok (record_after (service w) (length (sent w)) rec,
           failures ++ failures_of (service w) (length (sent w)) rec), w')
    /\ same_files w w'
    /\ length (sent w') = S (length (sent w)).
Proof.
  intros Hsleep (d & st & ad & -> & Hst & Had) Hcall.
  unfold record_after, failures_of. rewrite Hcall.
  unfold call in Hcall. unfold loop_body, bind, lift.
  unfold getitem in *. rewrite Had in *. cbn [rbind] in Hcall.
  rewrite geocode_run.
  destruct (quote_plus ad) as [q|e]; [|discriminate]. cbn [rbind] in Hcall.
  rewrite Hcall.
  destruct o as [[[std lat] lon]|].
  - cbn [setitem]. unfold time_sleep. rewrite Hsleep.
    eexists. split; [|split].
    + unfold ret, corrected. rewrite app_nil_r. reflexivity.
    + repeat split.
    + cbn. rewrite length_app. cbn. lia.
  - rewrite Hst. unfold time_sleep, ret. rewrite Hsleep.
    eexists. split; [|split].
    + unfold failure_line, getitem. rewrite Hst, Had. reflexivity.
    + repeat split.
    + cbn. rewrite length_app. cbn. lia.
Qed.

Lemma geocode_records_run pause records : forall failures w,
  sleep_check pause = Ok tt ->
  (forall i rec, records !! i = Some rec ->
     is_record rec /\
     exists o, call (service w) (length (sent w) + i) rec = Ok o) ->
  exists w',
    geocode_records pause records failures w =
      (Ok (records_after (service w) (length (sent w)) records,
           failures ++ failures_after (service w) (length (sent w)) records), w')
    /\ same_files w w'
    /\ length (sent w') = (length (sent w) + length records)%nat.
Proof.
  induction records as [|rec rest IH]; intros failures w Hsleep Hall.
  - exists w. cbn. rewrite app_nil_r, Nat.add_0_r. repeat split.
  - destruct (Hall 0%nat rec eq_refl) as [Hrec [o Ho]].
    rewrite Nat.add_0_r in Ho.
    destruct (loop_body_run pause rec failures w o Hsleep Hrec Ho)
      as (w1 & Hbody & (Hf & Hw & Hs & Hout) & Hlen).
    destruct (IH (failures ++ failures_of (service w) (length (sent w)) rec) w1 Hsleep)
      as (w2 & Hrest & (Hf2 & Hw2 & Hs2 & Hout2) & Hlen2).
    { intros i r Hi. destruct (Hall (S i) r Hi) as [Hr [o' Ho']].
      split; [exact Hr|]. exists o'.
      rewrite Hs, Hlen. rewrite <- Ho'. f_equal. lia. }
    exists w2. split; [|split].
    + cbn [geocode_records]. unfold bind at 1. rewrite Hbody.
      unfold bind at 1. rewrite Hrest. rewrite Hs, Hlen.
      cbn [records_after failures_after]. rewrite app_assoc. reflexivity.
    + unfold same_files. rewrite Hf2, Hw2, Hs2, Hout2. repeat split; assumption.
    + rewrite Hlen2, Hlen. cbn. lia.
Qed.

(** ** Facts on dicts and on the loop's result *)

Lemma dict_lookup_set_eq k v d : dict_lookup k (dict_set k v d) = Some v.
Proof.
  induction d as [|[k' v'] d IH]; cbn.
  - destruct (decide (k = k)); congruence.
  - destruct (decide (k' = k)) as [->|Hne]; cbn.
    + destruct (decide (k = k)); congruence.
    + destruct (decide (k' = k)); [contradiction|exact IH].
Qed.

Lemma dict_lookup_set_ne k k' v d :
  k <> k' -> dict_lookup k' (dict_set k v d) = dict_lookup k' d.
Proof.
  intros Hne. induction d as [|[k0 v0] d IH]; cbn.
  - destruct (decide (k = k')); [contradiction|reflexivity].
  - destruct (decide (k0 = k)) as [->|Hk]; cbn.
    + destruct (decide (k = k')); [contradiction|reflexivity].
    + destruct (decide (k0 = k')); [reflexivity|exact IH].
Qed.

Lemma records_after_length svc records : forall n,
  length (records_after svc n records) = length records.
Proof. induction records as [|r rs IH]; intros n; cbn; [|rewrite IH]; reflexivity. Qed.

Lemma records_after_lookup svc records : forall n i rec,
  records !! i = Some rec ->
  records_after svc n records !! i = Some (record_after svc (n + i) rec).
Proof.
  induction records as [|r rs IH]; intros n i rec Hi; [discriminate|].
  destruct i as [|i]; cbn [records_after]; simpl in Hi |- *.
  - injection Hi as ->. rewrite Nat.add_0_r. reflexivity.
  - rewrite (IH (S n) i rec Hi). do 2 f_equal. lia.
Qed.

Lemma failures_after_elem svc records : forall n line,
  line ∈ failures_after svc n records <->
  exists i rec, records !! i = Some rec
    /\ call svc (n + i) rec = Ok None /\ line = failure_line rec.
Proof.
  induction records as [|r rs IH]; intros n line; cbn.
  - split; [intros H; inversion H|intros (i & rec & H & _); discriminate].
  - rewrite elem_of_app, IH. unfold failures_of. split.
    + intros [H|(i & rec & Hi & Hc & ->)].
      * exists 0%nat, r. rewrite Nat.add_0_r.
        destruct (call svc n r) as [[o|]|]; try (inversion H; fail).
        apply list_elem_of_singleton in H. auto.
      * exists (S i), rec. replace (n + S i)%nat with (S n + i)%nat by lia. auto.
    + intros ([|i] & rec & Hi & Hc & ->); cbn in Hi.
      * injection Hi as ->. rewrite Nat.add_0_r in Hc. rewrite Hc.
        left. apply list_elem_of_singleton. reflexivity.
      * right. exists i, rec. replace (S n + i)%nat with (n + S i)%nat by lia. auto.
Qed.

Lemma geocode_call rec address w :
  getitem rec (lit "address") = Ok address ->
  fst (geocode address w) = call (service w) (length (sent w)) rec.
Proof.
  intros Ha. rewrite geocode_run. unfold call. rewrite Ha. cbn [rbind].
  destruct (quote_plus address); reflexivity.
Qed.

Lemma print_run t w : print t w = (Ok tt, log_print t w).
Proof. reflexivity. Qed.

Lemma print_each_run failures : forall w,
  exists w', print_each failures w = (Ok tt, w')
    /\ stdout w' = stdout w ++ map (fun bad => lit " " ++ [0x2022%N; 32%N] ++ bad) failures
    /\ files w' = files w /\ sent w' = sent w.
Proof.
  induction failures as [|bad rest IH]; intros w.
  - exists w. cbn. rewrite app_nil_r. auto.
  - cbn [print_each]. unfold bind. rewrite print_run.
    destruct (IH (log_print (lit " " ++ [0x2022%N; 32%N] ++ bad) w))
      as (w' & Hrun & Hout & Hf & Hs).
    exists w'. rewrite Hrun.
    unfold log_print in Hout, Hf, Hs; cbn [stdout files sent] in Hout, Hf, Hs.
    rewrite Hout, Hf, Hs. cbn [map]. rewrite <- app_assoc. auto.
Qed.

Lemma report_run failures w :
  exists w', report failures w = (Ok tt, w')
    /\ (forall bad, bad ∈ failures ->
          (lit " " ++ [0x2022%N; 32%N] ++ bad) ∈ stdout w')
    /\ files w' = files w /\ sent w' = sent w.
Proof.
  destruct failures as [|bad rest].
  - exists (log_print ([10%N; 0x2713%N]
              ++ lit " Every address matched the Census Geocoder API") w).
    split; [reflexivity|]. split; [|split; reflexivity].
    intros b Hb. inversion Hb.
  - unfold report, bind. rewrite print_run.
    destruct (print_each_run (bad :: rest)
                (log_print (10%N :: lit "Addresses NOT found by Census Geocoder:") w))
      as (w' & -> & Hout & Hf & Hs).
    exists w'. split; [reflexivity|]. split; [|split; assumption].
    intros b Hb. rewrite Hout. apply elem_of_app. right.
    apply list_elem_of_fmap. exists b. auto.
Qed.

Ltac keys_ne := let H := fresh in intros H; vm_compute in H; discriminate H.

(** ** [round(x, 6)] rounds to six decimal places *)

Lemma div_half_even_nearest a b :
  0 <= a -> 0 < b -> nearest_even a b (div_half_even a b).
Proof.
  intros Ha Hb. unfold nearest_even, div_half_even.
  pose proof (Z_div_mod a b ltac:(lia)) as Hdm.
  destruct (Z.div_eucl a b) as [q r]. destruct Hdm as [-> Hr].
  destruct (Z.compare_spec (2 * r) b) as [Heq|Hlt|Hgt].
  - destruct (Z.even q) eqn:Hq.
    + replace (2 * (b * q + r) - 2 * q * b) with (2 * r) by ring.
      split; [lia|]. intros _. exact Hq.
    + replace (2 * (b * q + r) - 2 * (q + 1) * b) with (2 * r - 2 * b) by ring.
      split; [lia|]. intros _.
      rewrite Z.add_1_r, Z.even_succ, <- Z.negb_even, Hq. reflexivity.
  - replace (2 * (b * q + r) - 2 * q * b) with (2 * r) by ring.
    split; lia.
  - replace (2 * (b * q + r) - 2 * (q + 1) * b) with (2 * r - 2 * b) by ring.
    split; lia.
Qed.

Lemma nearest_even_unique num den k k' :
  0 < den -> nearest_even num den k -> nearest_even num den k' -> k = k'.
Proof.
  intros Hden [Hk He] [Hk' He'].
  assert (Hclose : -1 <= k - k' <= 1) by nia.
  destruct (Z.eq_dec k k') as [|Hne]; [assumption|exfalso].
  assert (Hties : Z.abs (2 * num - 2 * k * den) = den
                  /\ Z.abs (2 * num - 2 * k' * den) = den) by nia.
  destruct Hties as [Ht Ht'].
  specialize (He Ht). specialize (He' Ht').
  assert (Hstep : k = k' + 1 \/ k' = k + 1) by lia.
  destruct Hstep as [->| ->].
  - rewrite Z.add_1_r, Z.even_succ, <- Z.negb_even, He' in He. discriminate.
  - rewrite Z.add_1_r, Z.even_succ, <- Z.negb_even, He in He'. discriminate.
Qed.

(** What the script computes with [round(x, 6)] is the rounding of [x] to
    six decimal places. *)
Lemma py_round_rounds x : rounded_to 6 x (py_round x 6).
Proof.
  destruct x as [s|s| |s m e]; try reflexivity.
  unfold rounded_to, py_round, decimal_float.
  destruct (Z.leb_spec 0 e) as [He|He].
  - exists (Zpos m * 2 ^ e * 10 ^ 6). split; [|reflexivity].
    rewrite Z.max_l by lia. rewrite Z.max_r by lia.
    change (2 ^ 0) with 1. unfold nearest_even.
    replace (2 * (Zpos m * 2 ^ e * 10 ^ 6) - 2 * (Zpos m * 2 ^ e * 10 ^ 6) * 1)
      with 0 by ring.
    cbn [Z.abs]. split; [lia|discriminate].
  - exists (div_half_even (Zpos m * 10 ^ 6) (2 ^ (- e))). split; [|reflexivity].
    rewrite Z.max_r by lia. rewrite Z.max_l by lia.
    change (2 ^ 0) with 1. rewrite Z.mul_1_r.
    apply div_half_even_nearest; [lia|apply Z.pow_pos_nonneg; lia].
Qed.

(** The rounding is one float: the relation leaves no choice. *)
Lemma rounded_to_unique d x y y' :
  rounded_to d x y -> rounded_to d x y' -> y = y'.
Proof.
  destruct x as [s|s| |s m e]; cbn [rounded_to]; try congruence.
  intros (k & Hk & ->) (k' & Hk' & ->). f_equal.
  assert (Hden : 0 < 2 ^ Z.max (- e) 0) by (apply Z.pow_pos_nonneg; lia).
  exact (nearest_even_unique _ _ k k' Hden Hk Hk').
Qed.

Lemma corrected_fields d std lat lon :
  let rec' := corrected (JObj d) std lat lon in
  getitem rec' (lit "address") = Ok std
  /\ getitem rec' (lit "latitude") = Ok (JFloat (py_round lat 6))
  /\ getitem rec' (lit "longitude") = Ok (JFloat (py_round lon 6))
  /\ forall k, k <> lit "address" -> k <> lit "latitude" -> k <> lit "longitude" ->
       getitem rec' k = getitem (JObj d) k.
Proof.
  cbn [corrected getitem]. repeat split.
  - rewrite !dict_lookup_set_ne by keys_ne. rewrite dict_lookup_set_eq. reflexivity.
  - rewrite dict_lookup_set_ne by keys_ne. rewrite dict_lookup_set_eq. reflexivity.
  - rewrite dict_lookup_set_eq. reflexivity.
  - intros k H1 H2 H3. rewrite !dict_lookup_set_ne by congruence. reflexivity.
Qed.

(** ** The pipeline driver *)

(** C6.  When every call of the geocoder returns, each record comes out
    of the loop with its [state] as it went in, whatever the outcome; a
    record on which the geocoder returns a match [(std_addr, lat, lon)]
    comes out with [address = std_addr], with a [latitude] and a
    [longitude] that are [lat] and [lon] rounded to six decimal places
    (the one float that [rounded_to] allows), and with every other field
    as it was. *)
Theorem match_overwrites_address_and_coordinates pause records failures w :
  sleep_check pause = Ok tt ->
  (forall i rec, records !! i = Some rec ->
     is_record rec /\
     exists o, call (service w) (length (sent w) + i) rec = Ok o) ->
  exists records' failures' w',
    geocode_records pause records failures w = (Ok (records', failures'), w')
    /\ forall i rec, records !! i = Some rec ->
         exists rec', records' !! i = Some rec'
           /\ getitem rec' (lit "state") = getitem rec (lit "state")
           /\ forall std_addr lat lon,
                call (service w) (length (sent w) + i) rec
                  = Ok (Some (std_addr, lat, lon)) ->
                getitem rec' (lit "address") = Ok std_addr
                /\ (exists la lo,
                      getitem rec' (lit "latitude") = Ok (JFloat la)
                      /\ getitem rec' (lit "longitude") = Ok (JFloat lo)
                      /\ rounded_to 6 lat la
                      /\ rounded_to 6 lon lo)
                /\ forall k, k <> lit "address" -> k <> lit "latitude" ->
                     k <> lit "longitude" -> getitem rec' k = getitem rec k.
Proof.
  intros Hsleep Hall.
  destruct (geocode_records_run pause records failures w Hsleep Hall)
    as (w' & Hrun & _ & _).
  eexists _, _, w'. split; [exact Hrun|].
  intros i rec Hi. eexists. split; [apply (records_after_lookup _ _ _ _ _ Hi)|].
  destruct (Hall i rec Hi) as [(d & st & ad & -> & Hst & Had) [o Ho]].
  unfold record_after. rewrite Ho. split.
  - destruct o as [[[std lat] lon]|]; [|reflexivity].
    destruct (corrected_fields d std lat lon) as (_ & _ & _ & Hother).
    apply Hother; keys_ne.
  - intros std lat lon [= ->].
    destruct (corrected_fields d std lat lon) as (Ha & Hlat & Hlon & Hother).
    split; [exact Ha|]. split; [|exact Hother].
    exists (py_round lat 6), (py_round lon 6).
    split; [exact Hlat|]. split; [exact Hlon|].
    split; apply py_round_rounds.
Qed.

(** ** A failing call *)

Lemma geocode_records_app pause pre rest : forall failures w,
  geocode_records pause (pre ++ rest) failures w =
  match geocode_records pause pre failures w with
  | (Ok (pre', failures'), w') =>
      match geocode_records pause rest failures' w' with
      | (Ok (rest', failures''), w'') => (Ok (pre' ++ rest', failures''), w'')
      | (Raise e, w'') => (Raise e, w'')
      end
  | (Raise e, w') => (Raise e, w')
  end.
Proof.
  induction pre as [|r pre IH]; intros failures w.
  - cbn. destruct (geocode_records pause rest failures w) as [[[rs fl]|e] w']; reflexivity.
  - cbn [app geocode_records]. unfold bind.
    destruct (loop_body pause r failures w) as [[[r' f']|e] w1]; [|reflexivity].
    rewrite IH.
    destruct (geocode_records pause pre f' w1) as [[[pre' f'']|e] w2]; [|reflexivity].
    unfold ret.
    destruct (geocode_records pause rest f'' w2) as [[[rest' f3]|e] w3]; reflexivity.
Qed.

Lemma raise_for_status_error r :
  400 <= status_code r < 600 -> raise_for_status r = Raise HTTPError.
Proof.
  intros [Hlo Hhi]. unfold raise_for_status.
  rewrite (proj2 (Z.leb_le _ _) Hlo), (proj2 (Z.ltb_lt _ _) Hhi). reflexivity.
Qed.

Lemma raise_for_status_other r :
  ~ 400 <= status_code r < 600 -> raise_for_status r = Ok tt.
Proof.
  intros Hout. unfold raise_for_status.
  destruct (Z.leb_spec 400 (status_code r)) as [Hlo|Hlo]; [|reflexivity].
  destruct (Z.ltb_spec (status_code r) 600) as [Hhi|Hhi]; [|reflexivity].
  exfalso. apply Hout. split; assumption.
Qed.

Lemma loop_body_call_fails pause rec failures w e :
  call_fails (service w) (length (sent w)) rec e ->
  exists w', loop_body pause rec failures w = (Raise e, w') /\ same_files w w'.
Proof.
  intros (address & q & Ha & Hq & Hfail).
  unfold loop_body, bind, lift. rewrite Ha, geocode_run, Hq.
  exists (log_request (CENSUS_URL q) w). split; [|repeat split].
  destruct Hfail as [->|(r & -> & Hr & ->)]; [reflexivity|].
  unfold decode_response. cbn [rbind].
  rewrite (raise_for_status_error r Hr). reflexivity.
Qed.

Lemma load_json_world path w : snd (load_json path w) = w.
Proof.
  unfold load_json, bind, json_load.
  destruct (files w !! path) as [t|]; [|reflexivity].
  destruct (json_loads t) as [[]|]; reflexivity.
Qed.

(** C2, as amended.  Let the records before [rec] be processed normally,
    and let the call for [rec] fail in the network with the exception
    [e]: [requests.get] raises [e], or the response has an error status,
    4xx or 5xx, and [e] is the [HTTPError] of [raise_for_status].  Then
    [main] ends with [e], uncaught, and the files are as they were before
    the run: nothing has been written, at whatever position the failure
    occurs.  A response with any other status, 1xx and 3xx included, is
    no failure: [raise_for_status] returns. *)
Theorem network_failure_halts_run_unwritten args w pre rec post e :
  fst (load_json (input args) w) = Ok (pre ++ rec :: post) ->
  sleep_check (pause args) = Ok tt ->
  (forall i r, pre !! i = Some r ->
     is_record r /\
     exists o, call (service w) (length (sent w) + i) r = Ok o) ->
  call_fails (service w) (length (sent w) + length pre) rec e ->
  (exists w', main args w = (Raise e, w') /\ files w' = files w)
  /\ (forall r, ~ 400 <= status_code r < 600 -> raise_for_status r = Ok tt).
Proof.
  intros Hload Hsleep Hpre Hfail. split; [|exact raise_for_status_other].
  unfold main, bind at 1.
  pose proof (load_json_world (input args) w) as Hw.
  destruct (load_json (input args) w) as [res w0]. cbn in Hload, Hw. subst w0 res.
  unfold bind at 1. rewrite print_run.
  set (w1 := log_print _ w).
  unfold bind at 1. rewrite geocode_records_app.
  destruct (geocode_records_run (pause args) pre [] w1 Hsleep Hpre)
    as (w2 & -> & (Hf & _ & Hs & _) & Hlen).
  cbn [geocode_records]. unfold bind at 1.
  destruct (loop_body_call_fails (pause args) rec
              ([] ++ failures_after (service w1) (length (sent w1)) pre) w2 e)
    as (w3 & -> & (Hf3 & _)).
  { rewrite Hs, Hlen. exact Hfail. }
  exists w3. split; [reflexivity|]. rewrite Hf3, Hf. reflexivity.
Qed.

(** ** The geocoder client *)

(** C1, as amended.  On a successful response whose address-match list
    is empty, [geocode] returns [None].  On one whose list starts with a
    match, it returns that match's [matchedAddress] and the pair
    [(lat, lon) = (float(y), float(x))], the service's [x] and [y] swapped;
    a coordinate that is a float already is returned as it is: [geocode]
    does not round (the loop of [main] does). *)
Theorem geocode_returns_first_match_unrounded address q w r b res :
  quote_plus address = Ok q ->
  service w (length (sent w)) (CENSUS_URL q) = Ok r ->
  raise_for_status r = Ok tt ->
  json r = Ok (JObj b) ->
  dict_lookup (lit "result") b = Some (JObj res) ->
  (dict_lookup (lit "addressMatches") res = Some (JArr []) ->
     fst (geocode address w) = Ok None)
  /\ (forall bd rest cd std_addr yv xv lat lon,
        dict_lookup (lit "addressMatches") res = Some (JArr (JObj bd :: rest)) ->
        dict_lookup (lit "coordinates") bd = Some (JObj cd) ->
        dict_lookup (lit "matchedAddress") bd = Some std_addr ->
        dict_lookup (lit "y") cd = Some yv ->
        dict_lookup (lit "x") cd = Some xv ->
        py_float yv = Ok lat ->
        py_float xv = Ok lon ->
        fst (geocode address w) = Ok (Some (std_addr, lat, lon)))
  /\ (forall f, py_float (JFloat f) = Ok f).
Proof.
  intros Hq Hsvc Hstatus Hjson Hres.
  rewrite geocode_run, Hq, Hsvc. cbn [rbind fst].
  unfold decode_response. rewrite Hstatus, Hjson. cbn [rbind py_get].
  rewrite Hres. cbn [rbind py_get].
  split; [|split].
  - intros ->. reflexivity.
  - intros bd rest cd std yv xv lat lon -> Hc Hm Hy Hx Hlat Hlon.
    cbn [truthy negb bool_decide rbind getitem0 getitem].
    rewrite Hc, Hm. cbn [rbind getitem]. rewrite Hy. cbn [rbind].
    rewrite Hlat. cbn [rbind]. rewrite Hx. cbn [rbind]. rewrite Hlon.
    reflexivity.
  - reflexivity.
Qed.

(** C9, as amended.  When the response body is an object without a
    ["result"] key, or one whose ["result"] is an object without an
    ["addressMatches"] key, [geocode] returns [None], as it does when the
    list of matches is there and empty. *)
Theorem absent_keys_mean_no_match address q w r b :
  quote_plus address = Ok q ->
  service w (length (sent w)) (CENSUS_URL q) = Ok r ->
  raise_for_status r = Ok tt ->
  json r = Ok (JObj b) ->
  dict_lookup (lit "result") b = None
  \/ (exists res, dict_lookup (lit "result") b = Some (JObj res)
        /\ (dict_lookup (lit "addressMatches") res = None
            \/ dict_lookup (lit "addressMatches") res = Some (JArr []))) ->
  fst (geocode address w) = Ok None.
Proof.
  intros Hq Hsvc Hstatus Hjson Hkeys.
  rewrite geocode_run, Hq, Hsvc. cbn [rbind fst].
  unfold decode_response. rewrite Hstatus, Hjson. cbn [rbind py_get].
  destruct Hkeys as [Hb|(res & Hb & [Hm|Hm])]; rewrite Hb; cbn [rbind py_get];
    try rewrite Hm; reflexivity.
Qed.

(** ** The loader *)

Lemma load_json_array path w t items :
  files w !! path = Some t ->
  json_loads t = Ok (JArr items) ->
  load_json path w = (Ok items, w).
Proof.
  intros Hf Ht. unfold load_json, bind, json_load. rewrite Hf, Ht. reflexivity.
Qed.

Lemma load_json_not_array path w t root :
  files w !! path = Some t ->
  json_loads t = Ok root ->
  (forall items, root <> JArr items) ->
  load_json path w
    = (Raise (ValueError (lit "Root element must be a JSON array")), w).
Proof.
  intros Hf Ht Hroot. unfold load_json, bind, json_load. rewrite Hf, Ht.
  destruct root; try reflexivity. destruct (Hroot items eq_refl).
Qed.




(** ** The verifier *)

(** C8.  Step 5 on the records held in memory: when re-loading the output
    file raises, the exception leaves [reparse_and_check] (and [main])
    uncaught; when it returns, what it returned is not used, and the line
    printed is the one [unique_latlon] gives for the in-memory records,
    whatever the file holds.  In [main] those records are the ones the
    loop has left. *)
Theorem duplicate_warning_from_memory_only outp records :
  (forall w e,
     fst (load_json outp w) = Raise e ->
     reparse_and_check outp records w = (Raise e, w))
  /\ (forall w reloaded unique,
        fst (load_json outp w) = Ok reloaded ->
        unique_latlon records = Ok unique ->
        reparse_and_check outp records w
          = (Ok tt, log_print (uniqueness_line unique) w))
  /\ (forall args w loaded failures w1 w2,
        output args = outp ->
        fst (load_json (input args) w) = Ok loaded ->
        geocode_records (pause args) loaded []
          (log_print (parsed_line (length loaded)) w)
          = (Ok (records, failures), w1) ->
        write_verified outp records w1 = (Ok tt, w2) ->
        main args w
          = bind (reparse_and_check outp records) (fun _ => report failures) w2
        /\ forall e, fst (load_json outp w2) = Raise e ->
             main args w = (Raise e, w2)).
Proof.
  assert (Hraise : forall w e, fst (load_json outp w) = Raise e ->
                     reparse_and_check outp records w = (Raise e, w)).
  { intros w e Hload. unfold reparse_and_check, bind at 1.
    pose proof (load_json_world outp w) as Hw.
    destruct (load_json outp w) as [res w0]. cbn in Hload, Hw. subst. reflexivity. }
  split; [exact Hraise|]. split.
  - intros w reloaded unique Hload Huniq. unfold reparse_and_check, bind, lift.
    pose proof (load_json_world outp w) as Hw.
    destruct (load_json outp w) as [res w0]. cbn in Hload, Hw. subst.
    rewrite Huniq. destruct unique; reflexivity.
  - intros args w loaded failures w1 w2 <- Hload Hloop Hwrite.
    assert (Hmain : main args w
              = bind (reparse_and_check (output args) records)
                     (fun _ => report failures) w2).
    { unfold main, bind at 1.
      pose proof (load_json_world (input args) w) as Hw.
      destruct (load_json (input args) w) as [res w0]. cbn in Hload, Hw. subst.
      unfold bind at 1. rewrite print_run.
      unfold bind at 1. rewrite Hloop.
      unfold bind at 1. rewrite Hwrite. reflexivity. }
    split; [exact Hmain|].
    intros e He. rewrite Hmain. unfold bind at 1. rewrite (Hraise w2 e He).
    reflexivity.
Qed.

(** ** The uniqueness check *)

Lemma exact_eqb_sym a b : exact_eqb a b = exact_eqb b a.
Proof.
  destruct a, b; cbn; try reflexivity. rewrite Z.min_comm. apply Z.eqb_sym.
Qed.

Lemma py_eq_sym a b : py_eq a b = py_eq b a.
Proof.
  unfold py_eq.
  destruct (as_number a) eqn:Ha, (as_number b) eqn:Hb; try reflexivity.
  - apply exact_eqb_sym.
  - destruct a, b; try discriminate; try reflexivity.
    apply bool_decide_ext. split; congruence.
Qed.

Lemma pair_eq_sym p q : pair_eq p q = pair_eq q p.
Proof. unfold pair_eq. rewrite (py_eq_sym p.1), (py_eq_sym p.2). reflexivity. Qed.

Lemma existsb_false_iff p (s : list (value * value)) :
  existsb (pair_eq p) s = false <-> forall x, x ∈ s -> pair_eq p x = false.
Proof.
  split.
  - intros H x Hx. destruct (pair_eq p x) eqn:E; [|reflexivity].
    assert (existsb (pair_eq p) s = true); [|congruence].
    apply existsb_exists. exists x. split; [apply list_elem_of_In, Hx|exact E].
  - intros H. destruct (existsb (pair_eq p) s) eqn:E; [|reflexivity].
    apply existsb_exists in E as (x & Hx & E).
    rewrite (H x) in E; [discriminate|apply list_elem_of_In, Hx].
Qed.

Lemma add_all_cons s p ps : add_all s (p :: ps) = add_all (set_add p s) ps.
Proof. reflexivity. Qed.

Lemma add_all_length_le pairs : forall s,
  (length (add_all s pairs) <= length s + length pairs)%nat.
Proof.
  induction pairs as [|p ps IH]; intros s; [cbn; lia|].
  rewrite add_all_cons. specialize (IH (set_add p s)). unfold set_add in IH |- *.
  destruct (existsb (pair_eq p) s); [|rewrite length_app in IH]; cbn in *; lia.
Qed.

Lemma add_all_full pairs : forall s,
  length (add_all s pairs) = (length s + length pairs)%nat
  <-> forall j p, pairs !! j = Some p ->
        (forall x, x ∈ s -> pair_eq p x = false)
        /\ (forall i q, (i < j)%nat -> pairs !! i = Some q -> pair_eq p q = false).
Proof.
  induction pairs as [|p ps IH]; intros s.
  - cbn. split; [intros _ j p H; discriminate|intros _; lia].
  - rewrite add_all_cons.
    pose proof (add_all_length_le ps (set_add p s)) as Hle.
    specialize (IH (set_add p s)). unfold set_add in Hle, IH |- *.
    destruct (existsb (pair_eq p) s) eqn:E.
    + cbn [length]. split; [intros H; lia|].
      intros H. destruct (H 0%nat p eq_refl) as [Hs _].
      apply existsb_false_iff in Hs. congruence.
    + rewrite length_app in Hle, IH. cbn [length] in *.
      assert (Hs := proj1 (existsb_false_iff p s) E).
      split.
      * intros Hlen.
        assert (Hlen' : length (add_all (s ++ [p]) ps)
                        = (length s + 1 + length ps)%nat) by lia.
        pose proof (proj1 IH Hlen') as Hps. clear Hlen'. rename Hps into Hlen'.
        intros [|j] q Hq; simpl in Hq.
        -- injection Hq as <-. split; [exact Hs|intros i q' Hi; lia].
        -- destruct (Hlen' j q Hq) as [Hin Hearlier]. split.
           ++ intros x Hx. apply Hin, elem_of_app. auto.
           ++ intros [|i] q' Hi Hq'; simpl in Hq'.
              ** injection Hq' as <-. apply Hin, elem_of_app. right.
                 apply list_elem_of_singleton. reflexivity.
              ** apply (Hearlier i q'); [lia|exact Hq'].
      * intros Hall.
        assert (Hlen' : length (add_all (s ++ [p]) ps)
                        = (length s + 1 + length ps)%nat).
        { apply (proj2 IH). intros j q Hq. destruct (Hall (S j) q Hq) as [Hin Hearlier]. split.
          - intros x Hx. apply elem_of_app in Hx as [Hx|Hx]; [auto|].
            apply list_elem_of_singleton in Hx as ->.
            apply (Hearlier 0%nat p); [lia|reflexivity].
          - intros i q' Hi Hq'. apply (Hearlier (S i) q'); [lia|exact Hq']. }
        lia.
Qed.

Lemma latlon_set_pairs records : forall pairs s,
  Forall2 (fun r p => latlon r = Ok p) records pairs ->
  latlon_set records s = Ok (add_all s pairs).
Proof.
  induction records as [|r rs IH]; intros pairs s H; inversion H; subst.
  - reflexivity.
  - cbn [latlon_set]. rewrite H2. cbn [rbind]. rewrite add_all_cons.
    apply IH. assumption.
Qed.


(** ** Step 4 and the whole of [main] *)

Lemma write_verified_run outp records w :
  writable w outp = true ->
  exists w',
    write_verified outp records w = (Ok tt, w')
    /\ files w' !! outp = Some (json_dumps (JArr records))
    /\ service w' = service w /\ sent w' = sent w
    /\ stdout w' = stdout w
         ++ [[0x2713%N] ++ lit " Verified data written " ++ [0x279C%N; 32%N] ++ outp].
Proof.
  intros Hw. unfold write_verified, bind, write_text. rewrite Hw, print_run.
  eexists. split; [reflexivity|]. cbn [log_print files service sent stdout].
  split; [apply lookup_insert_eq|]. repeat split.
Qed.

Lemma main_run args w records :
  fst (load_json (input args) w) = Ok records ->
  sleep_check (pause args) = Ok tt ->
  (forall i rec, records !! i = Some rec ->
     is_record rec /\
     exists o, call (service w) (length (sent w) + i) rec = Ok o) ->
  writable w (output args) = true ->
  forallb value_ok (records_after (service w) (length (sent w)) records) = true ->
  (exists unique,
     unique_latlon (records_after (service w) (length (sent w)) records) = Ok unique) ->
  exists w',
    main args w = (Ok tt, w')
    /\ files w' !! output args
       = Some (json_dumps (JArr (records_after (service w) (length (sent w)) records)))
    /\ length (sent w') = (length (sent w) + length records)%nat
    /\ forall bad, bad ∈ failures_after (service w) (length (sent w)) records ->
         (lit " " ++ [0x2022%N; 32%N] ++ bad) ∈ stdout w'.
Proof.
  intros Hload Hsleep Hall Hw Hok [unique Hunique].
  unfold main, bind at 1.
  pose proof (load_json_world (input args) w) as Hw0.
  destruct (load_json (input args) w) as [res w0]. cbn in Hload, Hw0. subst w0 res.
  unfold bind at 1. rewrite print_run. set (w1 := log_print _ w).
  destruct (geocode_records_run (pause args) records [] w1 Hsleep Hall)
    as (w2 & Hloop & (Hf2 & Hw2 & Hs2 & _) & Hlen2).
  change (service w1) with (service w) in *. change (sent w1) with (sent w) in *.
  unfold bind at 1. rewrite Hloop. cbn [app].
  set (records' := records_after (service w) (length (sent w)) records) in *.
  set (failures := failures_after (service w) (length (sent w)) records) in *.
  destruct (write_verified_run (output args) records' w2)
    as (w3 & Hwrite & Hfile3 & Hs3 & Hsent3 & _).
  { rewrite Hw2. exact Hw. }
  unfold bind at 1. rewrite Hwrite.
  assert (Hreload : load_json (output args) w3 = (Ok records', w3)).
  { apply load_json_array with (t := json_dumps (JArr records')); [exact Hfile3|].
    apply json_loads_dumps. exact Hok. }
  unfold bind at 1. unfold reparse_and_check, bind at 1. rewrite Hreload.
  unfold bind at 1, lift. rewrite Hunique.
  destruct (report_run failures (log_print (uniqueness_line unique) w3))
    as (w4 & Hreport & Hout & Hf4 & Hsent).
  exists w4. split; [|split; [|split]].
  - destruct unique; rewrite print_run; exact Hreport.
  - rewrite Hf4. exact Hfile3.
  - unfold log_print in Hsent. cbn [sent] in Hsent.
    rewrite Hsent, Hsent3. exact Hlen2.
  - exact Hout.
Qed.

(** C5.  Let [main] have loaded the records, and let every call of the
    geocoder return (a match or no match).  Then the loop runs over all the
    records and returns normally: one request per record, as many records
    out as in.  A record on which the geocoder returns no match comes out
    as it went in, and its line ["{state} | {address}"] is in the failure
    list, which holds nothing else.  When moreover the output can be
    written and read back and the uniqueness check returns, [main] itself
    returns normally, the records are in the output file, and every
    failure line has been printed. *)
Theorem no_match_is_reported_not_raised args w records :
  fst (load_json (input args) w) = Ok records ->
  sleep_check (pause args) = Ok tt ->
  (forall i rec, records !! i = Some rec ->
     is_record rec /\
     exists o, call (service w) (length (sent w) + i) rec = Ok o) ->
  exists records' failures w1,
    geocode_records (pause args) records []
      (log_print (parsed_line (length records)) w)
      = (Ok (records', failures), w1)
    /\ length records' = length records
    /\ length (sent w1) = (length (sent w) + length records)%nat
    /\ (forall i rec, records !! i = Some rec ->
          call (service w) (length (sent w) + i) rec = Ok None ->
          records' !! i = Some rec
          /\ exists st ad,
               getitem rec (lit "state") = Ok st
               /\ getitem rec (lit "address") = Ok ad
               /\ (py_format st ++ lit " | " ++ py_format ad) ∈ failures)
    /\ (forall line, line ∈ failures ->
          exists i rec, records !! i = Some rec
            /\ call (service w) (length (sent w) + i) rec = Ok None
            /\ line = failure_line rec)
    /\ (writable w (output args) = true ->
        forallb value_ok records' = true ->
        (exists unique, unique_latlon records' = Ok unique) ->
        exists w',
          main args w = (Ok tt, w')
          /\ files w' !! output args = Some (json_dumps (JArr records'))
          /\ forall bad, bad ∈ failures ->
               (lit " " ++ [0x2022%N; 32%N] ++ bad) ∈ stdout w').
Proof.
  intros Hload Hsleep Hall.
  destruct (geocode_records_run (pause args) records []
              (log_print (parsed_line (length records)) w) Hsleep Hall)
    as (w1 & Hrun & _ & Hlen).
  change (service (log_print (parsed_line (length records)) w)) with (service w) in *.
  change (sent (log_print (parsed_line (length records)) w)) with (sent w) in *.
  exists (records_after (service w) (length (sent w)) records),
         (failures_after (service w) (length (sent w)) records), w1.
  split; [exact Hrun|]. split; [apply records_after_length|].
  split; [exact Hlen|]. split; [|split].
  - intros i rec Hi Hnone. split.
    + rewrite (records_after_lookup _ _ _ _ _ Hi).
      unfold record_after. rewrite Hnone. reflexivity.
    + destruct (Hall i rec Hi) as [(d & st & ad & -> & Hst & Had) _].
      exists st, ad. cbn [getitem]. rewrite Hst, Had. repeat split.
      apply failures_after_elem. exists i, (JObj d).
      split; [exact Hi|]. split; [exact Hnone|].
      unfold failure_line. cbn [getitem]. rewrite Hst, Had. reflexivity.
  - intros line Hline. apply failures_after_elem in Hline. exact Hline.
  - intros Hw Hok Hunique.
    destruct (main_run args w records Hload Hsleep Hall Hw Hok Hunique)
      as (w' & Hmain & Hfile & _ & Hout).
    exists w'. auto.
Qed.

(** ** The writer and the loader *)

(** C7.  Let the records be values the encoder writes and the decoder
    reads: their strings are sequences of Unicode scalar values, their
    objects have distinct keys, and their floats are binary64 numbers
    ([value_ok]).  Writing them
    with step 4 and re-loading the written file with [load_json] returns
    the same list: as many records, with the same fields and values, in
    the same order. *)
Theorem written_file_reloads_identically outp records w :
  writable w outp = true ->
  forallb value_ok records = true ->
  exists w',
    write_verified outp records w = (Ok tt, w')
    /\ load_json outp w' = (Ok records, w').
Proof.
  intros Hw Hok.
  destruct (write_verified_run outp records w Hw) as (w' & Hrun & Hfile & _).
  exists w'. split; [exact Hrun|].
  apply load_json_array with (t := json_dumps (JArr records)); [exact Hfile|].
  apply json_loads_dumps. exact Hok.
Qed.

(** * More on the pipeline: the exact effects of a run *)

Lemma after_loop_cons pause rec rest w :
  after_loop pause rest (after_loop pause [rec] w) = after_loop pause (rec :: rest) w.
Proof.
  unfold after_loop. cbn [files writable service sent stdout naps map length repeat].
  f_equal.
  - rewrite <- app_assoc. reflexivity.
  - rewrite <- app_assoc. reflexivity.
Qed.

Lemma request_url_eq rec ad q :
  getitem rec (lit "address") = Ok ad -> quote_plus ad = Ok q ->
  request_url rec = CENSUS_URL q.
Proof. intros Ha Hq. unfold request_url. rewrite Ha. cbn [rbind]. rewrite Hq. reflexivity. Qed.

Lemma loop_body_world pause rec failures w o :
  sleep_check pause = Ok tt ->
  is_record rec ->
  call (service w) (length (sent w)) rec = Ok o ->
  loop_body pause rec failures w =
    (Ok (record_after (service w) (length (sent w)) rec,
         failures ++ failures_of (service w) (length (sent w)) rec),
     after_loop pause [rec] w).
Proof.
  intros Hsleep (d & st & ad & -> & Hst & Had) Hcall.
  unfold record_after, failures_of. rewrite Hcall.
  assert (Ha : getitem (JObj d) (lit "address") = Ok ad)
    by (unfold getitem; rewrite Had; reflexivity).
  assert (Hs : getitem (JObj d) (lit "state") = Ok st)
    by (unfold getitem; rewrite Hst; reflexivity).
  unfold call in Hcall. rewrite Ha in Hcall. cbn [rbind] in Hcall.
  destruct (quote_plus ad) as [q|e] eqn:Hq; [|discriminate]. cbn [rbind] in Hcall.
  unfold after_loop. cbn [map length repeat].
  rewrite (request_url_eq _ ad q Ha Hq).
  unfold loop_body, bind, lift. rewrite Ha, geocode_run, Hq, Hcall.
  destruct o as [[[std lat] lon]|].
  - cbn [setitem]. unfold time_sleep. rewrite Hsleep.
    unfold ret, corrected. rewrite app_nil_r. reflexivity.
  - rewrite Hs. unfold time_sleep, ret. rewrite Hsleep.
    unfold failure_line. rewrite Hs, Ha. reflexivity.
Qed.

Lemma geocode_records_world pause records : forall failures w,
  sleep_check pause = Ok tt ->
  (forall i rec, records !! i = Some rec ->
     is_record rec /\
     exists o, call (service w) (length (sent w) + i) rec = Ok o) ->
  geocode_records pause records failures w =
    (Ok (records_after (service w) (length (sent w)) records,
         failures ++ failures_after (service w) (length (sent w)) records),
     after_loop pause records w).
Proof.
  induction records as [|rec rest IH]; intros failures w Hsleep Hall.
  - cbn. unfold ret, after_loop. cbn. rewrite !app_nil_r. destruct w; reflexivity.
  - destruct (Hall 0%nat rec eq_refl) as [Hrec [o Ho]].
    rewrite Nat.add_0_r in Ho.
    cbn [geocode_records]. unfold bind at 1.
    rewrite (loop_body_world pause rec failures w o Hsleep Hrec Ho).
    unfold bind at 1. rewrite IH.
    + cbn [after_loop service sent map length repeat].
      rewrite length_app. cbn [length]. rewrite Nat.add_1_r.
      rewrite after_loop_cons.
      cbn [records_after failures_after]. rewrite app_assoc. reflexivity.
    + exact Hsleep.
    + intros i r Hi. destruct (Hall (S i) r Hi) as [Hr [o' Ho']].
      split; [exact Hr|]. exists o'.
      cbn [after_loop service sent map length repeat].
      rewrite length_app. cbn [length]. rewrite <- Ho'. f_equal. lia.
Qed.

Lemma log_prints_fields lines : forall w,
  files (log_prints lines w) = files w
  /\ writable (log_prints lines w) = writable w
  /\ service (log_prints lines w) = service w
  /\ sent (log_prints lines w) = sent w
  /\ naps (log_prints lines w) = naps w
  /\ stdout (log_prints lines w) = stdout w ++ lines.
Proof.
  induction lines as [|t ts IH]; intros w; cbn [log_prints fold_left].
  - rewrite app_nil_r. repeat split.
  - destruct (IH (log_print t w)) as (Hf & Hwr & Hsv & Hs & Hn & Ho).
    unfold log_prints in *. rewrite Hf, Hwr, Hsv, Hs, Hn, Ho.
    cbn [log_print files writable service sent naps stdout].
    rewrite <- app_assoc. repeat split.
Qed.

Lemma print_each_world failures : forall w,
  print_each failures w = (Ok tt, log_prints (map bullet failures) w).
Proof.
  induction failures as [|bad rest IH]; intros w; cbn [print_each map]; [reflexivity|].
  unfold bind. rewrite print_run, IH. reflexivity.
Qed.

Lemma report_world failures w :
  report failures w = (Ok tt, log_prints (report_lines failures) w).
Proof.
  destruct failures as [|bad rest]; [apply print_run|].
  unfold report, bind. rewrite print_run, print_each_world. reflexivity.
Qed.

Lemma write_verified_world outp records w :
  writable w outp = true ->
  write_verified outp records w
  = (Ok tt, log_print (written_line outp) (store outp (json_dumps (JArr records)) w)).
Proof.
  intros Hw. unfold write_verified, bind, write_text. rewrite Hw, print_run. reflexivity.
Qed.

Lemma write_verified_unwritable outp records w :
  writable w outp = false -> write_verified outp records w = (Raise OSError, w).
Proof.
  intros Hw. unfold write_verified, bind, write_text. rewrite Hw. reflexivity.
Qed.

Lemma main_after_load args w records :
  fst (load_json (input args) w) = Ok records ->
  main args w =
  (let* (records, failures) := geocode_records (pause args) records [] in
   let* _ := write_verified (output args) records in
   let* _ := reparse_and_check (output args) records in
   report failures) (log_print (parsed_line (length records)) w).
Proof.
  intros Hload. unfold main. unfold bind at 1.
  pose proof (load_json_world (input args) w) as Hw0.
  destruct (load_json (input args) w) as [res w0]. cbn in Hload, Hw0. subst w0 res.
  unfold bind at 1. rewrite print_run. reflexivity.
Qed.

(** X1.  A failure of the first load ends [main] with that exception and
    without any effect: nothing is printed, requested, slept or written. *)
Theorem main_load_failure_has_no_effect args w e :
  fst (load_json (input args) w) = Raise e ->
  main args w = (Raise e, w).
Proof.
  intros Hload. unfold main. unfold bind at 1.
  pose proof (load_json_world (input args) w) as Hw0.
  destruct (load_json (input args) w) as [res w0]. cbn in Hload, Hw0. subst w0 res.
  reflexivity.
Qed.

(** X2.  On an empty array [main] sends no request and never sleeps, so that
    the pause is not looked at; it writes [[]] to the output file and
    prints four lines: the count, the file written, the pairs unique, and
    every address matched. *)
Theorem main_on_empty_array args w :
  fst (load_json (input args) w) = Ok [] ->
  writable w (output args) = true ->
  exists w',
    main args w = (Ok tt, w')
    /\ files w' = <[output args := lit "[]"]> (files w)
    /\ sent w' = sent w
    /\ naps w' = naps w
    /\ stdout w' = stdout w
         ++ [parsed_line 0; written_line (output args); uniqueness_line true]
         ++ report_lines [].
Proof.
  intros Hload Hw. rewrite (main_after_load args w [] Hload).
  cbn [geocode_records length]. unfold bind at 1, ret.
  unfold bind at 1. rewrite write_verified_world by exact Hw.
  set (w3 := log_print _ (store _ _ _)).
  assert (Hreload : load_json (output args) w3 = (Ok [], w3)).
  { apply load_json_array with (t := lit "[]"); [apply lookup_insert_eq|reflexivity]. }
  unfold bind at 1. unfold reparse_and_check, bind at 1. rewrite Hreload.
  unfold bind at 1, lift. cbn [unique_latlon latlon_set rbind length Nat.eqb].
  rewrite print_run, report_world.
  eexists. split; [reflexivity|].
  destruct (log_prints_fields (report_lines [])
              (log_print ([0x2713%N] ++ lit " All latitude/longitude pairs are unique") w3))
    as (Hf & _ & _ & Hs & Hn & Ho).
  rewrite Hf, Hs, Hn, Ho. cbn [log_print files sent naps stdout w3 store].
  repeat split. rewrite <- !app_assoc. reflexivity.
Qed.


(** X4.  A pause that [time.sleep] refuses is met only after the first
    record has been geocoded: [main] ends with the exception of
    [time.sleep] (a [ValueError] for NaN and for a negative length, an
    [OverflowError] for a length beyond the range of 64-bit nanoseconds,
    the infinities included and whatever the sign), one request sent,
    nothing slept and no file written. *)
Theorem main_refused_pause_aborts_after_first_request args w rec rest o e :
  fst (load_json (input args) w) = Ok (rec :: rest) ->
  sleep_check (pause args) = Raise e ->
  is_record rec ->
  call (service w) (length (sent w)) rec = Ok o ->
  main args w
  = (Raise e,
     log_request (request_url rec) (log_print (parsed_line (S (length rest))) w)).
Proof.
  intros Hload Hsleep (d & st & ad & -> & Hst & Had) Hcall.
  rewrite (main_after_load args w _ Hload). cbn [length].
  set (w1 := log_print _ w).
  assert (Ha : getitem (JObj d) (lit "address") = Ok ad)
    by (unfold getitem; rewrite Had; reflexivity).
  assert (Hs : getitem (JObj d) (lit "state") = Ok st)
    by (unfold getitem; rewrite Hst; reflexivity).
  unfold call in Hcall. rewrite Ha in Hcall. cbn [rbind] in Hcall.
  destruct (quote_plus ad) as [q|e'] eqn:Hq; [|discriminate]. cbn [rbind] in Hcall.
  rewrite (request_url_eq _ ad q Ha Hq).
  cbn [geocode_records]. unfold bind at 1. unfold bind at 1.
  unfold loop_body, bind, lift. rewrite Ha, geocode_run, Hq.
  change (service w1) with (service w). change (sent w1) with (sent w).
  rewrite Hcall.
  destruct o as [[[std lat] lon]|].
  - cbn [setitem]. unfold time_sleep. rewrite Hsleep. reflexivity.
  - rewrite Hs. unfold time_sleep, ret. rewrite Hsleep. reflexivity.
Qed.

(** X5.  When the output path cannot be written, [main] ends with [OSError]
    after the whole loop has run: every request has been sent and every
    pause slept, and no file has changed. *)
Theorem main_unwritable_output_fails_after_the_loop args w records :
  fst (load_json (input args) w) = Ok records ->
  sleep_check (pause args) = Ok tt ->
  (forall i rec, records !! i = Some rec ->
     is_record rec /\
     exists o, call (service w) (length (sent w) + i) rec = Ok o) ->
  writable w (output args) = false ->
  main args w
  = (Raise OSError,
     after_loop (pause args) records (log_print (parsed_line (length records)) w)).
Proof.
  intros Hload Hsleep Hall Hw.
  rewrite (main_after_load args w records Hload).
  set (w1 := log_print _ w).
  unfold bind at 1.
  rewrite (geocode_records_world (pause args) records [] w1 Hsleep Hall).
  unfold bind at 1. rewrite write_verified_unwritable; [reflexivity|exact Hw].
Qed.

(** X6.  When the uniqueness check raises on the records the loop has left (a
    record without coordinates, or with a coordinate that cannot be
    hashed), [main] ends with that exception after the output file has
    been written and re-loaded: the file holds the records, the verdict
    and the report are not printed. *)
Theorem main_uniqueness_failure_comes_after_the_write args w records e :
  fst (load_json (input args) w) = Ok records ->
  sleep_check (pause args) = Ok tt ->
  (forall i rec, records !! i = Some rec ->
     is_record rec /\
     exists o, call (service w) (length (sent w) + i) rec = Ok o) ->
  writable w (output args) = true ->
  forallb value_ok (records_after (service w) (length (sent w)) records) = true ->
  unique_latlon (records_after (service w) (length (sent w)) records) = Raise e ->
  exists w',
    main args w = (Raise e, w')
    /\ files w' !! output args
       = Some (json_dumps (JArr (records_after (service w) (length (sent w)) records)))
    /\ stdout w' = stdout w
         ++ [parsed_line (length records); written_line (output args)].
Proof.
  intros Hload Hsleep Hall Hw Hok Hunique.
  rewrite (main_after_load args w records Hload).
  set (w1 := log_print _ w).
  unfold bind at 1.
  rewrite (geocode_records_world (pause args) records [] w1 Hsleep Hall).
  change (service w1) with (service w). change (sent w1) with (sent w).
  cbn [app].
  set (records' := records_after (service w) (length (sent w)) records) in *.
  unfold bind at 1. rewrite write_verified_world by exact Hw.
  set (w3 := log_print _ (store _ _ _)).
  assert (Hreload : load_json (output args) w3 = (Ok records', w3)).
  { apply load_json_array with (t := json_dumps (JArr records'));
      [apply lookup_insert_eq|].
    apply json_loads_dumps. exact Hok. }
  unfold bind at 1. unfold reparse_and_check, bind at 1. rewrite Hreload.
  unfold bind at 1, lift. rewrite Hunique.
  exists w3. split; [reflexivity|]. split.
  - apply lookup_insert_eq.
  - cbn [w3 w1 log_print store after_loop stdout]. rewrite <- app_assoc. reflexivity.
Qed.

(** * More on [geocode] *)

Lemma decode_response_matches r b res m :
  raise_for_status r = Ok tt ->
  json r = Ok (JObj b) ->
  dict_lookup (lit "result") b = Some (JObj res) ->
  dict_lookup (lit "addressMatches") res = Some m ->
  decode_response r =
  if negb (truthy m) then Ok None
  else
    rbind (getitem0 m) (fun best =>
    rbind (getitem best (lit "coordinates")) (fun coords =>
    rbind (getitem best (lit "matchedAddress")) (fun std_addr =>
    rbind (getitem coords (lit "y")) (fun y =>
    rbind (py_float y) (fun lat =>
    rbind (getitem coords (lit "x")) (fun x =>
    rbind (py_float x) (fun lon =>
    Ok (Some (std_addr, lat, lon))))))))).
Proof.
  intros Hst Hj Hres Hm. unfold decode_response.
  rewrite Hst, Hj. cbn [rbind py_get]. rewrite Hres. cbn [rbind py_get].
  rewrite Hm. reflexivity.
Qed.

(** X7.  Whatever is falsy under ["addressMatches"] ([null], [false], [0],
    [0.0], an empty string, array or object) is taken as no match: the
    test is [if not matches], not a test for an empty list. *)
Theorem geocode_takes_falsy_matches_as_no_match address q w r b res m :
  quote_plus address = Ok q ->
  service w (length (sent w)) (CENSUS_URL q) = Ok r ->
  raise_for_status r = Ok tt ->
  json r = Ok (JObj b) ->
  dict_lookup (lit "result") b = Some (JObj res) ->
  dict_lookup (lit "addressMatches") res = Some m ->
  truthy m = false ->
  geocode address w = (Ok None, log_request (CENSUS_URL q) w).
Proof.
  intros Hq Hsvc Hst Hj Hres Hm Hfalsy.
  rewrite geocode_run, Hq, Hsvc. cbn [rbind].
  rewrite (decode_response_matches r b res m Hst Hj Hres Hm), Hfalsy. reflexivity.
Qed.

(** X8.  A first match that is not an object, or whose coordinates are not,
    makes [geocode] raise a [TypeError]; a first match without
    ["coordinates"] or ["matchedAddress"], or coordinates without ["y"]
    or ["x"], make it raise a [KeyError].  The request has been sent; the
    match is not taken as a failure to report. *)
Theorem geocode_raises_on_a_malformed_match address q w r b res best rest :
  quote_plus address = Ok q ->
  service w (length (sent w)) (CENSUS_URL q) = Ok r ->
  raise_for_status r = Ok tt ->
  json r = Ok (JObj b) ->
  dict_lookup (lit "result") b = Some (JObj res) ->
  dict_lookup (lit "addressMatches") res = Some (JArr (best :: rest)) ->
  let raises e := geocode address w = (Raise e, log_request (CENSUS_URL q) w) in
  ((forall bd, best <> JObj bd) -> raises TypeError)
  /\ (forall bd,
        best = JObj bd ->
        (dict_lookup (lit "coordinates") bd = None -> raises KeyError)
        /\ (forall coords,
              dict_lookup (lit "coordinates") bd = Some coords ->
              (dict_lookup (lit "matchedAddress") bd = None -> raises KeyError)
              /\ (forall std_addr,
                    dict_lookup (lit "matchedAddress") bd = Some std_addr ->
                    ((forall cd, coords <> JObj cd) -> raises TypeError)
                    /\ (forall cd,
                          coords = JObj cd ->
                          (dict_lookup (lit "y") cd = None -> raises KeyError)
                          /\ (forall y lat,
                                dict_lookup (lit "y") cd = Some y ->
                                py_float y = Ok lat ->
                                dict_lookup (lit "x") cd = None ->
                                raises KeyError))))).
Proof.
  intros Hq Hsvc Hst Hj Hres Hm raises. unfold raises.
  rewrite geocode_run, Hq, Hsvc. cbn [rbind].
  rewrite (decode_response_matches r b res _ Hst Hj Hres Hm).
  cbn [truthy negb getitem0 rbind].
  rewrite bool_decide_eq_false_2 by discriminate. cbn [negb].
  split.
  - intros Hbest. destruct best; try reflexivity. exfalso. eapply Hbest. reflexivity.
  - intros bd ->. cbn [getitem]. split.
    + intros ->. reflexivity.
    + intros coords ->. cbn [rbind]. split.
      * intros ->. reflexivity.
      * intros std_addr ->. cbn [rbind]. split.
        -- intros Hc. destruct coords; try reflexivity. exfalso. eapply Hc. reflexivity.
        -- intros cd ->. cbn [getitem]. split.
           ++ intros ->. reflexivity.
           ++ intros y lat Hy Hlat Hx. rewrite Hy. cbn [rbind]. rewrite Hlat.
              cbn [rbind]. rewrite Hx. reflexivity.
Qed.

(** * More on the request URL *)

Local Open Scope N_scope.

Lemma hex_digit_safe n : n < 16 -> always_safe (hex_digit n) = true.
Proof.
  intros Hn. unfold hex_digit, always_safe.
  destruct (N.ltb_spec n 10) as [H|H].
  - replace ((48 <=? 48 + n) && (48 + n <=? 57)) with true.
    + rewrite !orb_true_r. reflexivity.
    + symmetry. apply andb_true_iff. split; apply N.leb_le; lia.
  - replace ((65 <=? 55 + n) && (55 + n <=? 90)) with true; [reflexivity|].
    symmetry. apply andb_true_iff. split; apply N.leb_le; lia.
Qed.

Lemma quote_byte_url_chars b :
  b < 256 -> Forall (fun c => url_char c = true) (quote_byte b).
Proof.
  intros Hb. unfold quote_byte, url_char.
  destruct (always_safe b) eqn:Hsafe.
  - constructor; [|constructor]. rewrite Hsafe. reflexivity.
  - destruct (b =? 32).
    + constructor; [|constructor]. reflexivity.
    + constructor; [reflexivity|].
      constructor; [|constructor; [|constructor]].
      * rewrite hex_digit_safe; [reflexivity|].
        apply N.Div0.div_lt_upper_bound. exact Hb.
      * rewrite hex_digit_safe; [reflexivity|].
        apply N.mod_lt. discriminate.
Qed.

Lemma utf8_encode_char_bytes c bs :
  c < 0x110000 -> utf8_encode_char c = Ok bs -> Forall (fun b => b < 256) bs.
Proof.
  intros Hc. unfold utf8_encode_char.
  assert (H64 : forall x, x mod 64 < 64) by (intros x; apply N.mod_lt; discriminate).
  destruct (N.ltb_spec c 0x80) as [H1|H1].
  { intros [= <-]. repeat constructor. lia. }
  destruct (N.ltb_spec c 0x800) as [H2|H2].
  { intros [= <-].
    assert (c / 64 < 32) by (apply N.Div0.div_lt_upper_bound; exact H2).
    pose proof (H64 c). repeat constructor; lia. }
  destruct ((0xD800 <=? c) && (c <=? 0xDFFF)); [discriminate|].
  destruct (N.ltb_spec c 0x10000) as [H3|H3].
  { intros [= <-].
    assert (c / 4096 < 16) by (apply N.Div0.div_lt_upper_bound; exact H3).
    pose proof (H64 c). pose proof (H64 (c / 64)). repeat constructor; lia. }
  intros [= <-].
  assert (c / 262144 < 5) by (apply N.Div0.div_lt_upper_bound; lia).
  pose proof (H64 c). pose proof (H64 (c / 64)). pose proof (H64 (c / 4096)).
  repeat constructor; lia.
Qed.

Lemma utf8_encode_bytes s : forall bs,
  Forall (fun c => c < 0x110000) s ->
  utf8_encode s = Ok bs -> Forall (fun b => b < 256) bs.
Proof.
  induction s as [|c s IH]; intros bs Hs; cbn [utf8_encode].
  - intros [= <-]. constructor.
  - destruct (utf8_encode_char c) as [b1|] eqn:E1; [|discriminate]. cbn [rbind].
    destruct (utf8_encode s) as [b2|] eqn:E2; [|discriminate]. cbn [rbind].
    intros [= <-]. apply Forall_app. split.
    + exact (utf8_encode_char_bytes c b1 (Forall_inv Hs) E1).
    + apply IH; [exact (Forall_inv_tail Hs)|reflexivity].
Qed.

Lemma utf8_encode_char_raises c :
  match utf8_encode_char c with
  | Ok _ => is_surrogate c = false
  | Raise e => e = UnicodeEncodeError /\ is_surrogate c = true
  end.
Proof.
  unfold utf8_encode_char, is_surrogate.
  destruct (N.ltb_spec c 0x80) as [H1|H1].
  { apply andb_false_iff. left. apply N.leb_gt. lia. }
  destruct (N.ltb_spec c 0x800) as [H2|H2].
  { apply andb_false_iff. left. apply N.leb_gt. lia. }
  destruct ((0xD800 <=? c) && (c <=? 0xDFFF)); [split; reflexivity|].
  destruct (c <? 0x10000); reflexivity.
Qed.

Lemma utf8_encode_raises s :
  match utf8_encode s with
  | Ok _ => forallb (fun c => negb (is_surrogate c)) s = true
  | Raise e => e = UnicodeEncodeError
               /\ forallb (fun c => negb (is_surrogate c)) s = false
  end.
Proof.
  induction s as [|c s IH]; cbn [utf8_encode forallb]; [reflexivity|].
  pose proof (utf8_encode_char_raises c) as Hc.
  destruct (utf8_encode_char c) as [b1|e1]; cbn [rbind].
  - rewrite Hc. cbn [negb andb].
    destruct (utf8_encode s) as [b2|e2]; cbn [rbind]; exact IH.
  - destruct Hc as [-> ->]. split; reflexivity.
Qed.

Local Close Scope N_scope.

(** X9.  The address goes into the URL as letters, digits, [_.-~], [+] and
    [%] only: whatever the address holds, it cannot add a parameter to
    the query or end it. *)
Theorem geocode_requests_a_url_of_safe_characters s q w :
  Forall (fun c => (c < 0x110000)%N) s ->
  quote_plus (JStr s) = Ok q ->
  Forall (fun c => url_char c = true) q
  /\ snd (geocode (JStr s) w) = log_request (CENSUS_URL q) w.
Proof.
  intros Hs Hq. split.
  - unfold quote_plus in Hq.
    destruct (utf8_encode s) as [bs|] eqn:E; [|discriminate]. cbn [rbind] in Hq.
    injection Hq as <-.
    pose proof (utf8_encode_bytes s bs Hs E) as Hbs. clear E.
    induction Hbs as [|b bs Hb _ IH]; cbn [map concat]; [constructor|].
    apply Forall_app. split; [apply quote_byte_url_chars; exact Hb|exact IH].
  - rewrite geocode_run, Hq. reflexivity.
Qed.

(** X10.  An address that cannot be quoted is met before anything is sent: an
    address that is not a [str] is a [TypeError], and a [str] raises a
    [UnicodeEncodeError] exactly when it holds a surrogate code point. *)
Theorem geocode_sends_nothing_for_an_unquotable_address w :
  (forall address,
     (forall s, address <> JStr s) -> geocode address w = (Raise TypeError, w))
  /\ (forall s,
        (exists c, c ∈ s /\ is_surrogate c = true)
        <-> geocode (JStr s) w = (Raise UnicodeEncodeError, w)).
Proof.
  split.
  - intros address Hns. rewrite geocode_run.
    destruct address; try reflexivity. exfalso. eapply Hns. reflexivity.
  - intros s. rewrite geocode_run. unfold quote_plus.
    pose proof (utf8_encode_raises s) as Hs.
    destruct (utf8_encode s) as [bs|e]; cbn [rbind].
    + split.
      * intros (c & Hin & Hc). exfalso.
        rewrite forallb_forall in Hs. apply list_elem_of_In in Hin.
        specialize (Hs c Hin). rewrite Hc in Hs. discriminate.
      * intros H. exfalso. injection H as _ Hw.
        apply (f_equal (fun w => length (sent w))) in Hw.
        unfold log_request in Hw. cbn [sent] in Hw.
        rewrite length_app in Hw. cbn [length] in Hw. lia.
    + destruct Hs as [-> Hs]. split; [reflexivity|]. intros _.
      assert (Hex : existsb is_surrogate s = true).
      { clear -Hs. induction s as [|c s IH]; [discriminate|].
        cbn [forallb existsb] in *. destruct (is_surrogate c); [reflexivity|].
        cbn [negb andb orb] in *. exact (IH Hs). }
      apply existsb_exists in Hex as (c & Hin & Hc).
      exists c. split; [apply list_elem_of_In; exact Hin|exact Hc].
Qed.

(** ** Quoting loses nothing of the address *)

Local Open Scope N_scope.

(** The quotients and remainders that make the bytes of [c]. *)
Ltac utf8_facts c :=
  pose proof (N.Div0.div_mod c 64);
  pose proof (N.Div0.div_mod (c / 64) 64);
  pose proof (N.Div0.div_mod (c / 4096) 64);
  pose proof (N.Div0.div_div c 64 64);
  pose proof (N.Div0.div_div c 4096 64);
  pose proof (N.mod_lt c 64 ltac:(discriminate));
  pose proof (N.mod_lt (c / 64) 64 ltac:(discriminate));
  pose proof (N.mod_lt (c / 4096) 64 ltac:(discriminate));
  change (64 * 64) with 4096 in *; change (4096 * 64) with 262144 in *.

Lemma hex_digit_inj a b : a < 16 -> b < 16 -> hex_digit a = hex_digit b -> a = b.
Proof.
  unfold hex_digit. intros Ha Hb.
  destruct (N.ltb_spec a 10), (N.ltb_spec b 10); lia.
Qed.

Lemma always_safe_not_plus_percent b :
  always_safe b = true -> b <> 43 /\ b <> 37.
Proof. intros H. split; intros ->; discriminate H. Qed.

Lemma quote_bytes_inj bs1 : forall bs2,
  Forall (fun b => b < 256) bs1 -> Forall (fun b => b < 256) bs2 ->
  concat (map quote_byte bs1) = concat (map quote_byte bs2) ->
  bs1 = bs2.
Proof.
  induction bs1 as [|b1 bs1 IH]; intros [|b2 bs2] H1 H2; cbn [map concat].
  - reflexivity.
  - unfold quote_byte. destruct (always_safe b2); [discriminate|].
    destruct (b2 =? 32); discriminate.
  - unfold quote_byte. destruct (always_safe b1); [discriminate|].
    destruct (b1 =? 32); discriminate.
  - pose proof (Forall_inv H1) as Hb1. pose proof (Forall_inv H2) as Hb2.
    specialize (IH bs2 (Forall_inv_tail H1) (Forall_inv_tail H2)).
    unfold quote_byte.
    destruct (always_safe b1) eqn:S1, (always_safe b2) eqn:S2.
    + cbn [app]. intros [= -> E]. f_equal. exact (IH E).
    + destruct (always_safe_not_plus_percent b1 S1) as [Hp Hq].
      destruct (b2 =? 32); cbn [app]; intros [= E1 E]; congruence.
    + destruct (always_safe_not_plus_percent b2 S2) as [Hp Hq].
      destruct (b1 =? 32); cbn [app]; intros [= E1 E]; congruence.
    + destruct (N.eqb_spec b1 32) as [->|N1], (N.eqb_spec b2 32) as [->|N2];
        cbn [app]; try discriminate.
      * intros [= E]. f_equal. exact (IH E).
      * intros [= Eh El E].
        apply hex_digit_inj in Eh;
          [|apply N.Div0.div_lt_upper_bound; assumption
           |apply N.Div0.div_lt_upper_bound; assumption].
        apply hex_digit_inj in El; [|apply N.mod_lt; discriminate ..].
        f_equal; [|exact (IH E)].
        rewrite (N.Div0.div_mod b1 16), (N.Div0.div_mod b2 16). congruence.
Qed.

Lemma utf8_encode_char_inj c1 c2 b1 b2 r1 r2 :
  c1 < 0x110000 -> c2 < 0x110000 ->
  utf8_encode_char c1 = Ok b1 -> utf8_encode_char c2 = Ok b2 ->
  b1 ++ r1 = b2 ++ r2 ->
  c1 = c2 /\ r1 = r2.
Proof.
  intros H1 H2. unfold utf8_encode_char.
  destruct (N.ltb_spec c1 0x80) as [A1|A1];
    [|destruct (N.ltb_spec c1 0x800) as [B1|B1];
      [|destruct ((0xD800 <=? c1) && (c1 <=? 0xDFFF)); [discriminate|];
        destruct (N.ltb_spec c1 0x10000) as [C1|C1]]];
  (destruct (N.ltb_spec c2 0x80) as [A2|A2];
    [|destruct (N.ltb_spec c2 0x800) as [B2|B2];
      [|destruct ((0xD800 <=? c2) && (c2 <=? 0xDFFF)); [discriminate|];
        destruct (N.ltb_spec c2 0x10000) as [C2|C2]]]);
  intros [= <-] [= <-]; cbn [app]; intros E;
  injection E; intros; utf8_facts c1; utf8_facts c2;
  split; try assumption; try lia; exfalso; lia.
Qed.

Lemma utf8_encode_inj s1 : forall s2 bs,
  Forall (fun c => c < 0x110000) s1 -> Forall (fun c => c < 0x110000) s2 ->
  utf8_encode s1 = Ok bs -> utf8_encode s2 = Ok bs -> s1 = s2.
Proof.
  induction s1 as [|c1 s1 IH]; intros [|c2 s2] bs H1 H2; cbn [utf8_encode].
  - reflexivity.
  - intros [= <-].
    destruct (utf8_encode_char c2) as [b2|] eqn:E2; [|discriminate]. cbn [rbind].
    destruct (utf8_encode s2) as [r2|]; [|discriminate]. cbn [rbind].
    intros [= E]. exfalso. apply app_eq_nil in E as [-> _].
    unfold utf8_encode_char in E2.
    destruct (c2 <? 128); [discriminate|]. destruct (c2 <? 2048); [discriminate|].
    destruct ((55296 <=? c2) && (c2 <=? 57343)); [discriminate|].
    destruct (c2 <? 65536); discriminate.
  - destruct (utf8_encode_char c1) as [b1|] eqn:E1; [|discriminate]. cbn [rbind].
    destruct (utf8_encode s1) as [r1|]; [|discriminate]. cbn [rbind].
    intros [= <-] [= E]. exfalso. symmetry in E. apply app_eq_nil in E as [-> _].
    unfold utf8_encode_char in E1.
    destruct (c1 <? 128); [discriminate|]. destruct (c1 <? 2048); [discriminate|].
    destruct ((55296 <=? c1) && (c1 <=? 57343)); [discriminate|].
    destruct (c1 <? 65536); discriminate.
  - destruct (utf8_encode_char c1) as [b1|] eqn:E1; [|discriminate]. cbn [rbind].
    destruct (utf8_encode s1) as [r1|] eqn:R1; [|discriminate]. cbn [rbind].
    destruct (utf8_encode_char c2) as [b2|] eqn:E2; [|discriminate]. cbn [rbind].
    destruct (utf8_encode s2) as [r2|] eqn:R2; [|discriminate]. cbn [rbind].
    intros [= <-] [= E].
    destruct (utf8_encode_char_inj c1 c2 b1 b2 r1 r2
                (Forall_inv H1) (Forall_inv H2) E1 E2 (eq_sym E)) as [-> ->].
    f_equal. apply (IH s2 r2 (Forall_inv_tail H1) (Forall_inv_tail H2) eq_refl R2).
Qed.

Local Close Scope N_scope.

(** X11.  Two different addresses are never sent as the same URL: quoting
    loses nothing of the address. *)
Theorem different_addresses_get_different_urls s1 s2 q1 q2 :
  Forall (fun c => (c < 0x110000)%N) s1 ->
  Forall (fun c => (c < 0x110000)%N) s2 ->
  quote_plus (JStr s1) = Ok q1 ->
  quote_plus (JStr s2) = Ok q2 ->
  s1 <> s2 ->
  CENSUS_URL q1 <> CENSUS_URL q2.
Proof.
  intros H1 H2 Hq1 Hq2 Hne Hurl. apply Hne.
  unfold CENSUS_URL in Hurl. rewrite !app_assoc in Hurl.
  apply app_inv_tail in Hurl. apply app_inv_head in Hurl. subst q2.
  unfold quote_plus in Hq1, Hq2.
  destruct (utf8_encode s1) as [b1|] eqn:E1; [|discriminate].
  destruct (utf8_encode s2) as [b2|] eqn:E2; [|discriminate].
  cbn [rbind] in Hq1, Hq2. injection Hq1 as Hq1. injection Hq2 as Hq2.
  assert (b1 = b2).
  { apply quote_bytes_inj.
    - exact (utf8_encode_bytes s1 b1 H1 E1).
    - exact (utf8_encode_bytes s2 b2 H2 E2).
    - congruence. }
  subst b2. exact (utf8_encode_inj s1 s2 b1 H1 H2 E1 E2).
Qed.

(** * More on [load_json] *)

Lemma skip_ws_blank t : forallb is_ws t = true -> skip_ws t = [].
Proof.
  induction t as [|c t IH]; cbn [forallb skip_ws]; [reflexivity|].
  intros H. apply andb_true_iff in H as [Hc Ht]. rewrite Hc. exact (IH Ht).
Qed.

(** X12.  An input file that is empty, or holds white space only, is a
    [JSONDecodeError], not the [ValueError] of a root that is no array. *)
Theorem load_json_blank_file_is_a_decode_error path w (t : text) :
  files w !! path = Some t ->
  forallb is_ws t = true ->
  load_json path w = (Raise JSONDecodeError, w).
Proof.
  intros Hfile Hblank. unfold load_json, bind, json_load. rewrite Hfile.
  unfold json_loads. rewrite (skip_ws_blank t Hblank). reflexivity.
Qed.

(** X13.  A file that holds the JSON text of anything but an array (an object,
    a string, a number, [true], [false] or [null], as [json.dumps] writes
    them) is refused with the [ValueError] of [load_json], and nothing
    else happens. *)
Theorem load_json_refuses_a_root_that_is_no_array path w v :
  files w !! path = Some (json_dumps v) ->
  value_ok v = true ->
  (forall items, v <> JArr items) ->
  load_json path w
  = (Raise (ValueError (lit "Root element must be a JSON array")), w).
Proof.
  intros Hfile Hok Hroot.
  apply (load_json_not_array path w (json_dumps v) v Hfile); [|exact Hroot].
  apply json_loads_dumps. exact Hok.
Qed.

(** * More on [unique_latlon] *)

Lemma latlon_set_ok_pairs records : forall s s',
  latlon_set records s = Ok s' ->
  exists pairs, Forall2 (fun r p => latlon r = Ok p) records pairs.
Proof.
  induction records as [|r rs IH]; intros s s'; cbn [latlon_set].
  - intros _. exists []. constructor.
  - destruct (latlon r) as [p|] eqn:E; [|discriminate]. cbn [rbind].
    intros H. destruct (IH _ _ H) as [ps Hps].
    exists (p :: ps). constructor; assumption.
Qed.

Lemma unique_latlon_pairwise records pairs :
  Forall2 (fun r p => latlon r = Ok p) records pairs ->
  exists unique,
    unique_latlon records = Ok unique
    /\ (unique = true <-> pairwise_distinct pairs).
Proof.
  intros Hpairs.
  exists (Nat.eqb (length (add_all [] pairs)) (length records)).
  assert (Hlen : length records = length pairs) by (eapply Forall2_length; eauto).
  split.
  - unfold unique_latlon. rewrite (latlon_set_pairs _ _ _ Hpairs). reflexivity.
  - rewrite Nat.eqb_eq, Hlen.
    rewrite (add_all_full pairs []). cbn [length Nat.add]. split.
    + intros H i j p q Hij Hp Hq.
      destruct (Nat.lt_total i j) as [Hlt|[->|Hlt]]; [|contradiction|].
      * rewrite pair_eq_sym. exact (proj2 (H j q Hq) i p Hlt Hp).
      * exact (proj2 (H i p Hp) j q Hlt Hq).
    + intros H j p Hp. split; [intros x Hx; inversion Hx|].
      intros i q Hi Hq. apply (H j i p q); [lia|assumption|assumption].
Qed.

Lemma pairwise_distinct_perm pairs pairs' :
  pairs ≡ₚ pairs' -> pairwise_distinct pairs -> pairwise_distinct pairs'.
Proof.
  intros Hperm Hd. symmetry in Hperm.
  apply Permutation_inj in Hperm as (_ & f & Hinj & Hf).
  intros i j p q Hij Hp Hq. rewrite Hf in Hp, Hq.
  apply (Hd (f i) (f j) p q); [|assumption|assumption].
  intros E. apply Hij. exact (Hinj _ _ E).
Qed.

(** X14.  The verdict of [unique_latlon] does not depend on the order of the
    records. *)
Theorem unique_latlon_ignores_the_order records records' unique :
  unique_latlon records = Ok unique ->
  records ≡ₚ records' ->
  unique_latlon records' = Ok unique.
Proof.
  intros Hu Hperm.
  assert (Hex : exists pairs, Forall2 (fun r p => latlon r = Ok p) records pairs).
  { unfold unique_latlon in Hu.
    destruct (latlon_set records []) as [s|] eqn:E; [|discriminate].
    exact (latlon_set_ok_pairs records [] s E). }
  destruct Hex as [pairs Hpairs].
  destruct (Permutation_Forall2 Hperm Hpairs) as (pairs' & Hpp & Hpairs').
  destruct (unique_latlon_pairwise records pairs Hpairs) as (u & Hu1 & Hiff).
  destruct (unique_latlon_pairwise records' pairs' Hpairs') as (u' & Hu' & Hiff').
  rewrite Hu in Hu1. injection Hu1 as <-. rewrite Hu'. f_equal.
  destruct unique, u'; try reflexivity.
  - assert (H : false = true); [|discriminate H].
    apply (proj2 Hiff'). apply (pairwise_distinct_perm pairs pairs' Hpp).
    apply (proj1 Hiff). reflexivity.
  - assert (H : false = true); [|discriminate H].
    apply (proj2 Hiff). symmetry in Hpp.
    apply (pairwise_distinct_perm pairs' pairs Hpp).
    apply (proj1 Hiff'). reflexivity.
Qed.

Lemma latlon_with_both_keys r lat lon :
  getitem r (lit "latitude") = Ok lat ->
  getitem r (lit "longitude") = Ok lon ->
  latlon r = if hashable lat && hashable lon then Ok (lat, lon) else Raise TypeError.
Proof. intros Hlat Hlon. unfold latlon. rewrite Hlat, Hlon. reflexivity. Qed.

(** X15.  A coordinate that is an array or an object cannot go into the set:
    when every record has both coordinates and one of them is such a
    value, [unique_latlon] raises a [TypeError]. *)
Theorem unique_latlon_raises_on_an_unhashable_coordinate records :
  (forall r, r ∈ records ->
     exists lat lon, getitem r (lit "latitude") = Ok lat
                     /\ getitem r (lit "longitude") = Ok lon) ->
  (exists r lat lon,
     r ∈ records
     /\ getitem r (lit "latitude") = Ok lat
     /\ getitem r (lit "longitude") = Ok lon
     /\ (hashable lat = false \/ hashable lon = false)) ->
  unique_latlon records = Raise TypeError.
Proof.
  intros Hall Hbad. unfold unique_latlon.
  enough (H : forall s, latlon_set records s = Raise TypeError) by (rewrite H; reflexivity).
  induction records as [|r rs IH]; intros s.
  { destruct Hbad as (r & _ & _ & Hin & _). inversion Hin. }
  cbn [latlon_set].
  destruct (Hall r (list_elem_of_here _ _)) as (lat & lon & Hlat & Hlon).
  rewrite (latlon_with_both_keys r lat lon Hlat Hlon).
  destruct (hashable lat && hashable lon) eqn:Hh; [|reflexivity]. cbn [rbind].
  apply IH.
  - intros r' Hr'. apply Hall. apply list_elem_of_further. exact Hr'.
  - destruct Hbad as (r' & lat' & lon' & Hin & Hlat' & Hlon' & Hun).
    apply elem_of_cons in Hin as [->|Hin].
    + exfalso. rewrite Hlat in Hlat'. rewrite Hlon in Hlon'.
      injection Hlat' as <-. injection Hlon' as <-.
      apply andb_true_iff in Hh as [H1 H2]. destruct Hun; congruence.
    + exists r', lat', lon'. auto.
Qed.

(** * The output file is ASCII *)

Local Open Scope N_scope.

Lemma ascii_app s t : ascii_text s -> ascii_text t -> ascii_text (s ++ t).
Proof. intros Hs Ht. apply Forall_app. split; assumption. Qed.

Lemma ascii_cons c t : c < 128 -> ascii_text t -> ascii_text (c :: t).
Proof. intros Hc Ht. constructor; assumption. Qed.

Lemma ascii_digits_only t :
  Forall (fun c => is_digit c = true) t -> ascii_text t.
Proof.
  intros H. eapply Forall_impl; [exact H|].
  intros c Hc. cbv beta in Hc. apply is_digit_bounds in Hc. lia.
Qed.

Lemma digits_are_digits n : Forall (fun c => is_digit c = true) (digits n).
Proof. destruct (digits_spec n) as (c & t & -> & Hall & _). exact Hall. Qed.

Lemma ascii_digits n : ascii_text (digits n).
Proof. apply ascii_digits_only, digits_are_digits. Qed.

Lemma ascii_int_repr z : ascii_text (int_repr z).
Proof.
  destruct z; cbn [int_repr]; try apply ascii_digits.
  apply ascii_cons; [lia|apply ascii_digits].
Qed.

Lemma ascii_repeat c n : c < 128 -> ascii_text (repeat c n).
Proof.
  intros Hc. induction n as [|n IH]; cbn [repeat]; [constructor|].
  apply ascii_cons; assumption.
Qed.

Ltac ascii_lit := unfold ascii_text; cbn; repeat constructor.

Lemma strip_zeros_digits t :
  Forall (fun c => is_digit c = true) t ->
  Forall (fun c => is_digit c = true) (strip_zeros t).
Proof.
  induction 1 as [|c t Hc Ht IH]; [constructor|].
  cbn [strip_zeros].
  destruct c as [|p]; [constructor; assumption|].
  do 6 (destruct p as [p|p|]; try (constructor; assumption)).
  exact IH.
Qed.

Lemma ascii_exponent_repr x : ascii_text (exponent_repr x).
Proof.
  unfold exponent_repr. apply ascii_cons.
  - destruct (x <? 0)%Z; lia.
  - apply ascii_app; [|apply ascii_digits].
    destruct (Z.abs x <? 10)%Z; [ascii_lit|constructor].
Qed.

Lemma ascii_format_repr ds decpt :
  ascii_text ds -> ascii_text (format_repr ds decpt).
Proof.
  intros Hds. unfold format_repr.
  destruct ((decpt <=? -4)%Z || (16 <? decpt)%Z).
  - destruct ds as [|d [|d' tl]]; [constructor| |].
    + apply ascii_cons; [exact (Forall_inv Hds)|].
      apply ascii_cons; [lia|apply ascii_exponent_repr].
    + apply ascii_cons; [exact (Forall_inv Hds)|].
      apply ascii_cons; [lia|].
      apply ascii_app; [exact (Forall_inv_tail Hds)|].
      apply ascii_cons; [lia|apply ascii_exponent_repr].
  - destruct (decpt <=? 0)%Z.
    + apply ascii_app; [ascii_lit|].
      apply ascii_app; [apply ascii_repeat; lia|exact Hds].
    + destruct (Z.of_nat (length ds) <=? decpt)%Z.
      * apply ascii_app; [exact Hds|].
        apply ascii_app; [apply ascii_repeat; lia|ascii_lit].
      * apply ascii_app; [apply Forall_take; exact Hds|].
        apply ascii_cons; [lia|apply Forall_drop; exact Hds].
Qed.

Lemma ascii_sign_text s : ascii_text (sign_text s).
Proof. destruct s; ascii_lit. Qed.

Lemma ascii_candidate_text s c e10 : ascii_text (candidate_text s c e10).
Proof.
  unfold candidate_text. apply ascii_app; [apply ascii_sign_text|].
  apply ascii_format_repr, ascii_digits_only.
  apply Forall_rev, strip_zeros_digits, Forall_rev, digits_are_digits.
Qed.

Lemma ascii_shortest_from fuel s m e k : forall n t,
  shortest_from fuel s m e k n = Some t -> ascii_text t.
Proof.
  induction fuel as [|fuel IH]; intros n t; cbn [shortest_from]; [discriminate|].
  destruct (candidates m e k n) as [near other].
  destruct (reads_back _ (candidate_text s near (k - n))).
  { intros [= <-]. apply ascii_candidate_text. }
  destruct (reads_back _ (candidate_text s other (k - n))).
  { intros [= <-]. apply ascii_candidate_text. }
  apply IH.
Qed.

Lemma ascii_exact_text s m e : ascii_text (exact_text s m e).
Proof.
  unfold exact_text. destruct (0 <=? e)%Z.
  - apply ascii_app; [apply ascii_sign_text|].
    apply ascii_app; [apply ascii_digits|ascii_lit].
  - apply ascii_app; [apply ascii_sign_text|].
    apply ascii_app; [apply ascii_digits|].
    apply ascii_app; [ascii_lit|apply ascii_digits].
Qed.

Lemma ascii_floatstr f : ascii_text (floatstr f).
Proof.
  destruct f as [s|s| |s m e]; cbn [floatstr float_repr].
  - apply ascii_app; [apply ascii_sign_text|ascii_lit].
  - destruct s; ascii_lit.
  - ascii_lit.
  - destruct (shortest_from 17 s m e (decpt_of m e) 1) as [t|] eqn:E.
    + exact (ascii_shortest_from _ _ _ _ _ _ _ E).
    + apply ascii_exact_text.
Qed.

Lemma hex_lower_ascii n : n < 16 -> hex_lower n < 128.
Proof. intros Hn. unfold hex_lower. destruct (n <? 10); lia. Qed.

Lemma ascii_u_escape c : c < 0x10000 -> ascii_text (u_escape c).
Proof.
  intros Hc. unfold u_escape.
  assert (H16 : forall x, x mod 16 < 16) by (intros x; apply N.mod_lt; discriminate).
  repeat apply ascii_cons; try lia; try (apply hex_lower_ascii, H16).
  - apply hex_lower_ascii. apply N.Div0.div_lt_upper_bound. exact Hc.
  - constructor.
Qed.

Lemma ascii_escape_char c : c < 0x110000 -> ascii_text (escape_char c).
Proof.
  intros Hc. unfold escape_char.
  repeat match goal with
         | |- ascii_text (if ?c =? ?n then _ else _) =>
             destruct (c =? n); [ascii_lit|]
         end.
  destruct ((32 <=? c) && (c <=? 126)) eqn:Hp.
  { apply andb_true_iff in Hp as [_ Hp]. apply N.leb_le in Hp.
    apply ascii_cons; [lia|constructor]. }
  destruct (N.ltb_spec c 0x10000) as [Hs|Hs]; [apply ascii_u_escape; exact Hs|].
  cbv zeta.
  assert (Hq : (c - 0x10000) / 1024 < 1024)
    by (apply N.Div0.div_lt_upper_bound; lia).
  assert (Hr : (c - 0x10000) mod 1024 < 1024) by (apply N.mod_lt; discriminate).
  apply ascii_app; apply ascii_u_escape; lia.
Qed.

Lemma ascii_encode_string s :
  forallb (fun c => c <? 0x110000) s = true -> ascii_text (encode_string s).
Proof.
  intros Hs. unfold encode_string. apply ascii_cons; [lia|].
  apply ascii_app; [|ascii_lit].
  induction s as [|c s IH]; cbn [map concat]; [constructor|].
  cbn [forallb] in Hs. apply andb_true_iff in Hs as [Hc Hs].
  apply ascii_app; [apply ascii_escape_char, N.ltb_lt, Hc|exact (IH Hs)].
Qed.

Lemma ascii_newline_indent lvl : ascii_text (newline_indent lvl).
Proof. unfold newline_indent. apply ascii_cons; [lia|apply ascii_repeat; lia]. Qed.

Lemma ascii_encode v : forall lvl, in_unicode v = true -> ascii_text (encode lvl v).
Proof.
  induction v as [| b | n | f | s | items IH | fields IH] using value_ind;
    intros lvl Hv.
  - ascii_lit.
  - destruct b; ascii_lit.
  - apply ascii_int_repr.
  - apply ascii_floatstr.
  - apply ascii_encode_string. exact Hv.
  - destruct items as [|x xs]; [ascii_lit|]. rewrite encode_arr.
    cbn [in_unicode forallb] in Hv. apply andb_true_iff in Hv as [Hx Hxs].
    apply ascii_cons; [lia|].
    apply ascii_app; [apply ascii_newline_indent|].
    apply ascii_app; [apply (Forall_inv IH); exact Hx|].
    apply ascii_app; [|apply ascii_app; [apply ascii_newline_indent|ascii_lit]].
    apply Forall_inv_tail in IH. clear Hx.
    induction xs as [|y ys IHys]; cbn [encode_items]; [constructor|].
    cbn [forallb] in Hxs. apply andb_true_iff in Hxs as [Hy Hys].
    apply ascii_cons; [lia|].
    apply ascii_app; [apply ascii_newline_indent|].
    apply ascii_app; [apply (Forall_inv IH); exact Hy|].
    apply IHys; [exact (Forall_inv_tail IH)|exact Hys].
  - destruct fields as [|[k x] kvs]; [ascii_lit|]. rewrite encode_obj.
    cbn [in_unicode forallb fst snd] in Hv.
    apply andb_true_iff in Hv as [Hkx Hkvs]. apply andb_true_iff in Hkx as [Hk Hx].
    apply ascii_cons; [lia|].
    apply ascii_app; [apply ascii_newline_indent|].
    apply ascii_app; [apply ascii_encode_string; exact Hk|].
    apply ascii_app; [ascii_lit|].
    apply ascii_app; [apply (Forall_inv IH); exact Hx|].
    apply ascii_app; [|apply ascii_app; [apply ascii_newline_indent|ascii_lit]].
    apply Forall_inv_tail in IH. clear Hx Hk.
    induction kvs as [|[k' y] ys IHys]; cbn [encode_members]; [constructor|].
    cbn [forallb fst snd] in Hkvs.
    apply andb_true_iff in Hkvs as [Hky Hys]. apply andb_true_iff in Hky as [Hk' Hy].
    apply ascii_cons; [lia|].
    apply ascii_app; [apply ascii_newline_indent|].
    apply ascii_app; [apply ascii_encode_string; exact Hk'|].
    apply ascii_app; [ascii_lit|].
    apply ascii_app; [apply (Forall_inv IH); exact Hy|].
    apply IHys; [exact (Forall_inv_tail IH)|exact Hys].
Qed.

Local Close Scope N_scope.

(** X16.  The file step 4 writes holds ASCII characters only, whatever the
    records hold: [json.dumps] escapes every other character of a string,
    so that the encoding given to [write_text] has nothing left to
    encode. *)
Theorem written_file_is_ascii outp records w :
  writable w outp = true ->
  forallb in_unicode records = true ->
  exists w' t,
    write_verified outp records w = (Ok tt, w')
    /\ files w' !! outp = Some t
    /\ ascii_text t.
Proof.
  intros Hw Hrec. rewrite (write_verified_world outp records w Hw).
  eexists _, _. split; [reflexivity|]. split; [apply lookup_insert_eq|].
  apply ascii_encode. exact Hrec.
Qed.

(** * The fields of a record keep their order *)

Lemma dict_lookup_keys k d : dict_lookup k d = None <-> k ∉ keys d.
Proof.
  unfold keys. induction d as [|[k' v] d IH]; cbn [dict_lookup map fst].
  - split; [intros _ H; inversion H|reflexivity].
  - destruct (decide (k' = k)) as [->|Hne].
    + split; [discriminate|]. intros H. exfalso. apply H. left.
    + rewrite IH. rewrite not_elem_of_cons.
      split; [intros H; split; [intros E; exact (Hne (eq_sym E))|exact H]|intros [_ H]; exact H].
Qed.

Lemma dict_set_keys k v d :
  keys (dict_set k v d) = if decide (k ∈ keys d) then keys d else keys d ++ [k].
Proof.
  unfold keys. induction d as [|[k' v'] d IH]; cbn [dict_set map fst].
  - destruct (decide (k ∈ [])) as [H|_]; [inversion H|reflexivity].
  - destruct (decide (k' = k)) as [->|Hne]; cbn [map fst].
    + destruct (decide (k ∈ k :: map fst d)) as [_|H]; [reflexivity|].
      exfalso. apply H. left.
    + rewrite IH.
      destruct (decide (k ∈ map fst d)) as [Hin|Hout];
        destruct (decide (k ∈ k' :: map fst d)) as [Hin'|Hout']; try reflexivity.
      * exfalso. apply Hout'. right. exact Hin.
      * exfalso. apply elem_of_cons in Hin' as [->|Hin']; [congruence|contradiction].
Qed.

Lemma three_sets_keys (a b c : text) va vb vc d :
  a ∈ keys d -> b <> c ->
  keys (dict_set c vc (dict_set b vb (dict_set a va d)))
  = keys d ++ filter (fun k => k ∉ keys d) [b; c].
Proof.
  intros Ha Hbc. rewrite !dict_set_keys.
  rewrite (decide_True (P := a ∈ keys d)) by exact Ha.
  rewrite filter_cons, filter_cons, filter_nil.
  destruct (decide (b ∈ keys d)) as [Hb|Hb];
    destruct (decide (c ∈ keys d)) as [Hc|Hc].
  - rewrite (decide_False (P := b ∉ keys d)) by (intros H; exact (H Hb)).
    rewrite (decide_False (P := c ∉ keys d)) by (intros H; exact (H Hc)).
    rewrite app_nil_r. reflexivity.
  - rewrite (decide_False (P := b ∉ keys d)) by (intros H; exact (H Hb)).
    rewrite (decide_True (P := c ∉ keys d)) by exact Hc. reflexivity.
  - rewrite (decide_True (P := c ∈ keys d ++ [b]))
      by (apply elem_of_app; left; exact Hc).
    rewrite (decide_True (P := b ∉ keys d)) by exact Hb.
    rewrite (decide_False (P := c ∉ keys d)) by (intros H; exact (H Hc)).
    reflexivity.
  - rewrite (decide_False (P := c ∈ keys d ++ [b])).
    + rewrite (decide_True (P := b ∉ keys d)) by exact Hb.
      rewrite (decide_True (P := c ∉ keys d)) by exact Hc.
      rewrite <- app_assoc. reflexivity.
    + intros H. apply elem_of_app in H as [H|H]; [exact (Hc H)|].
      apply list_elem_of_singleton in H. exact (Hbc (eq_sym H)).
Qed.

(** X17.  The loop never reorders or drops the fields of a record: the record
    comes out with the fields it had, in their order, followed, after a
    match, by ["latitude"] and ["longitude"] where it had none. *)
Theorem loop_keeps_the_fields_in_order pause d failures w rec' failures' w' :
  loop_body pause (JObj d) failures w = (Ok (rec', failures'), w') ->
  exists d',
    rec' = JObj d'
    /\ (keys d' = keys d
        \/ keys d'
           = keys d
             ++ filter (fun k => k ∉ keys d) [lit "latitude"; lit "longitude"]).
Proof.
  unfold loop_body, bind, lift. cbn [getitem].
  destruct (dict_lookup (lit "address") d) as [ad|] eqn:Had; [|discriminate].
  assert (Hin : lit "address" ∈ keys d).
  { destruct (decide (lit "address" ∈ keys d)) as [H|H]; [exact H|].
    apply dict_lookup_keys in H. congruence. }
  destruct (geocode ad w) as [[[[[std lat] lon]|]|e] w1]; [| |discriminate].
  - cbn [setitem]. unfold ret.
    destruct (time_sleep pause w1) as [[[]|] w2]; [|discriminate].
    intros [= <- _ _]. eexists. split; [reflexivity|]. right.
    apply three_sets_keys; [exact Hin|]. keys_ne.
  - destruct (dict_lookup (lit "state") d); [|discriminate]. cbn [rbind]. unfold ret.
    destruct (time_sleep pause w1) as [[[]|] w2]; [|discriminate].
    intros [= <- _ _]. eexists. split; [reflexivity|]. left. reflexivity.
Qed.

(** * Rounding to six decimals *)

(** X18.  A coordinate of magnitude below half a millionth is rounded to a
    zero of its sign: [-0.0] for a negative one. *)
Theorem py_round_of_a_tiny_coordinate_is_a_signed_zero s m e :
  e < 0 ->
  2 * (Zpos m * 10 ^ 6) < 2 ^ (- e) ->
  py_round (S754_finite s m e) 6 = S754_zero s.
Proof.
  intros He Hsmall. unfold py_round.
  rewrite (proj2 (Z.leb_gt 0 e) He). unfold div_half_even.
  assert (Hpos : 0 < 2 ^ (- e)) by (apply Z.pow_pos_nonneg; lia).
  assert (Hm : 0 <= Zpos m * 10 ^ 6) by lia.
  pose proof (Z.div_small (Zpos m * 10 ^ 6) (2 ^ (- e))) as Hq.
  pose proof (Z.mod_small (Zpos m * 10 ^ 6) (2 ^ (- e))) as Hr.
  unfold Z.div, Z.modulo in Hq, Hr.
  destruct (Z.div_eucl (Zpos m * 10 ^ 6) (2 ^ (- e))) as [q r].
  rewrite Hq, Hr by lia.
  rewrite (proj2 (Z.compare_lt_iff _ _) Hsmall). reflexivity.
Qed.


(** * What [main] leaves alone, whatever happens *)

Lemma frame_refl outp w : frame outp w w.
Proof.
  repeat split.
  - exists []. rewrite app_nil_r. split; [reflexivity|constructor].
  - exists []. rewrite app_nil_r. reflexivity.
Qed.

Lemma frame_trans outp w1 w2 w3 :
  frame outp w1 w2 -> frame outp w2 w3 -> frame outp w1 w3.
Proof.
  intros (Hf1 & Hw1 & Hs1 & (u1 & Hu1 & Hc1) & (l1 & Hl1))
         (Hf2 & Hw2 & Hs2 & (u2 & Hu2 & Hc2) & (l2 & Hl2)).
  repeat split.
  - intros p Hp. rewrite (Hf2 p Hp). exact (Hf1 p Hp).
  - congruence.
  - congruence.
  - exists (u1 ++ u2). rewrite Hu2, Hu1, app_assoc. split; [reflexivity|].
    apply Forall_app. split; assumption.
  - exists (l1 ++ l2). rewrite Hl2, Hl1, app_assoc. reflexivity.
Qed.

Lemma keeps_ret {A} outp (a : A) : keeps outp (ret a).
Proof. intros w. apply frame_refl. Qed.

Lemma keeps_raise {A} outp e : keeps outp (@raise A e).
Proof. intros w. apply frame_refl. Qed.

Lemma keeps_lift {A} outp (r : result A) : keeps outp (lift r).
Proof. intros w. apply frame_refl. Qed.

Lemma keeps_bind {A B} outp (c : IO A) (k : A -> IO B) :
  keeps outp c -> (forall a, keeps outp (k a)) -> keeps outp (bind c k).
Proof.
  intros Hc Hk w. unfold bind. specialize (Hc w).
  destruct (c w) as [[a|e] w1]; cbn [snd] in Hc |- *; [|exact Hc].
  exact (frame_trans outp w w1 _ Hc (Hk a w1)).
Qed.

Lemma keeps_print outp t : keeps outp (print t).
Proof.
  intros w. cbn. repeat split.
  - exists []. rewrite app_nil_r. split; [reflexivity|constructor].
  - exists [t]. reflexivity.
Qed.

Lemma keeps_time_sleep outp secs : keeps outp (time_sleep secs).
Proof.
  intros w. unfold time_sleep.
  destruct (sleep_check secs); cbn [snd]; [|apply frame_refl].
  repeat split; cbn.
  - exists []. rewrite app_nil_r. split; [reflexivity|constructor].
  - exists []. rewrite app_nil_r. reflexivity.
Qed.

Lemma keeps_requests_get outp q : keeps outp (requests_get (CENSUS_URL q)).
Proof.
  intros w. cbn. repeat split.
  - exists [CENSUS_URL q]. split; [reflexivity|].
    constructor; [exists q; reflexivity|constructor].
  - exists []. rewrite app_nil_r. reflexivity.
Qed.

Lemma keeps_write_text outp t : keeps outp (write_text outp t).
Proof.
  intros w. unfold write_text.
  destruct (writable w outp); cbn [snd]; [|apply frame_refl].
  repeat split; cbn.
  - intros p Hp. apply lookup_insert_ne. congruence.
  - exists []. rewrite app_nil_r. split; [reflexivity|constructor].
  - exists []. rewrite app_nil_r. reflexivity.
Qed.

Lemma keeps_load_json outp path : keeps outp (load_json path).
Proof. intros w. rewrite load_json_world. apply frame_refl. Qed.

Ltac keeps_step :=
  first [ apply keeps_bind; [|intros ?]
        | apply keeps_ret | apply keeps_raise | apply keeps_lift
        | apply keeps_print | apply keeps_time_sleep
        | apply keeps_requests_get | apply keeps_write_text
        | apply keeps_load_json ].

Lemma keeps_geocode outp address : keeps outp (geocode address).
Proof.
  unfold geocode. repeat keeps_step.
  destruct (negb (truthy _)); repeat keeps_step.
Qed.

Lemma keeps_loop_body outp pause rec failures :
  keeps outp (loop_body pause rec failures).
Proof.
  unfold loop_body.
  apply keeps_bind; [apply keeps_lift|]. intros address.
  apply keeps_bind; [apply keeps_geocode|]. intros result.
  apply keeps_bind; [|intros out; repeat keeps_step].
  destruct result as [[[std_addr lat] lon]|]; repeat keeps_step.
Qed.

Lemma keeps_geocode_records outp pause records : forall failures,
  keeps outp (geocode_records pause records failures).
Proof.
  induction records as [|rec rest IH]; intros failures; cbn [geocode_records].
  - apply keeps_ret.
  - apply keeps_bind; [apply keeps_loop_body|]. intros [rec' failures'].
    apply keeps_bind; [apply IH|]. intros [rest' failures'']. apply keeps_ret.
Qed.

Lemma keeps_print_each outp failures : keeps outp (print_each failures).
Proof.
  induction failures as [|bad rest IH]; cbn [print_each]; [apply keeps_ret|].
  apply keeps_bind; [apply keeps_print|]. intros _. exact IH.
Qed.

Lemma keeps_report outp failures : keeps outp (report failures).
Proof.
  destruct failures as [|bad rest]; [apply keeps_print|].
  unfold report. apply keeps_bind; [apply keeps_print|]. intros _.
  apply keeps_print_each.
Qed.

Lemma keeps_main args : keeps (output args) (main args).
Proof.
  unfold main. cbv zeta.
  apply keeps_bind; [apply keeps_load_json|]. intros records.
  apply keeps_bind; [apply keeps_print|]. intros _.
  apply keeps_bind; [apply keeps_geocode_records|]. intros [records' failures].
  apply keeps_bind.
  { unfold write_verified. repeat keeps_step. }
  intros _. apply keeps_bind; [|intros _; apply keeps_report].
  unfold reparse_and_check.
  apply keeps_bind; [apply keeps_load_json|]. intros _.
  apply keeps_bind; [apply keeps_lift|]. intros unique.
  destruct unique; apply keeps_print.
Qed.

(** X19.  Whatever the input, the service and the outcome, [main] leaves
    every file but the output file as it was: the input file is only read
    (unless it is the output file as well). *)
Theorem main_touches_no_file_but_the_output args w p :
  p <> output args ->
  files (snd (main args w)) !! p = files w !! p.
Proof.
  intros Hp. destruct (keeps_main args w) as (Hfiles & _). exact (Hfiles p Hp).
Qed.


(** ** Requests and pauses, whatever happens *)

Lemma geocode_sent address w :
  naps (snd (geocode address w)) = naps w
  /\ (sent (snd (geocode address w)) = sent w
        /\ (exists e, fst (geocode address w) = Raise e)
      \/ length (sent (snd (geocode address w))) = S (length (sent w))).
Proof.
  rewrite geocode_run. destruct (quote_plus address) as [q|e]; cbn [fst snd].
  - split; [reflexivity|]. right. cbn. rewrite length_app. cbn. lia.
  - split; [reflexivity|]. left. split; [reflexivity|]. exists e. reflexivity.
Qed.

(** One turn of the loop: it returns after one request and one pause, or
    raises after at most one request and no pause. *)
Lemma loop_body_paced pause rec failures w :
  match fst (loop_body pause rec failures w) with
  | Ok _ => paced pause 1 1 w (snd (loop_body pause rec failures w))
  | Raise _ =>
      paced pause 0 0 w (snd (loop_body pause rec failures w))
      \/ paced pause 1 0 w (snd (loop_body pause rec failures w))
  end.
Proof.
  unfold loop_body, bind, lift.
  destruct (getitem rec (lit "address")) as [address|e]; cbn [fst snd].
  2: { left. split; [lia|]. cbn. rewrite app_nil_r. reflexivity. }
  destruct (geocode_sent address w) as [Hn Hs].
  destruct (geocode address w) as [[result|e] w1]; cbn [fst snd] in *.
  2: { destruct Hs as [[Hs _]|Hs]; [left|right]; split;
         try (cbn; rewrite app_nil_r; exact Hn); rewrite ?Hs; lia. }
  destruct Hs as [[_ [e He]]|Hs]; [discriminate He|].
  assert (Hraise : paced pause 0 0 w w1 \/ paced pause 1 0 w w1).
  { right. split; [lia|]. cbn. rewrite app_nil_r. exact Hn. }
  assert (Hsleep : forall (out : value * list text),
            match fst ((let* _ := time_sleep pause in ret out) w1) with
            | Ok _ => paced pause 1 1 w (snd ((let* _ := time_sleep pause in ret out) w1))
            | Raise _ =>
                paced pause 0 0 w (snd ((let* _ := time_sleep pause in ret out) w1))
                \/ paced pause 1 0 w (snd ((let* _ := time_sleep pause in ret out) w1))
            end).
  { intros out. unfold bind, time_sleep, ret.
    destruct (sleep_check pause); cbn [fst snd]; [|exact Hraise].
    split; cbn; [lia|]. rewrite Hn. reflexivity. }
  unfold bind in Hsleep.
  destruct result as [[[std_addr lat] lon]|].
  - destruct (setitem rec (lit "address") std_addr) as [rec1|]; cbn [fst snd];
      [|exact Hraise].
    destruct (setitem rec1 (lit "latitude") _) as [rec2|]; cbn [fst snd];
      [|exact Hraise].
    destruct (setitem rec2 (lit "longitude") _) as [rec3|]; cbn [fst snd];
      [|exact Hraise].
    unfold ret at 1. apply Hsleep.
  - destruct (getitem rec (lit "state")) as [st|]; cbn [fst snd]; [|exact Hraise].
    unfold ret at 1. apply Hsleep.
Qed.

Lemma geocode_records_paced pause records : forall failures w,
  exists n k,
    paced pause n k w (snd (geocode_records pause records failures w))
    /\ (n <= length records)%nat /\ (k <= n <= S k)%nat.
Proof.
  induction records as [|rec rest IH]; intros failures w; cbn [geocode_records].
  - exists 0%nat, 0%nat. unfold paced, ret. cbn [snd repeat length].
    rewrite app_nil_r. repeat split; lia.
  - unfold bind at 1. pose proof (loop_body_paced pause rec failures w) as Hb.
    destruct (loop_body pause rec failures w) as [[[rec' failures']|e] w1];
      cbn [fst snd] in Hb |- *.
    + destruct (IH failures' w1) as (n & k & [Hs Hn] & Hle & Hk).
      destruct Hb as [Hs1 Hn1].
      exists (S n), (S k). unfold bind at 1. cbn [length].
      destruct (geocode_records pause rest failures' w1) as [[[rest' failures'']|e] w2];
        unfold ret; cbn [fst snd] in *;
        (split; [split|split; lia]);
        [rewrite Hs, Hs1; lia
        |rewrite Hn, Hn1, <- app_assoc; reflexivity
        |rewrite Hs, Hs1; lia
        |rewrite Hn, Hn1, <- app_assoc; reflexivity].
    + destruct Hb as [Hb|Hb]; [exists 0%nat, 0%nat|exists 1%nat, 0%nat];
        (split; [exact Hb|cbn [length]; lia]).
Qed.

Lemma quiet_bind {A B} (c : IO A) (k : A -> IO B) :
  quiet c -> (forall a, quiet (k a)) -> quiet (bind c k).
Proof.
  intros Hc Hk w. unfold bind. specialize (Hc w).
  destruct (c w) as [[a|e] w1]; cbn [snd] in Hc |- *; [|exact Hc].
  destruct (Hk a w1) as [Hs Hn]. destruct Hc as [Hs1 Hn1]. split; congruence.
Qed.

Lemma quiet_print t : quiet (print t).
Proof. intros w. split; reflexivity. Qed.

Lemma quiet_lift {A} (r : result A) : quiet (lift r).
Proof. intros w. split; reflexivity. Qed.

Lemma quiet_load_json path : quiet (load_json path).
Proof. intros w. rewrite load_json_world. split; reflexivity. Qed.

Lemma quiet_write_verified outp records : quiet (write_verified outp records).
Proof.
  unfold write_verified. apply quiet_bind; [|intros _; apply quiet_print].
  intros w. unfold write_text. destruct (writable w outp); split; reflexivity.
Qed.

Lemma quiet_print_each failures : quiet (print_each failures).
Proof.
  induction failures as [|bad rest IH]; cbn [print_each].
  - intros w. split; reflexivity.
  - apply quiet_bind; [apply quiet_print|]. intros _. exact IH.
Qed.

Lemma quiet_report failures : quiet (report failures).
Proof.
  destruct failures as [|bad rest]; [apply quiet_print|].
  unfold report. apply quiet_bind; [apply quiet_print|]. intros _.
  apply quiet_print_each.
Qed.

Lemma quiet_reparse_and_check outp records : quiet (reparse_and_check outp records).
Proof.
  unfold reparse_and_check.
  apply quiet_bind; [apply quiet_load_json|]. intros _.
  apply quiet_bind; [apply quiet_lift|]. intros unique.
  destruct unique; apply quiet_print.
Qed.

(** X21.  Whatever the service answers and however the run ends, [main]
    sends at most one request per record loaded, and sleeps the pause
    after every request but, at most, the last one sent: no two requests
    go out without a pause between them. *)
Theorem main_paces_its_requests args w records :
  fst (load_json (input args) w) = Ok records ->
  exists n k,
    length (sent (snd (main args w))) = (length (sent w) + n)%nat
    /\ naps (snd (main args w)) = naps w ++ repeat (pause args) k
    /\ (n <= length records)%nat
    /\ (k <= n <= S k)%nat.
Proof.
  intros Hload. remember (snd (main args w)) as w' eqn:Hw'.
  rewrite (main_after_load args w records Hload) in Hw'.
  set (w1 := log_print _ w) in Hw'.
  destruct (geocode_records_paced (pause args) records [] w1)
    as (n & k & [Hs Hn] & Hle & Hk).
  exists n, k. unfold bind at 1 in Hw'.
  destruct (geocode_records (pause args) records [] w1)
    as [[[records' failures]|e] w2]; cbn [fst snd] in *.
  - assert (Hq : quiet (let* _ := write_verified (output args) records' in
                        let* _ := reparse_and_check (output args) records' in
                        report failures)).
    { apply quiet_bind; [apply quiet_write_verified|]. intros _.
      apply quiet_bind; [apply quiet_reparse_and_check|]. intros _.
      apply quiet_report. }
    destruct (Hq w2) as [Hs2 Hn2]. rewrite <- Hw' in Hs2, Hn2.
    rewrite Hs2, Hn2, Hs, Hn. repeat split; lia.
  - subst w'. rewrite Hs, Hn. repeat split; lia.
Qed.

End Script.

(* ===================================================================== *)
(** * The claims at concrete inputs                                       *)
(* ===================================================================== *)

(** C1, as stated, fails: on a response whose first match has coordinates
    with seven decimals, [geocode] returns them as they are, and the pair
    rounded to six decimals is a different one. *)
Lemma geocode_does_not_round :
  let w := world_with (lit "in.json") ohio_input (always columbus_body_7) in
  let y := float_of_decimal false 399613321 (-7) in
  let x := float_of_decimal true 829987942 (-7) in
  fst (geocode decimal_float_of_str (JStr (lit "Columbus, OH")) w)
    = Ok (Some (JStr (lit "COLUMBUS, OH"), y, x))
  /\ fst (geocode decimal_float_of_str (JStr (lit "Columbus, OH")) w)
    <> Ok (Some (JStr (lit "COLUMBUS, OH"), py_round y 6, py_round x 6))
  /\ py_round y 6 = float_of_decimal false 39961332 (-6)
  /\ py_round x 6 = float_of_decimal true 82998794 (-6).
Proof.
  cbv zeta. split; [vm_compute; reflexivity|].
  split; [|split; vm_compute; reflexivity].
  intros H. vm_compute in H. discriminate H.
Qed.

(** C1, as amended, on the end-to-end scenario: the match, with the
    service's [x] and [y] swapped. *)
Lemma geocode_returns_first_match_unrounded_witness :
  fst (geocode decimal_float_of_str (JStr (lit "Columbus, OH"))
         (world_with (lit "in.json") ohio_input (always columbus_body)))
  = Ok (Some (JStr (lit "COLUMBUS, OH"),
              float_of_decimal false 39961332 (-6),
              float_of_decimal true 82998794 (-6))).
Proof.
  pose (y := float_of_decimal false 39961332 (-6)).
  pose (x := float_of_decimal true 82998794 (-6)).
  pose (cd := [(lit "x", JFloat x); (lit "y", JFloat y)]).
  pose (bd := [(lit "matchedAddress", JStr (lit "COLUMBUS, OH"));
               (lit "coordinates", JObj cd)]).
  pose (res := [(lit "addressMatches", JArr [JObj bd])]).
  refine (proj1 (proj2 (geocode_returns_first_match_unrounded
                          decimal_float_of_str (JStr (lit "Columbus, OH"))
                          (lit "Columbus%2C+OH")
                          (world_with (lit "in.json") ohio_input (always columbus_body))
                          (answer columbus_body)
                          [(lit "result", JObj res)] res _ _ _ _ _))
            bd [] cd (JStr (lit "COLUMBUS, OH")) (JFloat y) (JFloat x) y x
            _ _ _ _ _ _ _);
    vm_compute; reflexivity.
Defined.

(** C2, as stated, fails for a status that is neither 2xx nor an error:
    on the end-to-end scenario answered with status 301, [main] returns
    and the output file holds the corrected record. *)
Lemma moved_status_does_not_halt :
  let w := world_with (input default_args) ohio_input
             (fun _ _ => Ok (answer_with 301 columbus_body)) in
  fst (main decimal_float_of_str scalar_str_of default_args w) = Ok tt
  /\ files (snd (main decimal_float_of_str scalar_str_of default_args w))
       !! output default_args
     = Some (json_dumps
               (JArr [corrected ohio (JStr (lit "COLUMBUS, OH"))
                        (float_of_decimal false 39961332 (-6))
                        (float_of_decimal true 82998794 (-6))])).
Proof. split; vm_compute; reflexivity. Qed.

(** C2, as amended, on two records: the second call fails in transport,
    or is answered with status 503.  [main] ends with the
    [RequestException], or with the [HTTPError], and no file has been
    written. *)
Lemma network_failure_halts_run_unwritten_witness :
  (let w := world_with (input default_args) two_states_input second_call_fails in
   exists w',
     main decimal_float_of_str scalar_str_of default_args w
       = (Raise RequestException, w')
     /\ files w' = files w)
  /\ (let w := world_with (input default_args) two_states_input
                 second_call_unavailable in
      exists w',
        main decimal_float_of_str scalar_str_of default_args w
          = (Raise HTTPError, w')
        /\ files w' = files w).
Proof.
  assert (Hohio : is_record ohio).
  { exists [(lit "state", JStr (lit "Ohio")); (lit "address", JStr (lit "Columbus, OH"));
            (lit "latitude", JInt 0); (lit "longitude", JInt 0)],
           (JStr (lit "Ohio")), (JStr (lit "Columbus, OH")).
    repeat split; reflexivity. }
  split; cbv zeta.
  - refine (proj1 (network_failure_halts_run_unwritten
                     decimal_float_of_str scalar_str_of default_args
                     (world_with (input default_args) two_states_input
                        second_call_fails)
                     [ohio] utah [] RequestException _ _ _ _)).
    + vm_compute; reflexivity.
    + vm_compute; reflexivity.
    + intros [|i] r H; simpl in H; [injection H as <-|destruct i; discriminate H].
      split; [exact Hohio|]. exists None. vm_compute; reflexivity.
    + exists (JStr (lit "Salt Lake City, UT")), (lit "Salt+Lake+City%2C+UT").
      split; [reflexivity|]. split; [vm_compute; reflexivity|].
      left. reflexivity.
  - refine (proj1 (network_failure_halts_run_unwritten
                     decimal_float_of_str scalar_str_of default_args
                     (world_with (input default_args) two_states_input
                        second_call_unavailable)
                     [ohio] utah [] HTTPError _ _ _ _)).
    + vm_compute; reflexivity.
    + vm_compute; reflexivity.
    + intros [|i] r H; simpl in H; [injection H as <-|destruct i; discriminate H].
      split; [exact Hohio|]. exists None. vm_compute; reflexivity.
    + exists (JStr (lit "Salt Lake City, UT")), (lit "Salt+Lake+City%2C+UT").
      split; [reflexivity|]. split; [vm_compute; reflexivity|].
      right. exists (answer_with 503 no_match_body).
      split; [reflexivity|]. split; [cbn; lia|reflexivity].
Defined.

(** C3 at the failing input: the file holds [[1]], an array whose element is
    not an object, and [load_json] returns it instead of raising. *)
Theorem load_json_accepts_array_of_non_objects :
  let w := world_with (lit "in.json") (lit "[1]") (always no_match_body) in
  load_json (lit "in.json") w = (Ok [JInt 1], w).
Proof. vm_compute. reflexivity. Qed.


(** C5 on the second end-to-end scenario: two records for which the
    geocoder finds nothing.  [main] returns normally, and both records are
    in the output file as they were in the input. *)
Lemma no_match_is_reported_not_raised_witness :
  let w := world_with (input default_args) two_states_input (always no_match_body) in
  exists w',
    main decimal_float_of_str scalar_str_of default_args w = (Ok tt, w')
    /\ files w' !! output default_args = Some (json_dumps (JArr [ohio; utah]))
    /\ (lit " " ++ [0x2022%N; 32%N] ++ lit "Ohio | Columbus, OH") ∈ stdout w'
    /\ (lit " " ++ [0x2022%N; 32%N] ++ lit "Utah | Salt Lake City, UT") ∈ stdout w'.
Proof.
  cbv zeta.
  destruct (no_match_is_reported_not_raised decimal_float_of_str scalar_str_of
              default_args
              (world_with (input default_args) two_states_input (always no_match_body))
              [ohio; utah])
    as (records' & failures & w1 & Hrun & _ & _ & _ & _ & Hmain).
  - vm_compute; reflexivity.
  - vm_compute; reflexivity.
  - intros [|[|i]] r H; simpl in H;
      [injection H as <-|injection H as <-|destruct i; discriminate H].
    + split; [|exists None; vm_compute; reflexivity].
      exists [(lit "state", JStr (lit "Ohio")); (lit "address", JStr (lit "Columbus, OH"));
              (lit "latitude", JInt 0); (lit "longitude", JInt 0)],
             (JStr (lit "Ohio")), (JStr (lit "Columbus, OH")).
      repeat split; reflexivity.
    + split; [|exists None; vm_compute; reflexivity].
      exists [(lit "state", JStr (lit "Utah")); (lit "address", JStr (lit "Salt Lake City, UT"));
              (lit "latitude", JInt 0); (lit "longitude", JInt 0)],
             (JStr (lit "Utah")), (JStr (lit "Salt Lake City, UT")).
      repeat split; reflexivity.
  - assert (E : fst (geocode_records decimal_float_of_str scalar_str_of
                       (pause default_args) [ohio; utah] []
                       (log_print (parsed_line 2)
                          (world_with (input default_args) two_states_input
                             (always no_match_body))))
                = Ok ([ohio; utah],
                      [lit "Ohio | Columbus, OH"; lit "Utah | Salt Lake City, UT"]))
      by (vm_compute; reflexivity).
    cbn [length] in Hrun. rewrite Hrun in E. cbn [fst] in E.
    injection E as -> ->.
    destruct Hmain as (w' & Hm & Hfile & Hout).
    + reflexivity.
    + vm_compute; reflexivity.
    + exists false. vm_compute; reflexivity.
    + exists w'. split; [exact Hm|]. split; [exact Hfile|].
      split; apply Hout; [left|right; left].
Defined.

(** C6 on the end-to-end scenario, the geocoder answering with seven
    decimals: the record of Ohio comes out with the coordinates rounded
    to six, which are other floats than the ones returned. *)
Lemma match_overwrites_address_and_coordinates_witness :
  let w := world_with (input default_args) ohio_input (always columbus_body_7) in
  let y := float_of_decimal false 399613321 (-7) in
  let x := float_of_decimal true 829987942 (-7) in
  let lat := float_of_decimal false 39961332 (-6) in
  let lon := float_of_decimal true 82998794 (-6) in
  exists rec' failures' w',
    geocode_records decimal_float_of_str scalar_str_of DEFAULT_PAUSE [ohio] [] w
      = (Ok ([rec'], failures'), w')
    /\ getitem rec' (lit "state") = Ok (JStr (lit "Ohio"))
    /\ getitem rec' (lit "address") = Ok (JStr (lit "COLUMBUS, OH"))
    /\ getitem rec' (lit "latitude") = Ok (JFloat lat)
    /\ getitem rec' (lit "longitude") = Ok (JFloat lon)
    /\ rounded_to 6 y lat /\ rounded_to 6 x lon
    /\ y <> lat /\ x <> lon.
Proof.
  cbv zeta.
  set (w := world_with (input default_args) ohio_input (always columbus_body_7)).
  destruct (match_overwrites_address_and_coordinates decimal_float_of_str scalar_str_of
              DEFAULT_PAUSE [ohio] [] w)
    as (records' & failures' & w' & Hrun & Hrecs).
  - vm_compute; reflexivity.
  - intros [|i] r H; simpl in H; [injection H as <-|destruct i; discriminate H].
    split.
    + exists [(lit "state", JStr (lit "Ohio")); (lit "address", JStr (lit "Columbus, OH"));
              (lit "latitude", JInt 0); (lit "longitude", JInt 0)],
             (JStr (lit "Ohio")), (JStr (lit "Columbus, OH")).
      repeat split; reflexivity.
    + exists (Some (JStr (lit "COLUMBUS, OH"),
                    float_of_decimal false 399613321 (-7),
                    float_of_decimal true 829987942 (-7))).
      vm_compute; reflexivity.
  - destruct (Hrecs 0%nat ohio eq_refl) as (rec' & Hrec' & Hstate & Hmatch).
    destruct (Hmatch (JStr (lit "COLUMBUS, OH"))
                (float_of_decimal false 399613321 (-7))
                (float_of_decimal true 829987942 (-7)))
      as (Ha & (la & lo & Hlat & Hlon & Hrla & Hrlo) & _); [vm_compute; reflexivity|].
    assert (E : fst (geocode_records decimal_float_of_str scalar_str_of DEFAULT_PAUSE
                       [ohio] [] w)
                = Ok (records', failures')) by (rewrite Hrun; reflexivity).
    vm_compute in E. injection E as <- _.
    simpl in Hrec'. injection Hrec' as <-.
    assert (Ela : la = float_of_decimal false 39961332 (-6)).
    { apply (f_equal (fun r => match r with Ok (JFloat f) => f | _ => S754_nan end))
        in Hlat.
      vm_compute in Hlat. rewrite <- Hlat. vm_compute. reflexivity. }
    assert (Elo : lo = float_of_decimal true 82998794 (-6)).
    { apply (f_equal (fun r => match r with Ok (JFloat f) => f | _ => S754_nan end))
        in Hlon.
      vm_compute in Hlon. rewrite <- Hlon. vm_compute. reflexivity. }
    subst la lo.
    eexists _, failures', w'. split; [exact Hrun|].
    split; [vm_compute; reflexivity|].
    split; [exact Ha|]. split; [exact Hlat|]. split; [exact Hlon|].
    split; [exact Hrla|]. split; [exact Hrlo|].
    split; intros H; vm_compute in H; discriminate H.
Defined.

(** C9, as stated, fails: in the body [{"result": null}] the key
    ["addressMatches"] is absent, and [geocode] raises an [AttributeError]. *)
Lemma null_result_raises :
  let w := world_with (lit "in.json") ohio_input (always null_result_body) in
  json (answer null_result_body) = Ok (JObj [(lit "result", JNull)])
  /\ fst (geocode decimal_float_of_str (JStr (lit "Columbus, OH")) w)
     = Raise AttributeError.
Proof. split; vm_compute; reflexivity. Qed.

(** C9, as amended, on the body [{}]. *)
Lemma absent_keys_mean_no_match_witness :
  fst (geocode decimal_float_of_str (JStr (lit "Columbus, OH"))
         (world_with (lit "in.json") ohio_input (always (lit "{}"))))
  = Ok None.
Proof.
  refine (absent_keys_mean_no_match decimal_float_of_str
            (JStr (lit "Columbus, OH")) (lit "Columbus%2C+OH")
            (world_with (lit "in.json") ohio_input (always (lit "{}")))
            (answer (lit "{}")) [] _ _ _ _ _).
  1-4: vm_compute; reflexivity.
  left. reflexivity.
Defined.

(** C7 on the record of the end-to-end scenario, after the match, and one
    record left as it was. *)
Lemma written_file_reloads_identically_witness :
  let records :=
    [corrected ohio (JStr (lit "COLUMBUS, OH"))
       (float_of_decimal false 39961332 (-6)) (float_of_decimal true 82998794 (-6));
     utah] in
  let w := world_with (input default_args) two_states_input (always no_match_body) in
  exists w',
    write_verified (output default_args) records w = (Ok tt, w')
    /\ load_json (output default_args) w' = (Ok records, w').
Proof.
  cbv zeta. apply written_file_reloads_identically; vm_compute; reflexivity.
Defined.

(** C8 on the second end-to-end scenario.  Where the output file is
    missing the re-load raises and the exception leaves step 5; where the
    file holds [[1]], the line printed is still the one for the two
    in-memory records, which share the pair (0, 0); and [main] ends with
    step 5 on the records the loop has left. *)
Lemma duplicate_warning_from_memory_only_witness :
  let outp := output default_args in
  let records := [ohio; utah] in
  let failures := [lit "Ohio | Columbus, OH"; lit "Utah | Salt Lake City, UT"] in
  let w := world_with (input default_args) two_states_input (always no_match_body) in
  let w_other := world_with outp (lit "[1]") (always no_match_body) in
  reparse_and_check outp records w = (Raise OSError, w)
  /\ reparse_and_check outp records w_other
     = (Ok tt, log_print (uniqueness_line false) w_other)
  /\ exists w2,
       main decimal_float_of_str scalar_str_of default_args w
       = bind (reparse_and_check outp records) (fun _ => report failures) w2.
Proof.
  cbv zeta.
  destruct (duplicate_warning_from_memory_only decimal_float_of_str scalar_str_of
              (output default_args) [ohio; utah]) as (Hraise & Hprint & Hmain).
  split; [|split].
  - apply Hraise. vm_compute; reflexivity.
  - apply (Hprint _ [JInt 1]); vm_compute; reflexivity.
  - set (w := world_with (input default_args) two_states_input (always no_match_body)).
    set (w1 := snd (geocode_records decimal_float_of_str scalar_str_of
                      (pause default_args) [ohio; utah] []
                      (log_print (parsed_line 2) w))).
    set (w2 := snd (write_verified (output default_args) [ohio; utah] w1)).
    exists w2.
    apply (Hmain default_args w [ohio; utah]
             [lit "Ohio | Columbus, OH"; lit "Utah | Salt Lake City, UT"] w1 w2).
    + reflexivity.
    + vm_compute; reflexivity.
    + vm_compute; reflexivity.
    + vm_compute; reflexivity.
Defined.


(* ===================================================================== *)
(** * The further properties at concrete inputs                           *)
(* ===================================================================== *)

(** X1, at an input.  An input file that holds an object: [main] raises the
    [ValueError] of [load_json] and the world is as it was. *)
Lemma main_load_failure_has_no_effect_witness :
  let w := world_with (input default_args) (lit "{}") (always no_match_body) in
  main decimal_float_of_str scalar_str_of default_args w
  = (Raise (ValueError (lit "Root element must be a JSON array")), w).
Proof.
  cbv zeta. apply main_load_failure_has_no_effect. vm_compute; reflexivity.
Defined.

(** X12, at an input.  A file of a space and a newline. *)
Lemma load_json_blank_file_is_a_decode_error_witness :
  let w := world_with (lit "in.json") [32%N; 10%N] (always no_match_body) in
  load_json (lit "in.json") w = (Raise JSONDecodeError, w).
Proof.
  cbv zeta. apply (load_json_blank_file_is_a_decode_error _ _ [32%N; 10%N]);
    vm_compute; reflexivity.
Defined.

(** X13, at an input.  A file that holds one record, not an array of
    records. *)
Lemma load_json_refuses_a_root_that_is_no_array_witness :
  let w := world_with (lit "in.json") (json_dumps ohio) (always no_match_body) in
  load_json (lit "in.json") w
  = (Raise (ValueError (lit "Root element must be a JSON array")), w).
Proof.
  cbv zeta. apply (load_json_refuses_a_root_that_is_no_array _ _ ohio).
  - vm_compute; reflexivity.
  - vm_compute; reflexivity.
  - intros items. discriminate.
Defined.

(** X2, at an input.  The input file [[]]. *)
Lemma main_on_empty_array_witness :
  let w := world_with (input default_args) (lit "[]") (always no_match_body) in
  exists w',
    main decimal_float_of_str scalar_str_of default_args w = (Ok tt, w')
    /\ files w' !! output default_args = Some (lit "[]")
    /\ sent w' = []
    /\ naps w' = []
    /\ length (stdout w') = 4%nat.
Proof.
  cbv zeta.
  destruct (main_on_empty_array decimal_float_of_str scalar_str_of default_args
              (world_with (input default_args) (lit "[]") (always no_match_body)))
    as (w' & Hmain & Hfiles & Hsent & Hnaps & Hout).
  - vm_compute; reflexivity.
  - reflexivity.
  - exists w'. split; [exact Hmain|]. rewrite Hfiles, Hsent, Hnaps, Hout.
    split; [apply lookup_insert_eq|]. repeat split.
Defined.


(** X4, at an input.  A pause of [-1.0], a [ValueError], and a pause of
    minus infinity, an [OverflowError]. *)
Lemma main_refused_pause_aborts_after_first_request_witness :
  let args secs := {| input := input default_args; output := output default_args;
                      pause := secs |} in
  let w := world_with (input default_args) ohio_input (always columbus_body) in
  let w' := log_request (CENSUS_URL (lit "Columbus%2C+OH"))
              (log_print (parsed_line 1) w) in
  main decimal_float_of_str scalar_str_of (args (S754_finite true 1 0)) w
  = (Raise (ValueError (lit "sleep length must be non-negative")), w')
  /\ main decimal_float_of_str scalar_str_of (args (S754_infinity true)) w
     = (Raise OverflowError, w').
Proof.
  cbv zeta.
  assert (Hohio : is_record ohio).
  { exists [(lit "state", JStr (lit "Ohio")); (lit "address", JStr (lit "Columbus, OH"));
            (lit "latitude", JInt 0); (lit "longitude", JInt 0)],
           (JStr (lit "Ohio")), (JStr (lit "Columbus, OH")).
    repeat split; reflexivity. }
  split.
  - refine (main_refused_pause_aborts_after_first_request
              decimal_float_of_str scalar_str_of
              {| input := input default_args; output := output default_args;
                 pause := S754_finite true 1 0 |}
              (world_with (input default_args) ohio_input (always columbus_body))
              ohio []
              (Some (JStr (lit "COLUMBUS, OH"),
                     float_of_decimal false 39961332 (-6),
                     float_of_decimal true 82998794 (-6)))
              (ValueError (lit "sleep length must be non-negative")) _ _ Hohio _);
      vm_compute; reflexivity.
  - refine (main_refused_pause_aborts_after_first_request
              decimal_float_of_str scalar_str_of
              {| input := input default_args; output := output default_args;
                 pause := S754_infinity true |}
              (world_with (input default_args) ohio_input (always columbus_body))
              ohio []
              (Some (JStr (lit "COLUMBUS, OH"),
                     float_of_decimal false 39961332 (-6),
                     float_of_decimal true 82998794 (-6)))
              OverflowError _ _ Hohio _);
      vm_compute; reflexivity.
Defined.

(** X5, at an input.  A world in which nothing can be written. *)
Lemma main_unwritable_output_fails_after_the_loop_witness :
  let w := {| files := {[ input default_args := two_states_input ]};
              writable := fun _ => false; service := always no_match_body;
              sent := []; stdout := []; naps := [] |} in
  exists w',
    main decimal_float_of_str scalar_str_of default_args w = (Raise OSError, w')
    /\ length (sent w') = 2%nat
    /\ naps w' = [DEFAULT_PAUSE; DEFAULT_PAUSE]
    /\ files w' = files w.
Proof.
  cbv zeta. eexists. split.
  - apply (main_unwritable_output_fails_after_the_loop
             decimal_float_of_str scalar_str_of default_args _ [ohio; utah]).
    + vm_compute; reflexivity.
    + vm_compute; reflexivity.
    + intros [|[|i]] r H; simpl in H;
        [injection H as <-|injection H as <-|destruct i; discriminate H].
      * split; [|exists None; vm_compute; reflexivity].
        exists [(lit "state", JStr (lit "Ohio")); (lit "address", JStr (lit "Columbus, OH"));
                (lit "latitude", JInt 0); (lit "longitude", JInt 0)],
               (JStr (lit "Ohio")), (JStr (lit "Columbus, OH")).
        repeat split; reflexivity.
      * split; [|exists None; vm_compute; reflexivity].
        exists [(lit "state", JStr (lit "Utah")); (lit "address", JStr (lit "Salt Lake City, UT"));
                (lit "latitude", JInt 0); (lit "longitude", JInt 0)],
               (JStr (lit "Utah")), (JStr (lit "Salt Lake City, UT")).
        repeat split; reflexivity.
    + reflexivity.
  - repeat split.
Defined.

(** X6, at an input.  A record without coordinates, for which the geocoder
    finds nothing. *)
Lemma main_uniqueness_failure_comes_after_the_write_witness :
  let bare := JObj [(lit "state", JStr (lit "Ohio"));
                    (lit "address", JStr (lit "Columbus, OH"))] in
  let w := world_with (input default_args) (json_dumps (JArr [bare]))
             (always no_match_body) in
  exists w',
    main decimal_float_of_str scalar_str_of default_args w = (Raise KeyError, w')
    /\ files w' !! output default_args = Some (json_dumps (JArr [bare]))
    /\ stdout w' = [parsed_line 1; written_line (output default_args)].
Proof.
  cbv zeta.
  destruct (main_uniqueness_failure_comes_after_the_write
              decimal_float_of_str scalar_str_of default_args
              (world_with (input default_args)
                 (json_dumps (JArr [JObj [(lit "state", JStr (lit "Ohio"));
                                          (lit "address", JStr (lit "Columbus, OH"))]]))
                 (always no_match_body))
              [JObj [(lit "state", JStr (lit "Ohio"));
                     (lit "address", JStr (lit "Columbus, OH"))]]
              KeyError)
    as (w' & Hmain & Hfile & Hout).
  - vm_compute; reflexivity.
  - vm_compute; reflexivity.
  - intros [|i] r H; simpl in H; [injection H as <-|destruct i; discriminate H].
    split; [|exists None; vm_compute; reflexivity].
    eexists _, _, _. repeat split; reflexivity.
  - reflexivity.
  - vm_compute; reflexivity.
  - vm_compute; reflexivity.
  - exists w'. split; [exact Hmain|]. split; [exact Hfile|]. exact Hout.
Defined.

(** X7, at an input.  The body [{"result": {"addressMatches": null}}]. *)
Lemma geocode_takes_falsy_matches_as_no_match_witness :
  let body := json_lit "{'result': {'addressMatches': null}}" in
  let w := world_with (lit "in.json") ohio_input (always body) in
  geocode decimal_float_of_str (JStr (lit "Columbus, OH")) w
  = (Ok None, log_request (CENSUS_URL (lit "Columbus%2C+OH")) w).
Proof.
  cbv zeta.
  refine (geocode_takes_falsy_matches_as_no_match decimal_float_of_str
            (JStr (lit "Columbus, OH")) (lit "Columbus%2C+OH")
            (world_with (lit "in.json") ohio_input
               (always (json_lit "{'result': {'addressMatches': null}}")))
            (answer (json_lit "{'result': {'addressMatches': null}}"))
            [(lit "result", JObj [(lit "addressMatches", JNull)])]
            [(lit "addressMatches", JNull)] JNull _ _ _ _ _ _ _);
    vm_compute; reflexivity.
Defined.

(** X8, at an input.  A first match with an address and no coordinates. *)
Lemma geocode_raises_on_a_malformed_match_witness :
  let body := json_lit "{'result': {'addressMatches': [{'matchedAddress': 'COLUMBUS, OH'}]}}" in
  let w := world_with (lit "in.json") ohio_input (always body) in
  geocode decimal_float_of_str (JStr (lit "Columbus, OH")) w
  = (Raise KeyError, log_request (CENSUS_URL (lit "Columbus%2C+OH")) w).
Proof.
  cbv zeta.
  destruct (geocode_raises_on_a_malformed_match decimal_float_of_str
              (JStr (lit "Columbus, OH")) (lit "Columbus%2C+OH")
              (world_with (lit "in.json") ohio_input
                 (always (json_lit "{'result': {'addressMatches': [{'matchedAddress': 'COLUMBUS, OH'}]}}")))
              (answer (json_lit "{'result': {'addressMatches': [{'matchedAddress': 'COLUMBUS, OH'}]}}"))
              [(lit "result",
                JObj [(lit "addressMatches",
                       JArr [JObj [(lit "matchedAddress", JStr (lit "COLUMBUS, OH"))]])])]
              [(lit "addressMatches",
                JArr [JObj [(lit "matchedAddress", JStr (lit "COLUMBUS, OH"))]])]
              (JObj [(lit "matchedAddress", JStr (lit "COLUMBUS, OH"))]) [])
    as [_ Hobj].
  1-6: vm_compute; reflexivity.
  destruct (Hobj _ eq_refl) as [Hmissing _]. apply Hmissing. reflexivity.
Defined.

(** X9, at an input.  The address of the end-to-end scenario: its comma and
    its space are quoted. *)
Lemma geocode_requests_a_url_of_safe_characters_witness :
  let w := world_with (lit "in.json") ohio_input (always no_match_body) in
  Forall (fun c => url_char c = true) (lit "Columbus%2C+OH")
  /\ snd (geocode decimal_float_of_str (JStr (lit "Columbus, OH")) w)
     = log_request (CENSUS_URL (lit "Columbus%2C+OH")) w.
Proof.
  cbv zeta.
  apply (geocode_requests_a_url_of_safe_characters decimal_float_of_str
           (lit "Columbus, OH")).
  - cbn. repeat constructor.
  - vm_compute; reflexivity.
Defined.

(** X11, at an input.  An address with a comma and the same address without
    it. *)
Lemma different_addresses_get_different_urls_witness :
  CENSUS_URL (lit "Columbus%2C+OH") <> CENSUS_URL (lit "Columbus+OH").
Proof.
  apply (different_addresses_get_different_urls
           (lit "Columbus, OH") (lit "Columbus OH")).
  - cbn. repeat constructor.
  - cbn. repeat constructor.
  - vm_compute; reflexivity.
  - vm_compute; reflexivity.
  - intros H. vm_compute in H. discriminate H.
Defined.

(** X14, at an input.  Two records, and the same two the other way round. *)
Lemma unique_latlon_ignores_the_order_witness :
  unique_latlon [record_at 2 2; record_at 1 1] = Ok true.
Proof.
  apply (unique_latlon_ignores_the_order [record_at 1 1; record_at 2 2]).
  - vm_compute; reflexivity.
  - apply perm_swap.
Defined.

(** X15, at an input.  A record whose latitude is an array. *)
Lemma unique_latlon_raises_on_an_unhashable_coordinate_witness :
  unique_latlon
    [record_at 1 1;
     JObj [(lit "latitude", JArr [JInt 1]); (lit "longitude", JInt 1)]]
  = Raise TypeError.
Proof.
  apply unique_latlon_raises_on_an_unhashable_coordinate.
  - intros r Hr. apply elem_of_cons in Hr as [->|Hr].
    + exists (JInt 1), (JInt 1). split; reflexivity.
    + apply list_elem_of_singleton in Hr as ->.
      exists (JArr [JInt 1]), (JInt 1). split; reflexivity.
  - exists (JObj [(lit "latitude", JArr [JInt 1]); (lit "longitude", JInt 1)]),
           (JArr [JInt 1]), (JInt 1).
    split; [right; left|]. split; [reflexivity|]. split; [reflexivity|].
    left. reflexivity.
Defined.

(** X17, at an input.  A record with a state and an address only, after a
    match: the coordinates come last. *)
Lemma loop_keeps_the_fields_in_order_witness :
  let bare := [(lit "state", JStr (lit "Ohio"));
               (lit "address", JStr (lit "Columbus, OH"))] in
  let w := world_with (lit "in.json") ohio_input (always columbus_body) in
  exists d',
    fst (loop_body decimal_float_of_str scalar_str_of DEFAULT_PAUSE (JObj bare) [] w)
      = Ok (JObj d', [])
    /\ keys d' = [lit "state"; lit "address"; lit "latitude"; lit "longitude"].
Proof.
  cbv zeta.
  set (bare := [(lit "state", JStr (lit "Ohio"));
                (lit "address", JStr (lit "Columbus, OH"))]).
  set (w := world_with (lit "in.json") ohio_input (always columbus_body)).
  destruct (loop_keeps_the_fields_in_order decimal_float_of_str scalar_str_of
              DEFAULT_PAUSE bare [] w
              (corrected (JObj bare) (JStr (lit "COLUMBUS, OH"))
                 (float_of_decimal false 39961332 (-6))
                 (float_of_decimal true 82998794 (-6)))
              []
              (snd (loop_body decimal_float_of_str scalar_str_of DEFAULT_PAUSE
                      (JObj bare) [] w)))
    as (d' & Hrec & Hkeys).
  - vm_compute; reflexivity.
  - exists d'. split.
    + rewrite <- Hrec. vm_compute; reflexivity.
    + injection Hrec as <-. vm_compute; reflexivity.
Defined.

(** X16, at an input.  The record of the end-to-end scenario with a state
    that is not ASCII. *)
Lemma written_file_is_ascii_witness :
  let rec := JObj [(lit "state", JStr (lit "Hawai" ++ [0x2BB%N; 105%N]));
                   (lit "address", JStr (lit "Honolulu, HI"))] in
  let w := world_with (lit "in.json") ohio_input (always no_match_body) in
  exists w' t,
    write_verified (lit "out.json") [rec] w = (Ok tt, w')
    /\ files w' !! lit "out.json" = Some t
    /\ ascii_text t.
Proof.
  cbv zeta. apply written_file_is_ascii; vm_compute; reflexivity.
Defined.

(** X18, at an input.  The float [-2^-30], about minus a billionth. *)
Lemma py_round_of_a_tiny_coordinate_is_a_signed_zero_witness :
  py_round (S754_finite true 1 (-30)) 6 = S754_zero true.
Proof.
  apply py_round_of_a_tiny_coordinate_is_a_signed_zero; vm_compute; reflexivity.
Defined.

(** X19, at an input.  After the end-to-end scenario the input file holds
    what it held. *)
Lemma main_touches_no_file_but_the_output_witness :
  let w := world_with (input default_args) ohio_input (always columbus_body) in
  files (snd (main decimal_float_of_str scalar_str_of default_args w))
    !! input default_args
  = Some ohio_input.
Proof.
  cbv zeta.
  rewrite (main_touches_no_file_but_the_output decimal_float_of_str scalar_str_of
             default_args _ (input default_args)).
  - apply lookup_singleton_eq.
  - intros H. vm_compute in H. discriminate H.
Defined.

(** X21, at an input.  Two records, the second call failing in transport:
    two requests, and one pause between them. *)
Lemma main_paces_its_requests_witness :
  let w := world_with (input default_args) two_states_input second_call_fails in
  exists n k,
    length (sent (snd (main decimal_float_of_str scalar_str_of default_args w)))
      = (0 + n)%nat
    /\ naps (snd (main decimal_float_of_str scalar_str_of default_args w))
       = [] ++ repeat DEFAULT_PAUSE k
    /\ (n <= 2)%nat /\ (k <= n <= S k)%nat.
Proof.
  cbv zeta.
  apply (main_paces_its_requests decimal_float_of_str scalar_str_of default_args
           (world_with (input default_args) two_states_input second_call_fails)
           [ohio; utah]).
  vm_compute; reflexivity.
Defined.
